(** * mistra: a shallow embedding of the streaming time-series core

    The development follows the Python sources module by module:
    - [GrowingArray]  (package/growing_arrays/types.py)
    - [Pricing]       (pricing.py)
    - [Sources]       (mistra/core/sources.py)
    - [Digests]       (mistra/core/digests.py)
    - [Indicators]    (mistra/core/indicators/__init__.py)
    - [Moving]        (mistra/core/indicators/moving.py)
    - [Predictors]    (mistra/core/indicators/predictor.py)

    Python integers are [Z]; objects are records; a method that mutates
    [self] and may raise is a function from the object to the object it
    leaves behind, the effects it emitted and either a value or the
    exception raised. *)

From Stdlib Require Import ZArith QArith Qround Lia.
From stdpp Require Import base list gmap.

Open Scope Z_scope.

(** ** Exceptions and results *)

(** The two [RuntimeError]s of the code base, told apart by their message. *)
Inductive runtime_message :=
  | CannotAddData          (* "Cannot add data: interpolation is needed ..." *)
  | IndicatorDisposed.     (* "Cannot retrieve indicator data because it is disposed" *)

Inductive exn :=
  | IndexError
  | ValueError
  | TypeError
  | AttributeError
  | KeyError
  | OverflowError
  | RecursionError
  | RuntimeError (msg : runtime_message).

(** The spec's names for the two runtime errors. *)
Definition MissingInitial : exn := RuntimeError CannotAddData.
Definition Disposed : exn := RuntimeError IndicatorDisposed.

Inductive result (A : Type) :=
  | Ok (a : A)
  | Raise (e : exn).
Arguments Ok {A} a.
Arguments Raise {A} e.

Global Instance result_ret : MRet result := λ A a, Ok a.

Global Instance result_bind : MBind result := λ A B k m,
  match m with
  | Ok a => k a
  | Raise e => Raise e
  end.

Definition is_ok {A} (r : result A) : bool :=
  match r with Ok _ => true | Raise _ => false end.

(** [f] on every element, in order, up to the first exception. *)
Fixpoint traverse {A B} (f : A → result B) (xs : list A) : result (list B) :=
  match xs with
  | [] => Ok []
  | x :: xs =>
      y ← f x;
      ys ← traverse f xs;
      Ok (y :: ys)
  end.

Lemma traverse_lookup {A B} (f : A → result B) xs : ∀ ys,
  traverse f xs = Ok ys →
  List.length ys = List.length xs
  ∧ ∀ k y, ys !! k = Some y → ∃ x, xs !! k = Some x ∧ f x = Ok y.
Proof.
  induction xs as [|x xs IH]; intros ys; simpl.
  - intros [= <-]. split; [done|]. intros k y Hk. done.
  - unfold mbind, result_bind.
    destruct (f x) as [y0|] eqn:Ef; [|done].
    destruct (traverse f xs) as [ys0|]; [|done]. intros [= <-].
    destruct (IH ys0 eq_refl) as [Hl Hk]. split; [simpl; congruence|].
    intros [|k] y Hy; simpl in *.
    + injection Hy as <-. eauto.
    + by apply Hk.
Qed.

Lemma traverse_is_ok {A B} (f : A → result B) xs :
  Forall (λ x, ∃ y, f x = Ok y) xs → ∃ ys, traverse f xs = Ok ys.
Proof.
  induction xs as [|x xs IH]; intros Hall; [by eexists|].
  apply Forall_cons in Hall as [[y Hy] Hall].
  destruct (IH Hall) as [ys Hys]. exists (y :: ys). simpl.
  unfold mbind, result_bind. by rewrite Hy, Hys.
Qed.

(** ** Dtypes

    What an array needs to know of its dtype: the cell [zeros] fills with,
    and what an assignment stores for a value (numpy converts the value to
    the dtype of the array, or raises). *)
Class Dtype (D A : Type) := {
  zero : D → A;
  astype : D → A → result A
}.

(** ** The growing array (package/growing_arrays/types.py) *)

Module GrowingArray.

(** What is passed between brackets: an integer or a [start:stop] slice. *)
Inductive key :=
  | Index (i : Z)
  | Slice (start stop : Z).

Section GrowingArray.
Context {D A : Type} {dtype_of : Dtype D A}.

(** What is read or written: one row of [width] cells, or a matrix of
    rows. A scalar stored in an array of width 1 is the row [[x]]. *)
Inductive value :=
  | Row (r : list A)
  | Matrix (m : list (list A)).

Record t := Build {
  _chunks : list (list (list A));
  _dtype : D;
  _chunk_size : Z;
  _width : Z;
  _length : Z
}.

Definition __init__ (dtype : D) (chunk_size width : Z) : result t :=
  if chunk_size <? 4 then Raise ValueError
  else if width <? 1 then Raise ValueError
  else Ok (Build [] dtype chunk_size width 0).

Definition __len__ (self : t) : Z := _length self.

(** [zeros((chunk_size, width), dtype)] *)
Definition zeros (self : t) : list (list A) :=
  replicate (Z.to_nat (_chunk_size self))
            (replicate (Z.to_nat (_width self)) (zero (_dtype self))).

(** Modelled from the spec: [support.fix_slicing] is not part of the tree.
    Negative bounds and [start > stop] are rejected; when a length is
    given, reading at or past it is out of range. Only unit-step slices
    with both bounds are represented by [key]. *)
Definition fix_slicing (item : key) (length : option Z)
  : result (Z * option Z) :=
  match item with
  | Index i =>
      if i <? 0 then Raise IndexError
      else match length with
           | Some n => if n <=? i then Raise IndexError else Ok (i, None)
           | None => Ok (i, None)
           end
  | Slice start stop =>
      if (start <? 0) || (stop <? 0) || (stop <? start) then Raise IndexError
      else match length with
           | Some n =>
               if n <? stop then Raise IndexError else Ok (start, Some stop)
           | None => Ok (start, Some stop)
           end
  end.

(** Modelled from the spec: [support.fix_input] is not part of the tree.
    A row must have [width] cells; a matrix must have [stop - start] rows
    of [width] cells. *)
Definition fix_input (item : key) (width : Z) (length : option Z)
    (v : value) : result value :=
  match length, v with
  | None, Row r =>
      if Z.of_nat (List.length r) =? width then Ok v else Raise ValueError
  | Some n, Matrix m =>
      if (Z.of_nat (List.length m) =? n)
         && forallb (λ r, Z.of_nat (List.length r) =? width) m
      then Ok v else Raise ValueError
  | _, _ => Raise ValueError
  end.

(** [self._chunks[chunk_index][chunk_pos]] *)
Definition chunk_row (self : t) (start : Z) : result (list A) :=
  let chunk_index := start / _chunk_size self in
  let chunk_pos := start mod _chunk_size self in
  match _chunks self !! Z.to_nat chunk_index with
  | None => Raise IndexError
  | Some chunk =>
      match chunk !! Z.to_nat chunk_pos with
      | None => Raise IndexError
      | Some row => Ok row
      end
  end.

(** [self._chunks[chunk_index][chunk_pos] = data] *)
Definition set_chunk_row (self : t) (start : Z) (data : list A) : result t :=
  let chunk_index := start / _chunk_size self in
  let chunk_pos := start mod _chunk_size self in
  match _chunks self !! Z.to_nat chunk_index with
  | None => Raise IndexError
  | Some chunk =>
      if decide (Z.to_nat chunk_pos < List.length chunk)%nat then
        Ok (Build (<[Z.to_nat chunk_index :=
                       <[Z.to_nat chunk_pos := data]> chunk]> (_chunks self))
                  (_dtype self) (_chunk_size self) (_width self)
                  (_length self))
      else Raise IndexError
  end.

(** Modelled from the spec: [support.chunked_slicing] is not part of the
    tree. It cuts [start, stop) at the chunk borders and the caller copies
    piece by piece; row [i] of the range always meets chunk
    [i // chunk_size] at position [i % chunk_size], which is how the two
    loops below visit the range. *)
Fixpoint gather_rows (self : t) (indices : list Z)
  : result (list (list A)) :=
  match indices with
  | [] => Ok []
  | i :: rest =>
      row ← chunk_row self i;
      rows ← gather_rows self rest;
      Ok (row :: rows)
  end.

Fixpoint fill_rows (self : t) (start : Z) (data : list (list A))
  : result t :=
  match data with
  | [] => Ok self
  | row :: rest =>
      self' ← set_chunk_row self start row;
      fill_rows self' (start + 1) rest
  end.

Definition _gather (self : t) (start : Z) (stop : option Z) : result value :=
  match stop with
  | None =>
      row ← chunk_row self start;
      Ok (Row row)
  | Some stop =>
      rows ← gather_rows self (seqZ start (stop - start));
      Ok (Matrix rows)
  end.

Definition __getitem__ (self : t) (item : key) : result value :=
  '(start, stop) ← fix_slicing item (Some (_length self));
  _gather self start stop.

Definition _allocate (self : t) (stop : Z) : t :=
  let chunks_count := Z.of_nat (List.length (_chunks self)) in
  let total_allocated := chunks_count * _chunk_size self in
  let chunks :=
    if total_allocated <? stop then
      let new_bins :=
        (stop + _chunk_size self - 1) / _chunk_size self - chunks_count in
      _chunks self ++ replicate (Z.to_nat new_bins) (zeros self)
    else _chunks self in
  Build chunks (_dtype self) (_chunk_size self) (_width self)
        (Z.max (_length self) stop).

(** An assignment to a chunk stores every cell converted to the dtype of
    the chunk; a value with a cell that is refused is not stored. *)
Definition _fill (self : t) (start : Z) (stop : option Z) (data : value)
  : result t :=
  match stop, data with
  | None, Row row =>
      row ← traverse (astype (_dtype self)) row;
      set_chunk_row self start row
  | Some _, Matrix rows =>
      rows ← traverse (traverse (astype (_dtype self))) rows;
      fill_rows self start rows
  | _, _ => Raise ValueError
  end.

(** The array [__setitem__] leaves behind, and how it ends: when [_fill]
    raises, the array has been grown by [_allocate]. *)
Definition __setitem__ (self : t) (item : key) (v : value)
  : t * result unit :=
  match fix_slicing item None with
  | Raise e => (self, Raise e)
  | Ok (start, stop) =>
      match fix_input item (_width self)
                      (match stop with
                       | None => None
                       | Some stop => Some (stop - start)
                       end) v with
      | Raise e => (self, Raise e)
      | Ok v =>
          let self := _allocate self (match stop with
                                      | Some stop => stop
                                      | None => start + 1
                                      end) in
          match _fill self start stop v with
          | Raise e => (self, Raise e)
          | Ok self => (self, Ok ())
          end
      end
  end.

(** The four operations under the names the spec gives them. *)
Definition get (self : t) (i : Z) : result (list A) :=
  v ← __getitem__ self (Index i);
  match v with Row r => Ok r | Matrix _ => Raise TypeError end.

Definition get_slice (self : t) (start stop : Z) : result (list (list A)) :=
  v ← __getitem__ self (Slice start stop);
  match v with Matrix m => Ok m | Row _ => Raise TypeError end.

Definition set (self : t) (i : Z) (row : list A) : t * result unit :=
  __setitem__ self (Index i) (Row row).

Definition set_slice (self : t) (start stop : Z) (m : list (list A))
  : t * result unit :=
  __setitem__ self (Slice start stop) (Matrix m).

(** [array[i][col] = x]. Reading a single row hands out
    [self._chunks[chunk_index][chunk_pos][:]], a view of the chunk, so the
    assignment lands in the chunk itself. *)
Definition set_cell (self : t) (i col : Z) (x : A) : result t :=
  row ← get self i;
  if decide (0 <= col < Z.of_nat (List.length row)) then
    x ← astype (_dtype self) x;
    set_chunk_row self i (<[Z.to_nat col := x]> row)
  else Raise IndexError.

(** [array[i][col]] *)
Definition get_cell (self : t) (i col : Z) : result A :=
  row ← get self i;
  if decide (0 <= col) then
    match row !! Z.to_nat col with
    | Some x => Ok x
    | None => Raise IndexError
    end
  else Raise IndexError.

(** Well-formed arrays: what [__init__] establishes and every operation
    keeps. Every chunk has [chunk_size] rows of [width] cells, the length
    never exceeds what is allocated, and the rows allocated past the length
    still hold the zeros they were created with. *)
Definition allocated (self : t) : Z :=
  Z.of_nat (List.length (_chunks self)) * _chunk_size self.

Definition zero_row (self : t) : list A :=
  replicate (Z.to_nat (_width self)) (zero (_dtype self)).

Record wf (self : t) : Prop := Wf {
  wf_chunk_size : 4 <= _chunk_size self;
  wf_width : 1 <= _width self;
  wf_chunks :
    Forall (λ c, List.length c = Z.to_nat (_chunk_size self)) (_chunks self);
  wf_rows :
    Forall (Forall (λ row, List.length row = Z.to_nat (_width self)))
           (_chunks self);
  wf_length : 0 <= _length self <= allocated self;
  wf_clean :
    ∀ j, _length self <= j < allocated self →
         chunk_row self j = Ok (zero_row self)
}.

(** *** Chunk-level facts *)

Lemma wf___init__ dtype chunk_size width self :
  __init__ dtype chunk_size width = Ok self → wf self.
Proof.
  unfold __init__. intros H.
  destruct (chunk_size <? 4) eqn:E1; [discriminate|].
  destruct (width <? 1) eqn:E2; [discriminate|].
  injection H as <-. split; unfold allocated; simpl; try lia; constructor.
Qed.

Lemma zeros_length self :
  List.length (zeros self) = Z.to_nat (_chunk_size self).
Proof. unfold zeros. by rewrite length_replicate. Qed.

Lemma chunk_index_lt self i :
  wf self → 0 <= i < allocated self →
  (Z.to_nat (i / _chunk_size self) < List.length (_chunks self))%nat
  ∧ (Z.to_nat (i mod _chunk_size self) < Z.to_nat (_chunk_size self))%nat.
Proof.
  intros [Hcs _ _ _ _ _] [Hi Ha]. unfold allocated in Ha.
  split.
  - apply Nat2Z.inj_lt. rewrite Z2Nat.id by (apply Z.div_pos; lia).
    apply Z.div_lt_upper_bound; lia.
  - pose proof (Z.mod_pos_bound i (_chunk_size self)). lia.
Qed.

Lemma chunk_index_inj cs i j :
  0 < cs → 0 <= i → 0 <= j →
  Z.to_nat (i / cs) = Z.to_nat (j / cs) →
  Z.to_nat (i mod cs) = Z.to_nat (j mod cs) → i = j.
Proof.
  intros Hcs Hi Hj Hd Hm.
  pose proof (Z.mod_pos_bound i cs). pose proof (Z.mod_pos_bound j cs).
  assert (0 <= i / cs) by (apply Z.div_pos; lia).
  assert (0 <= j / cs) by (apply Z.div_pos; lia).
  rewrite (Z.div_mod i cs), (Z.div_mod j cs) by lia.
  apply Z2Nat.inj in Hd; [|lia|lia]. apply Z2Nat.inj in Hm; [|lia|lia].
  congruence.
Qed.

Lemma chunk_row_is_ok self i :
  wf self → 0 <= i < allocated self → ∃ row, chunk_row self i = Ok row.
Proof.
  intros Hwf Hi. destruct (chunk_index_lt self i Hwf Hi) as [Hc Hp].
  unfold chunk_row.
  destruct (lookup_lt_is_Some_2 _ _ Hc) as [chunk Hchunk]. rewrite Hchunk.
  pose proof (wf_chunks _ Hwf) as Hall.
  rewrite Forall_lookup in Hall. specialize (Hall _ _ Hchunk).
  simpl in Hall. rewrite <- Hall in Hp.
  destruct (lookup_lt_is_Some_2 _ _ Hp) as [row Hrow]. rewrite Hrow. eauto.
Qed.

Lemma chunk_row_width self i row :
  wf self → chunk_row self i = Ok row →
  List.length row = Z.to_nat (_width self).
Proof.
  intros Hwf. unfold chunk_row.
  destruct (_chunks self !! _) as [chunk|] eqn:Ec; [|done].
  destruct (chunk !! _) as [row'|] eqn:Er; [|done]. intros [= ->].
  pose proof (wf_rows _ Hwf) as Hall.
  rewrite Forall_lookup in Hall. specialize (Hall _ _ Ec).
  rewrite Forall_lookup in Hall. exact (Hall _ _ Er).
Qed.

(** Writing one row below the length succeeds, is read back, and leaves
    every other row alone. *)
Lemma set_chunk_row_spec self i data :
  wf self → 0 <= i < _length self →
  List.length data = Z.to_nat (_width self) →
  ∃ self',
    set_chunk_row self i data = Ok self'
    ∧ wf self'
    ∧ _length self' = _length self
    ∧ _chunk_size self' = _chunk_size self
    ∧ _width self' = _width self
    ∧ _dtype self' = _dtype self
    ∧ chunk_row self' i = Ok data
    ∧ ∀ j, 0 <= j → j ≠ i → chunk_row self' j = chunk_row self j.
Proof.
  intros Hwf Hi Hdata.
  assert (Hia : 0 <= i < allocated self) by (destruct Hwf; lia).
  destruct (chunk_index_lt self i Hwf Hia) as [Hc Hp].
  pose proof (wf_chunks _ Hwf) as Hall.
  destruct (lookup_lt_is_Some_2 _ _ Hc) as [chunk Hchunk].
  assert (Hlen : List.length chunk = Z.to_nat (_chunk_size self)).
  { rewrite Forall_lookup in Hall. exact (Hall _ _ Hchunk). }
  unfold set_chunk_row. rewrite Hchunk.
  destruct (decide _) as [_|Hn]; [|lia].
  eexists. split; [reflexivity|].
  assert (Hother : ∀ j, 0 <= j → j ≠ i →
    chunk_row (Build (<[Z.to_nat (i / _chunk_size self) :=
                 <[Z.to_nat (i mod _chunk_size self) := data]> chunk]>
                 (_chunks self))
               (_dtype self) (_chunk_size self) (_width self) (_length self))
              j = chunk_row self j).
  { intros j Hj Hne. unfold chunk_row. simpl.
    destruct (decide (Z.to_nat (i / _chunk_size self)
                      = Z.to_nat (j / _chunk_size self))) as [Heq|Hneq].
    + rewrite <- Heq. rewrite list_lookup_insert_eq by done. rewrite Hchunk.
      rewrite list_lookup_insert_ne; [done|].
      intros Hm. apply Hne. symmetry.
      apply (chunk_index_inj (_chunk_size self)); try done; lia.
    + by rewrite list_lookup_insert_ne. }
  split_and!; simpl; try done.
  - destruct Hwf as [? ? ? Hrows Hl Hclean].
    split; unfold allocated in *; simpl; try done.
    + apply Forall_insert; [done|]. by rewrite length_insert.
    + apply Forall_insert; [done|]. apply Forall_insert; [|done].
      rewrite Forall_lookup in Hrows. exact (Hrows _ _ Hchunk).
    + by rewrite length_insert.
    + rewrite length_insert. intros j Hj.
      rewrite Hother by lia. by apply Hclean.
  - unfold chunk_row. simpl.
    rewrite list_lookup_insert_eq by done.
    rewrite list_lookup_insert_eq by lia. done.
Qed.

(** Allocation covers the requested stop, keeps what was there and hands
    out zero rows beyond the old length. *)
Lemma _allocate_spec self stop :
  wf self →
  let self' := _allocate self stop in
  wf self'
  ∧ _length self' = Z.max (_length self) stop
  ∧ _chunk_size self' = _chunk_size self
  ∧ _width self' = _width self
  ∧ _dtype self' = _dtype self
  ∧ (∀ j, 0 <= j < _length self → chunk_row self' j = chunk_row self j)
  ∧ (∀ j, _length self <= j < _length self' →
          chunk_row self' j = Ok (zero_row self)).
Proof.
  intros Hwf. pose proof Hwf as [Hcs Hw Hall Hrows Hlen Hclean].
  unfold _allocate, allocated in *. simpl.
  destruct (Z.of_nat (List.length (_chunks self)) * _chunk_size self <? stop)
    eqn:E.
  - apply Z.ltb_lt in E.
    set (n := (stop + _chunk_size self - 1) / _chunk_size self
              - Z.of_nat (List.length (_chunks self))).
    assert (Hn : stop <= (Z.of_nat (List.length (_chunks self)) + n)
                         * _chunk_size self).
    { unfold n. Z.div_mod_to_equations. nia. }
    assert (Hn0 : 0 <= n) by nia.
    assert (Hcount : Z.of_nat (List.length (_chunks self
               ++ replicate (Z.to_nat n) (zeros self)))
             = Z.of_nat (List.length (_chunks self)) + n).
    { rewrite length_app, length_replicate. lia. }
    assert (Hold : ∀ j,
      0 <= j < Z.of_nat (List.length (_chunks self)) * _chunk_size self →
      chunk_row (Build (_chunks self ++ replicate (Z.to_nat n) (zeros self))
                   (_dtype self) (_chunk_size self) (_width self)
                   (Z.max (_length self) stop)) j
      = chunk_row self j).
    { intros j Hj. unfold chunk_row. simpl.
      destruct (chunk_index_lt self j Hwf Hj) as [Hc _].
      by rewrite lookup_app_l. }
    assert (Hnew : ∀ j,
      Z.of_nat (List.length (_chunks self)) * _chunk_size self <= j
        < (Z.of_nat (List.length (_chunks self)) + n) * _chunk_size self →
      chunk_row (Build (_chunks self ++ replicate (Z.to_nat n) (zeros self))
                   (_dtype self) (_chunk_size self) (_width self)
                   (Z.max (_length self) stop)) j
      = Ok (zero_row self)).
    { intros j Hj. unfold chunk_row. simpl.
      assert (Hq : Z.of_nat (List.length (_chunks self))
                   <= j / _chunk_size self
                   < Z.of_nat (List.length (_chunks self)) + n).
      { split; [apply Z.div_le_lower_bound; lia
               |apply Z.div_lt_upper_bound; lia]. }
      pose proof (Z.mod_pos_bound j (_chunk_size self)).
      rewrite lookup_app_r by lia.
      rewrite lookup_replicate_2 by lia.
      unfold zeros. rewrite lookup_replicate_2 by lia. done. }
    assert (Hany : ∀ j, _length self <= j
        < (Z.of_nat (List.length (_chunks self)) + n) * _chunk_size self →
      chunk_row (Build (_chunks self ++ replicate (Z.to_nat n) (zeros self))
                   (_dtype self) (_chunk_size self) (_width self)
                   (Z.max (_length self) stop)) j
      = Ok (zero_row self)).
    { intros j Hj.
      destruct (decide (j < Z.of_nat (List.length (_chunks self))
                            * _chunk_size self)).
      - rewrite Hold by lia. apply Hclean. lia.
      - apply Hnew. lia. }
    split_and!; simpl; try done.
    + split; unfold allocated; simpl; try done.
      * apply Forall_app. split; [done|].
        apply Forall_replicate. apply zeros_length.
      * apply Forall_app. split; [done|].
        apply Forall_replicate. unfold zeros. apply Forall_replicate.
        by rewrite length_replicate.
      * rewrite Hcount. nia.
      * rewrite Hcount. intros j Hj. apply Hany. lia.
    + intros j Hj. apply Hold. lia.
    + intros j Hj. apply Hany. lia.
  - apply Z.ltb_ge in E.
    assert (Hsame : ∀ j,
      chunk_row (Build (_chunks self) (_dtype self) (_chunk_size self)
                   (_width self) (Z.max (_length self) stop)) j
      = chunk_row self j) by done.
    split_and!; simpl; try done.
    + split; unfold allocated; simpl; try done; try lia.
      intros j Hj. rewrite Hsame. apply Hclean. lia.
    + intros j Hj. rewrite Hsame. apply Hclean. lia.
Qed.

(** *** Reading and writing rows *)

Lemma get_unfold self i :
  get self i
  = if decide (0 <= i < _length self) then chunk_row self i
    else Raise IndexError.
Proof.
  unfold get, __getitem__, fix_slicing, _gather, mbind, result_bind.
  destruct (i <? 0) eqn:E1; [apply Z.ltb_lt in E1|apply Z.ltb_ge in E1].
  - destruct (decide _); [lia|done].
  - destruct (_length self <=? i) eqn:E2;
      [apply Z.leb_le in E2|apply Z.leb_gt in E2].
    + destruct (decide _); [lia|done].
    + destruct (decide _); [|lia]. by destruct (chunk_row self i).
Qed.

Lemma get_bounds self i row : get self i = Ok row → 0 <= i < _length self.
Proof. rewrite get_unfold. by destruct (decide _). Qed.

Lemma get_out_of_range self i :
  ¬ (0 <= i < _length self) → get self i = Raise IndexError.
Proof. intros H. rewrite get_unfold. by destruct (decide _). Qed.

Lemma get_is_ok self i :
  wf self → 0 <= i < _length self → ∃ row, get self i = Ok row.
Proof.
  intros Hwf Hi. rewrite get_unfold. destruct (decide _); [|lia].
  apply chunk_row_is_ok; [done|]. destruct Hwf. lia.
Qed.

Lemma get_width self i row :
  wf self → get self i = Ok row → Z.of_nat (List.length row) = _width self.
Proof.
  intros Hwf. rewrite get_unfold. destruct (decide _); [|done].
  intros H. rewrite (chunk_row_width self i row Hwf H).
  destruct Hwf. lia.
Qed.

Lemma fill_rows_spec data : ∀ self start,
  wf self → 0 <= start →
  start + Z.of_nat (List.length data) <= _length self →
  Forall (λ r, List.length r = Z.to_nat (_width self)) data →
  ∃ self',
    fill_rows self start data = Ok self'
    ∧ wf self'
    ∧ _length self' = _length self
    ∧ _chunk_size self' = _chunk_size self
    ∧ _width self' = _width self
    ∧ _dtype self' = _dtype self
    ∧ (∀ k row, data !! k = Some row →
                chunk_row self' (start + Z.of_nat k) = Ok row)
    ∧ (∀ j, 0 <= j →
            ¬ (start <= j < start + Z.of_nat (List.length data)) →
            chunk_row self' j = chunk_row self j).
Proof.
  induction data as [|row rest IH]; intros self start Hwf Hs Hlen Hrows.
  - exists self. simpl. split_and!; try done.
  - simpl in Hlen. apply Forall_cons in Hrows as [Hrow Hrows].
    destruct (set_chunk_row_spec self start row Hwf)
      as (s1 & E1 & Hwf1 & L1 & C1 & W1 & D1 & R1 & O1); [lia|done|].
    destruct (IH s1 (start + 1) Hwf1)
      as (s2 & E2 & Hwf2 & L2 & C2 & W2 & D2 & R2 & O2);
      [lia|lia|by rewrite W1|].
    exists s2. simpl. unfold mbind, result_bind. rewrite E1.
    split_and!; try congruence.
    + intros [|k] r Hk; simpl in Hk.
      * injection Hk as ->. rewrite O2; [|lia|lia].
        by replace (start + Z.of_nat 0) with start by lia.
      * replace (start + Z.of_nat (S k)) with (start + 1 + Z.of_nat k)
          by lia.
        by apply R2.
    + intros j Hj Hout. simpl in Hout.
      rewrite O2; [|lia|lia]. apply O1; lia.
Qed.

(** [array[i] = row]: the array grows to cover [i]; the rows it had keep
    their contents and the rows skipped over read as zeros. *)
Lemma set_spec self i row stored :
  wf self → 0 <= i → Z.of_nat (List.length row) = _width self →
  traverse (astype (_dtype self)) row = Ok stored →
  ∃ self',
    set self i row = (self', Ok ())
    ∧ wf self'
    ∧ _length self' = Z.max (_length self) (i + 1)
    ∧ _chunk_size self' = _chunk_size self
    ∧ _width self' = _width self
    ∧ _dtype self' = _dtype self
    ∧ get self' i = Ok stored
    ∧ (∀ j, 0 <= j < _length self → j ≠ i → get self' j = get self j)
    ∧ (∀ j, _length self <= j < i → get self' j = Ok (zero_row self)).
Proof.
  intros Hwf Hi Hrow Hstored. pose proof (wf_length _ Hwf) as Hl0.
  destruct (traverse_lookup _ _ _ Hstored) as [Hlen _].
  destruct (_allocate_spec self (i + 1) Hwf)
    as (Hwf1 & L1 & C1 & W1 & D1 & O1 & N1).
  destruct (set_chunk_row_spec (_allocate self (i + 1)) i stored Hwf1)
    as (s2 & E2 & Hwf2 & L2 & C2 & W2 & D2 & R2 & O2); [lia|lia|].
  exists s2.
  assert (Hset : set self i row = (s2, Ok ())).
  { unfold set, __setitem__, fix_slicing, fix_input, _fill,
      mbind, result_bind.
    destruct (i <? 0) eqn:E; [apply Z.ltb_lt in E; lia|].
    rewrite Hrow, Z.eqb_refl, D1, Hstored. by rewrite E2. }
  split_and!; try congruence.
  - rewrite get_unfold. destruct (decide _); [done|lia].
  - intros j Hj Hne. rewrite !get_unfold.
    destruct (decide _); [|lia]. destruct (decide _); [|lia].
    rewrite O2 by lia. apply O1. lia.
  - intros j Hj. rewrite get_unfold. destruct (decide _); [|lia].
    rewrite O2 by lia. apply N1. lia.
Qed.

(** [array[start:stop] = matrix] *)
Lemma set_slice_spec self start stop m stored :
  wf self → 0 <= start <= stop →
  Z.of_nat (List.length m) = stop - start →
  Forall (λ r, Z.of_nat (List.length r) = _width self) m →
  traverse (traverse (astype (_dtype self))) m = Ok stored →
  ∃ self',
    set_slice self start stop m = (self', Ok ())
    ∧ wf self'
    ∧ _length self' = Z.max (_length self) stop
    ∧ _chunk_size self' = _chunk_size self
    ∧ _width self' = _width self
    ∧ _dtype self' = _dtype self
    ∧ (∀ k row, stored !! k = Some row →
                get self' (start + Z.of_nat k) = Ok row)
    ∧ (∀ j, 0 <= j < _length self → ¬ (start <= j < stop) →
            get self' j = get self j)
    ∧ (∀ j, _length self <= j < start → get self' j = Ok (zero_row self)).
Proof.
  intros Hwf Hi Hlen Hrows Hstored. pose proof (wf_length _ Hwf) as Hl0.
  destruct (traverse_lookup _ _ _ Hstored) as [Hslen Hsk].
  destruct (_allocate_spec self stop Hwf)
    as (Hwf1 & L1 & C1 & W1 & D1 & O1 & N1).
  destruct (fill_rows_spec stored (_allocate self stop) start Hwf1)
    as (s2 & E2 & Hwf2 & L2 & C2 & W2 & D2 & R2 & O2); [lia|lia| |].
  { apply Forall_lookup. intros k r Hk.
    destruct (Hsk k r Hk) as (r0 & Hr0 & Hc).
    destruct (traverse_lookup _ _ _ Hc) as [-> _].
    rewrite Forall_lookup in Hrows. specialize (Hrows _ _ Hr0).
    simpl in Hrows. lia. }
  exists s2.
  assert (Hset : set_slice self start stop m = (s2, Ok ())).
  { unfold set_slice, __setitem__, fix_slicing, fix_input, _fill,
      mbind, result_bind.
    destruct (start <? 0) eqn:E; [apply Z.ltb_lt in E; lia|].
    destruct (stop <? 0) eqn:E'; [apply Z.ltb_lt in E'; lia|].
    destruct (stop <? start) eqn:E''; [apply Z.ltb_lt in E''; lia|].
    simpl. rewrite Hlen, Z.eqb_refl. simpl.
    replace (forallb _ m) with true; [by rewrite ?D1, Hstored, E2|].
    symmetry. apply forallb_forall. intros r Hr.
    rewrite Forall_forall in Hrows. apply Z.eqb_eq. apply Hrows.
    by apply list_elem_of_In. }
  split_and!; try congruence.
  - intros k row Hk. rewrite get_unfold.
    pose proof (lookup_lt_Some _ _ _ Hk).
    destruct (decide _); [|lia]. by apply R2.
  - intros j Hj Hout. rewrite !get_unfold.
    destruct (decide _); [|lia]. destruct (decide _); [|lia].
    rewrite O2 by lia. apply O1. lia.
  - intros j Hj. rewrite get_unfold. destruct (decide _); [|lia].
    rewrite O2 by lia. apply N1. lia.
Qed.

Lemma set_inv self i row self' :
  set self i row = (self', Ok ()) →
  0 <= i ∧ Z.of_nat (List.length row) = _width self
  ∧ ∃ stored, traverse (astype (_dtype self)) row = Ok stored.
Proof.
  unfold set, __setitem__, fix_slicing, fix_input, _fill,
    mbind, result_bind.
  destruct (i <? 0) eqn:E; [done|]. apply Z.ltb_ge in E.
  destruct (_ =? _) eqn:E'; [|done]. apply Z.eqb_eq in E'.
  change (_dtype (_allocate self (i + 1))) with (_dtype self).
  destruct (traverse _ row) as [stored|]; [|done]. eauto.
Qed.

Lemma set_slice_inv self start stop m self' :
  set_slice self start stop m = (self', Ok ()) →
  0 <= start <= stop
  ∧ Z.of_nat (List.length m) = stop - start
  ∧ Forall (λ r, Z.of_nat (List.length r) = _width self) m
  ∧ ∃ stored, traverse (traverse (astype (_dtype self))) m = Ok stored.
Proof.
  unfold set_slice, __setitem__, fix_slicing, fix_input, _fill,
    mbind, result_bind.
  destruct (start <? 0) eqn:E1; [done|]. apply Z.ltb_ge in E1.
  destruct (stop <? 0) eqn:E2; [done|]. apply Z.ltb_ge in E2.
  destruct (stop <? start) eqn:E3; [done|]. apply Z.ltb_ge in E3.
  simpl.
  destruct (_ =? _) eqn:E4; [|done]. apply Z.eqb_eq in E4. simpl.
  destruct (forallb _ m) eqn:E5; [|done].
  change (_dtype (_allocate self stop)) with (_dtype self).
  destruct (traverse _ m) as [stored|]; [|done]. intros _.
  split_and!; try done; [|eauto].
  apply Forall_forall. intros r Hr.
  rewrite forallb_forall in E5. apply Z.eqb_eq. apply E5.
  by apply list_elem_of_In.
Qed.

(** An array grown by [_allocate] reads as before below its old length. *)
Lemma _allocate_grown self stop :
  wf self →
  let self' := _allocate self stop in
  wf self'
  ∧ _width self' = _width self
  ∧ _dtype self' = _dtype self
  ∧ _length self <= _length self' <= Z.max (_length self) stop
  ∧ (∀ j, 0 <= j < _length self → get self' j = get self j).
Proof.
  intros Hwf.
  destruct (_allocate_spec self stop Hwf)
    as (Hwf1 & L1 & C1 & W1 & D1 & O1 & N1).
  simpl. split_and!; try done; try lia.
  intros j Hj. rewrite !get_unfold.
  destruct (decide _); [|lia]. destruct (decide _); [|lia]. by apply O1.
Qed.

(** An assignment that raises leaves the array as it was, or grown. *)
Lemma __setitem___raises self item v self' e :
  wf self → __setitem__ self item v = (self', Raise e) →
  ∃ stop,
    (∀ i, item = Index i → stop = i + 1)
    ∧ (∀ start stop', item = Slice start stop' → stop = stop')
    ∧ wf self'
    ∧ _width self' = _width self
    ∧ _dtype self' = _dtype self
    ∧ _length self <= _length self' <= Z.max (_length self) stop
    ∧ (∀ j, 0 <= j < _length self → get self' j = get self j).
Proof.
  intros Hwf Hset. unfold __setitem__ in Hset.
  exists (match item with Index i => i + 1 | Slice _ stop => stop end).
  assert (Hsame : self' = self →
    wf self' ∧ _width self' = _width self ∧ _dtype self' = _dtype self
    ∧ _length self <= _length self'
      <= Z.max (_length self)
               (match item with Index i => i + 1 | Slice _ stop => stop end)
    ∧ (∀ j, 0 <= j < _length self → get self' j = get self j)).
  { intros ->. split_and!; try done; lia. }
  split; [by intros i ->|]. split; [by intros start stop' ->|].
  revert Hset.
  destruct (fix_slicing item None) as [[start stop]|] eqn:Es;
    [|intros [= <- _]; by apply Hsame].
  destruct (fix_input _ _ _ _) as [v'|]; [|intros [= <- _]; by apply Hsame].
  destruct (_fill _ _ _ _) as [self2|]; [done|]. intros [= <- _].
  assert (match stop with Some stop => stop | None => start + 1 end
          = match item with Index i => i + 1 | Slice _ stop => stop end)
    as ->.
  { unfold fix_slicing in Es. destruct item as [i|a b].
    - destruct (i <? 0); [done|]. by injection Es as <- <-.
    - destruct (_ || _); [done|]. by injection Es as <- <-. }
  by apply _allocate_grown.
Qed.

(** *** Reading slices *)

Lemma gather_rows_ext a b indices :
  (∀ j, j ∈ indices → chunk_row a j = chunk_row b j) →
  gather_rows a indices = gather_rows b indices.
Proof.
  induction indices as [|i rest IH]; intros H; [done|].
  simpl. rewrite H by set_solver. rewrite IH; [done|].
  intros j Hj. apply H. set_solver.
Qed.

Lemma gather_rows_lookup self indices rows :
  gather_rows self indices = Ok rows →
  List.length rows = List.length indices
  ∧ ∀ k j, indices !! k = Some j →
           ∃ row, rows !! k = Some row ∧ chunk_row self j = Ok row.
Proof.
  revert rows. induction indices as [|i rest IH]; intros rows.
  - simpl. intros [= <-]. split; [done|]. intros k j Hk. done.
  - simpl. unfold mbind, result_bind.
    destruct (chunk_row self i) as [row|] eqn:Er; [|done].
    destruct (gather_rows self rest) as [rows'|] eqn:Eg; [|done].
    intros [= <-]. destruct (IH rows' eq_refl) as [Hl Hk].
    split; [simpl; congruence|].
    intros [|k] j Hj; simpl in *.
    + injection Hj as <-. eauto.
    + by apply Hk.
Qed.

Lemma gather_rows_is_ok self indices :
  (∀ j, j ∈ indices → ∃ row, chunk_row self j = Ok row) →
  ∃ rows, gather_rows self indices = Ok rows.
Proof.
  induction indices as [|i rest IH]; intros H; [by exists []|].
  destruct (H i) as [row Er]; [set_solver|].
  destruct IH as [rows Eg]; [intros j Hj; apply H; set_solver|].
  exists (row :: rows). simpl. unfold mbind, result_bind.
  by rewrite Er, Eg.
Qed.

Lemma get_slice_unfold self start stop :
  get_slice self start stop
  = if decide (0 <= start <= stop ∧ stop <= _length self)
    then gather_rows self (seqZ start (stop - start))
    else Raise IndexError.
Proof.
  unfold get_slice, __getitem__, fix_slicing, _gather, mbind, result_bind.
  destruct (start <? 0) eqn:E1; [apply Z.ltb_lt in E1|apply Z.ltb_ge in E1];
    simpl.
  { destruct (decide _); [lia|done]. }
  destruct (stop <? 0) eqn:E2; [apply Z.ltb_lt in E2|apply Z.ltb_ge in E2];
    simpl.
  { destruct (decide _); [lia|done]. }
  destruct (stop <? start) eqn:E3;
    [apply Z.ltb_lt in E3|apply Z.ltb_ge in E3]; simpl.
  { destruct (decide _); [lia|done]. }
  destruct (_length self <? stop) eqn:E4;
    [apply Z.ltb_lt in E4|apply Z.ltb_ge in E4].
  { destruct (decide _); [lia|done]. }
  destruct (decide _); [|lia].
  by destruct (gather_rows self _).
Qed.

(** A slice inside the array is read, row by row. *)
Lemma get_slice_spec self start stop :
  wf self → 0 <= start <= stop → stop <= _length self →
  ∃ rows,
    get_slice self start stop = Ok rows
    ∧ Z.of_nat (List.length rows) = stop - start
    ∧ ∀ k, (k < List.length rows)%nat →
           Ok <$> rows !! k = Some (get self (start + Z.of_nat k)).
Proof.
  intros Hwf Hs He. rewrite get_slice_unfold.
  destruct (decide _); [|lia].
  destruct (gather_rows_is_ok self (seqZ start (stop - start)))
    as [rows Eg].
  { intros j Hj. apply elem_of_seqZ in Hj.
    apply chunk_row_is_ok; [done|]. destruct Hwf. lia. }
  exists rows. split; [done|].
  destruct (gather_rows_lookup _ _ _ Eg) as [Hl Hk].
  rewrite length_seqZ in Hl. split; [lia|].
  intros k Hlt.
  destruct (Hk k (start + Z.of_nat k)) as (row & Hrow & Hc).
  { apply lookup_seqZ. lia. }
  rewrite Hrow. simpl. rewrite get_unfold.
  destruct (decide _); [|lia]. by rewrite Hc.
Qed.

Lemma get_slice_out_of_range self start stop :
  _length self < stop → get_slice self start stop = Raise IndexError.
Proof.
  intros H. rewrite get_slice_unfold. destruct (decide _); [lia|done].
Qed.

(** Two arrays that agree on a range give the same slice of it. *)
Lemma get_slice_ext a b start stop :
  _length a <= _length b → stop <= _length a →
  (∀ j, start <= j < stop → get a j = get b j) →
  get_slice a start stop = get_slice b start stop.
Proof.
  intros Hl Hstop H. rewrite !get_slice_unfold.
  destruct (decide _) as [Ha|Ha]; destruct (decide _) as [Hb|Hb];
    try lia; [|done].
  apply gather_rows_ext. intros j Hj. apply elem_of_seqZ in Hj.
  specialize (H j). rewrite !get_unfold in H.
  destruct (decide _) in H; [|lia]. destruct (decide _) in H; [|lia].
  apply H. lia.
Qed.

Lemma set_cell_spec self i col x :
  wf self →
  match set_cell self i col x with
  | Ok self' =>
      wf self'
      ∧ _length self' = _length self
      ∧ _chunk_size self' = _chunk_size self
      ∧ _width self' = _width self
      ∧ _dtype self' = _dtype self
      ∧ 0 <= i < _length self
      ∧ (∀ j, j ≠ i → get self' j = get self j)
  | Raise _ => True
  end.
Proof.
  intros Hwf. unfold set_cell, mbind, result_bind.
  destruct (get self i) as [row|] eqn:Eg; [|done].
  destruct (decide _); [|done].
  destruct (astype (_dtype self) x) as [x'|]; [|done].
  pose proof (get_bounds _ _ _ Eg) as Hi.
  destruct (set_chunk_row_spec self i (<[Z.to_nat col:=x']> row) Hwf Hi)
    as (s2 & E2 & Hwf2 & L2 & C2 & W2 & D2 & R2 & O2).
  { rewrite length_insert. apply (chunk_row_width self i); [done|].
    rewrite get_unfold in Eg. by destruct (decide _). }
  rewrite E2. split_and!; try done; try lia.
  intros j Hne. rewrite !get_unfold, L2.
  destruct (decide _); [|done]. apply O2; lia.
Qed.

End GrowingArray.

Arguments t : clear implicits.
Arguments value : clear implicits.
Arguments Build {D A} _ _ _ _ _.

End GrowingArray.

(** ** Effects

    Objects are told apart by an identity; what a method emits while it runs
    is recorded in order. *)

Definition oid := nat.

Inductive event :=
  | on_refresh_linked_sources
  | on_refresh_indicators.

Inductive warning :=
  | InterpolationWarning
  | SmallChunkSize.

Inductive effect :=
  | Warn (w : warning)
  | Register (ev : event) (sender receiver : oid)
  | Trigger (ev : event) (sender : oid) (start stop : Z).

(** A method of an object of type [S]: it leaves an object behind (also
    when it raises), emits effects and returns or raises. *)
Definition M (S A : Type) : Type := S → S * list effect * result A.

Global Instance M_ret {S} : MRet (M S) := λ A a s, (s, [], Ok a).

Global Instance M_bind {S} : MBind (M S) := λ A B k m s,
  match m s with
  | (s', effs, Ok a) =>
      match k a s' with
      | (s'', effs', r) => (s'', effs ++ effs', r)
      end
  | (s', effs, Raise e) => (s', effs, Raise e)
  end.

Definition gets {S A} (f : S → A) : M S A := λ s, (s, [], Ok (f s)).
Definition emit {S} (e : effect) : M S unit := λ s, (s, [e], Ok ()).
Definition raise {S A} (e : exn) : M S A := λ s, (s, [], Raise e).

(** An operation on a part of the object that either returns the new part
    or raises having changed nothing. *)
Definition update {S P} (proj : S → P) (inj : P → S → S)
    (op : P → result P) : M S unit := λ s,
  match op (proj s) with
  | Ok p => (inj p s, [], Ok ())
  | Raise e => (s, [], Raise e)
  end.

(** An assignment to a part of the object: the part is left as the
    assignment left it, also when it raises. *)
Definition assign {S P} (proj : S → P) (inj : P → S → S)
    (op : P → P * result unit) : M S unit := λ s,
  (inj (op (proj s)).1 s, [], (op (proj s)).2).

Definition read {S A} (op : S → result A) : M S A := λ s,
  match op s with
  | Ok a => (s, [], Ok a)
  | Raise e => (s, [], Raise e)
  end.

(** ** Prices and candles (pricing.py) *)

Module Candle.

Record t := Build { start : Z; end_ : Z; min : Z; max : Z }.

End Candle.

(** What a cell of a source or digest array, an initial value or the argument
    of [Candle.merge] can be: a Python [int], a numpy [uint64] scalar (what
    an array of StandardizedPrice holds and hands out), a candle, or [None]
    (the fill of a Candle-typed array). *)
Inductive datum :=
  | Int (p : Z)
  | UInt64 (p : Z)
  | CandleV (c : Candle.t)
  | NoneV.

Module Pricing.
Import Candle.

Definition merge (self : Candle.t) (price : datum) : result Candle.t :=
  match price with
  | Int price =>
      Ok (Build (start self) price
                (Z.min (min self) price) (Z.max (max self) price))
  | CandleV price =>
      Ok (Build (Z.min (start self) (start price))
                (Z.max (start self) (start price))
                (Z.min (min self) (min price))
                (Z.max (max self) (max price)))
  | UInt64 _ | NoneV => Raise TypeError
  end.

(** What [Candle.merge] does with a Python [int] and with a candle. Merging
    a candle with a Python [int] [p] gives
    [(self.start, p, min(self.min, p), max(self.max, p))]; merging it with
    a candle [c] gives [(min(self.start, c.start), max(self.start, c.start),
    min(self.min, c.min), max(self.max, c.max))]: the [end] of the result
    is the larger of the two [start] fields. *)
Lemma merge_spec (self : Candle.t) :
  (∀ p, ∃ r, merge self (Int p) = Ok r
             ∧ start r = start self
             ∧ end_ r = p
             ∧ min r = Z.min (min self) p
             ∧ max r = Z.max (max self) p)
  ∧ (∀ c, ∃ r, merge self (CandleV c) = Ok r
               ∧ start r = Z.min (start self) (start c)
               ∧ end_ r = Z.max (start self) (start c)
               ∧ min r = Z.min (min self) (min c)
               ∧ max r = Z.max (max self) (max c)).
Proof.
  split; intros x; eexists; (split; [reflexivity|]); simpl; done.
Qed.

(** The candles the spec gives for a merge with an integer [p] and for a
    merge with a candle [c]. *)
Definition merged_with_integer (self : Candle.t) (p : Z) : Candle.t :=
  Build (start self) p (Z.min (min self) p) (Z.max (max self) p).

Definition merged_with_candle (self c : Candle.t) : Candle.t :=
  Build (Z.min (start self) (start c)) (Z.max (start self) (start c))
        (Z.min (min self) (min c)) (Z.max (max self) (max c)).

(** C9, where the code departs from it. The integers of this program are
    [uint64]: [StandardizedPrice] is numpy's [uint64], the cells of a price
    array are [uint64] and [_make_candle] hands them to [merge] as they
    are. [Candle.merge] tests [isinstance(price, int)], which holds of a
    Python [int] only: for every candle and every [p], merging the
    [uint64] [p] raises TypeError, where the claim gives
    [(self.start, p, min(self.min, p), max(self.max, p))]. A Python [int]
    is merged to that candle, and a candle [c] to
    [(min(self.start, c.start), max(self.start, c.start),
    min(self.min, c.min), max(self.max, c.max))], as the claim says. *)
Theorem merge_refuses_uint64 :
  ∀ (self : Candle.t) (p : Z),
    merge self (UInt64 p) = Raise TypeError
    ∧ merge self (Int p) = Ok (merged_with_integer self p)
    ∧ ∀ c, merge self (CandleV c) = Ok (merged_with_candle self c).
Proof. done. Qed.

End Pricing.

(** What holds of the outcome of running [m] on [s]. *)
Definition post {S A} (m : M S A) (s : S)
    (Q : S → list effect → result A → Prop) : Prop :=
  match m s with
  | (s', effs, r) => Q s' effs r
  end.

Lemma post_bind {S A B} (m : M S A) (k : A → M S B) s Q :
  post m s (λ s1 effs1 r1,
    match r1 with
    | Ok a => post (k a) s1 (λ s2 effs2 r2, Q s2 (effs1 ++ effs2) r2)
    | Raise e => Q s1 effs1 (Raise e)
    end) →
  post (m ≫= k) s Q.
Proof.
  unfold post, mbind, M_bind.
  destruct (m s) as [[s1 effs1] [a|e]]; [|done].
  by destruct (k a s1) as [[s2 effs2] r2].
Qed.

Lemma post_mono {S A} (m : M S A) s (Q Q' : S → list effect → result A → Prop) :
  post m s Q → (∀ s' effs r, Q s' effs r → Q' s' effs r) → post m s Q'.
Proof. unfold post. destruct (m s) as [[s' effs] r]. auto. Qed.

Lemma post_gets {S A} (f : S → A) s Q : Q s [] (Ok (f s)) → post (gets f) s Q.
Proof. done. Qed.

Lemma post_ret {S A} (a : A) (s : S) Q : Q s [] (Ok a) → post (mret a) s Q.
Proof. done. Qed.

Lemma post_emit {S} (e : effect) (s : S) Q : Q s [e] (Ok ()) → post (emit e) s Q.
Proof. done. Qed.

Lemma post_raise {S A} (e : exn) (s : S) (Q : S → list effect → result A → Prop) :
  Q s [] (Raise e) → post (raise e) s Q.
Proof. done. Qed.

Lemma post_read {S A} (op : S → result A) (s : S) Q :
  (∀ r, Q s [] r) → post (read op) s Q.
Proof. intros H. unfold post, read. destruct (op s); apply H. Qed.

(** ** Floats

    Floating-point arithmetic is modelled exactly: a float is NaN or a
    rational kept in lowest terms. Rounding of the IEEE operations is not
    represented. *)

Inductive fval :=
  | NaN
  | Fin (q : Q).

(** numpy's [float64], the dtype of the array of an indicator, which is
    filled with [nan]. *)
Inductive float_dtype := float64.

Global Instance float64_dtype : Dtype float_dtype fval := {|
  zero := λ _, NaN;
  astype := λ _ x, Ok x
|}.

Definition float (z : Z) : Q := inject_Z z.

(** [int(x)]: truncation towards zero. *)
Definition int (x : Q) : Z :=
  if Qle_bool 0 x then Qfloor x else Qceiling x.

(** [for x in xs: body(x)], stopping at the first exception. *)
Fixpoint for_each {S X} (xs : list X) (body : X → M S unit) : M S unit :=
  match xs with
  | [] => mret ()
  | x :: rest => body x ;; for_each rest body
  end.

(** [range(start, stop)] *)
Definition range (start stop : Z) : list Z := seqZ start (stop - start).

Lemma for_each_preserves {S X} (R : S → S → Prop) (xs : list X)
    (body : X → M S unit) :
  (∀ s, R s s) → (∀ a b c, R a b → R b c → R a c) →
  (∀ x s, x ∈ xs → R s (body x s).1.1 ∧ (body x s).1.2 = []) →
  ∀ s, R s (for_each xs body s).1.1 ∧ (for_each xs body s).1.2 = [].
Proof.
  intros Hrefl Htrans. induction xs as [|x rest IH]; intros Hbody s.
  - simpl. split; [apply Hrefl|done].
  - simpl. unfold mbind, M_bind.
    destruct (Hbody x s) as [HR He]; [by left|].
    destruct (body x s) as [[s1 effs1] [[]|e]]; simpl in *; [|done].
    destruct (IH (λ y t Hy, Hbody y t ltac:(by right)) s1) as [HR' He'].
    destruct (for_each rest body s1) as [[s2 effs2] r2]; simpl in *.
    subst. split; [by eapply Htrans|done].
Qed.

(** A loop over [range(lo, hi)] with an invariant that follows the index;
    [F] is what holds of the object when the loop is left by an exception. *)
Lemma for_each_range {S} (J : Z → S → Prop) (F : S → Prop)
    (body : Z → M S unit) (hi : Z) (n : nat) :
  ∀ lo s,
    Z.to_nat (hi - lo) = n →
    J lo s →
    (∀ k s, lo <= k < hi → J k s →
       post (body k) s (λ s' effs r,
         effs = [] ∧ match r with
                     | Ok _ => J (k + 1) s'
                     | Raise _ => F s'
                     end)) →
    post (for_each (range lo hi) body) s (λ s' effs r,
      effs = [] ∧ match r with
                  | Ok _ => J (Z.max lo hi) s'
                  | Raise _ => F s'
                  end).
Proof.
  induction n as [|n IH]; intros lo s Hn HJ Hbody; unfold range.
  - replace (seqZ lo (hi - lo)) with (@nil Z)
      by (unfold seqZ; by rewrite Hn).
    apply post_ret. split; [done|].
    by replace (Z.max lo hi) with lo by lia.
  - rewrite seqZ_cons by lia. simpl. apply post_bind.
    eapply post_mono; [apply Hbody; [lia|done]|].
    intros s1 effs1 [[]|e] [-> HJ1]; [|done].
    replace (Z.succ lo) with (lo + 1) by lia.
    replace (Z.pred (hi - lo)) with (hi - (lo + 1)) by lia.
    eapply post_mono.
    + apply (IH (lo + 1) s1); [lia|done|].
      intros k s' Hk. apply Hbody. lia.
    + intros s2 effs2 r2 [-> Hr]. split; [done|].
      by replace (Z.max lo hi) with (Z.max (lo + 1) hi) by lia.
Qed.

(** ** Sources (mistra/core/sources.py) *)

Module Sources.

(** [pricing.StandardizedPrice] and [pricing.Candle] as array dtypes. *)
Inductive dtype :=
  | StandardizedPrice
  | Candle.

(** Modelled from the spec: [Timelapse] is not part of the tree. It wraps a
    growing array created from [(dtype, fill_value, interval, chunk_size,
    width)]; its length and its items are those of the array. The fill
    value is what [Source.__init__] passes: [None] for candles, [0]
    otherwise. *)
Definition fill_value (dt : dtype) : datum :=
  match dt with
  | Candle => NoneV
  | StandardizedPrice => UInt64 0
  end.

(** What an array of the dtype stores for a value. StandardizedPrice is
    [uint64]: integers in range are stored as [uint64] scalars, anything
    else is refused. Candle is not a numeric type, so the array holds
    objects as they are. *)
Definition store_as (dt : dtype) (d : datum) : result datum :=
  match dt with
  | Candle => Ok d
  | StandardizedPrice =>
      match d with
      | Int p | UInt64 p =>
          if (0 <=? p) && (p <? 2 ^ 64) then Ok (UInt64 p)
          else Raise OverflowError
      | _ => Raise TypeError
      end
  end.

Global Instance datum_dtype : Dtype dtype datum := {|
  zero := fill_value;
  astype := store_as
|}.

Record t := Build {
  self_id : oid;
  _data : GrowingArray.t dtype datum;
  _initial : datum
}.

Definition set_data (data : GrowingArray.t dtype datum) (self : t) : t :=
  Build (self_id self) data (_initial self).

Definition dtype_of (self : t) : dtype := GrowingArray._dtype (_data self).

Definition __len__ (self : t) : Z := GrowingArray.__len__ (_data self).

Definition __getitem__ (self : t) (item : GrowingArray.key)
  : result (GrowingArray.value datum) :=
  GrowingArray.__getitem__ (_data self) item.

(** The interval and the time stamp play no part in what follows and are
    left out. *)
Definition __init__ (id : oid) (dt : dtype) (initial : datum) : result t :=
  match dt, initial with
  | StandardizedPrice, (UInt64 _ | CandleV _) => Raise TypeError
  | Candle, (Int _ | UInt64 _) => Raise TypeError
  | _, _ =>
      data ← GrowingArray.__init__ dt 3600 1;
      Ok (Build id data initial)
  end.

(** What [push] accepts: a scalar, or an [ndarray] of shape [(rows, 1)]. *)
Inductive push_data :=
  | Scalar (d : datum)
  | NdArray (m : list (list datum)).

(** [int(delta * (index + 1) + previous_value)] with
    [delta = float(next_value - previous_value) / distance], in exact
    arithmetic: the rounding of the doubles of the code is not
    represented, and the values computed below are those of operations
    that are exact in doubles. *)
Definition interpolated (previous next distance index : Z) : Z :=
  let delta := (float (next - previous) / float distance)%Q in
  int (delta * float (index + 1) + float previous)%Q.

Definition _interpolate (previous_value : datum) (start end_ : Z)
    (next_value : datum) : M t unit :=
  let distance := end_ - start + 1 in
  match previous_value with
  | Int previous =>
      match next_value with
      | Int next | UInt64 next =>
          for_each (range 0 (distance - 1)) (λ index,
            update _data set_data (λ data,
              GrowingArray.set_cell data (start + index) 0
                (Int (interpolated previous next distance index))))
      | _ => raise TypeError
      end
  | CandleV previous =>
      match next_value with
      | CandleV next =>
          for_each (range 0 (distance - 1)) (λ index,
            update _data set_data (λ data,
              GrowingArray.set_cell data (start + index) 0
                (CandleV (Candle.Build
                   (interpolated (Candle.start previous) (Candle.start next)
                                 distance index)
                   (interpolated (Candle.end_ previous) (Candle.end_ next)
                                 distance index)
                   (interpolated (Candle.min previous) (Candle.min next)
                                 distance index)
                   (interpolated (Candle.max previous) (Candle.max next)
                                 distance index)))))
      | _ => raise AttributeError
      end
  | UInt64 _ | NoneV => mret ()
  end.

Definition _check_input_matching_types (data : push_data) : M t unit :=
  dt ← gets dtype_of;
  match data with
  | Scalar (CandleV _) =>
      match dt with
      | Candle => mret ()
      | _ => raise TypeError
      end
  | Scalar (Int _) | Scalar (UInt64 _) =>
      match dt with
      | StandardizedPrice => mret ()
      | _ => raise TypeError
      end
  | Scalar NoneV => raise TypeError
  | NdArray _ => mret ()
  end.

Definition _put_and_interpolate (push_index : Z) (push_data : push_data)
  : M t unit :=
  length ← gets __len__;
  match push_data with
  | NdArray m =>
      assign _data set_data (λ data,
        GrowingArray.set_slice data push_index
          (push_index + Z.of_nat (List.length m)) m)
  | Scalar d =>
      assign _data set_data (λ data,
        GrowingArray.set data push_index [d])
  end ;;
  left_side ←
    (if length =? 0 then gets _initial
     else read (λ self, GrowingArray.get_cell (_data self) length 0));
  let needs_interpolation := length <? push_index - 1 in
  if needs_interpolation then
    emit (Warn InterpolationWarning) ;;
    match length =? 0, left_side with
    | true, NoneV => raise MissingInitial
    | _, _ =>
        right_side ←
          match push_data with
          | NdArray _ =>
              read (λ self, GrowingArray.get_cell (_data self) push_index 0)
          | Scalar d => mret d
          end;
        _interpolate left_side length push_index right_side
    end
  else mret ().

(** An index given as a date is first turned into a position by
    [index_for]; [index] is that position. *)
Definition push (data : push_data) (index : option Z) : M t unit :=
  index ← match index with
          | None => gets __len__
          | Some index => mret index
          end;
  _check_input_matching_types data ;;
  _put_and_interpolate index data ;;
  let end_ := index + match data with
                      | NdArray m => Z.of_nat (List.length m)
                      | Scalar _ => 1
                      end in
  self ← gets self_id;
  emit (Trigger on_refresh_linked_sources self index end_) ;;
  emit (Trigger on_refresh_indicators self index end_).

(** Reading row [i] of a source of width 1. *)
Definition row (self : t) (i : Z) : result (list datum) :=
  GrowingArray.get (_data self) i.

Definition rows (self : t) (start stop : Z) : result (list (list datum)) :=
  GrowingArray.get_slice (_data self) start stop.


(** *** Well-formed sources and the frame of a push *)

Definition wf (self : t) : Prop :=
  GrowingArray.wf (_data self) ∧ GrowingArray._width (_data self) = 1.

Definition data_rows (data : push_data) : list (list datum) :=
  match data with
  | Scalar d => [[d]]
  | NdArray m => m
  end.

(** The number of rows a push writes. *)
Definition count (data : push_data) : Z :=
  Z.of_nat (List.length (data_rows data)).

Definition fill_row (self : t) : list datum :=
  [fill_value (dtype_of self)].

(** The rows as the array stores them. *)
Definition stored (self : t) (data : push_data)
  : result (list (list datum)) :=
  traverse (traverse (store_as (dtype_of self))) (data_rows data).

(** Rows [index, index + len(rows)) of the source are [rows]. *)
Definition holds (self : t) (index : Z) (rows : list (list datum)) : Prop :=
  ∀ k r, rows !! k = Some r → row self (index + Z.of_nat k) = Ok r.

(** [b] is [a] with some rows of [lo, hi) rewritten. *)
Definition same_outside (lo hi : Z) (a b : t) : Prop :=
  wf a →
  wf b
  ∧ self_id b = self_id a
  ∧ _initial b = _initial a
  ∧ GrowingArray._dtype (_data b) = GrowingArray._dtype (_data a)
  ∧ __len__ b = __len__ a
  ∧ ∀ j, ¬ (lo <= j < hi) → row b j = row a j.

Lemma same_outside_refl lo hi a : same_outside lo hi a a.
Proof. intros Hwf. by split_and!. Qed.

Lemma same_outside_trans lo hi a b c :
  same_outside lo hi a b → same_outside lo hi b c → same_outside lo hi a c.
Proof.
  intros Hab Hbc Hwf.
  destruct (Hab Hwf) as (Hwfb & ? & ? & ? & ? & Hr).
  destruct (Hbc Hwfb) as (Hwfc & ? & ? & ? & ? & Hr').
  split_and!; try congruence.
  intros j Hj. rewrite Hr' by done. by apply Hr.
Qed.

Lemma set_cell_same_outside lo hi i x self :
  lo <= i < hi →
  let step := update _data set_data
                (λ data, GrowingArray.set_cell data i 0 x) in
  same_outside lo hi self (step self).1.1 ∧ (step self).1.2 = [].
Proof.
  intros Hi. simpl. unfold update.
  destruct (GrowingArray.set_cell (_data self) i 0 x) as [d|e] eqn:E;
    simpl; [|split; [apply same_outside_refl|done]].
  split; [|done]. intros [Hwf Hw].
  pose proof (GrowingArray.set_cell_spec (_data self) i 0 x Hwf) as H.
  rewrite E in H. destruct H as (Hwf' & L & C & W & D & Hb & Ho).
  unfold wf, __len__, row, GrowingArray.__len__. simpl.
  split_and!; try done; try congruence.
  intros j Hj. apply Ho. lia.
Qed.

Lemma _interpolate_frame previous_value start end_ next_value self :
  let out := _interpolate previous_value start end_ next_value self in
  same_outside start end_ self out.1.1 ∧ out.1.2 = [].
Proof.
  simpl. unfold _interpolate.
  destruct previous_value as [previous|previous|previous|];
    try destruct next_value as [next|next|next|];
    try (split; [apply same_outside_refl|done]);
    (apply (for_each_preserves (same_outside start end_));
     [apply same_outside_refl
     |apply same_outside_trans
     |intros index s Hin; apply elem_of_seqZ in Hin;
      apply set_cell_same_outside; lia]).
Qed.

(** The insertion that opens [_put_and_interpolate]. *)
Definition insertion (push_index : Z) (push_data : push_data) : M t unit :=
  match push_data with
  | NdArray m =>
      assign _data set_data (λ data,
        GrowingArray.set_slice data push_index
          (push_index + Z.of_nat (List.length m)) m)
  | Scalar d =>
      assign _data set_data (λ data,
        GrowingArray.set data push_index [d])
  end.

Lemma insertion_spec push_index push_data self :
  wf self →
  match insertion push_index push_data self with
  | (self', effs, Ok _) =>
      effs = []
      ∧ 0 <= push_index
      ∧ wf self'
      ∧ self_id self' = self_id self
      ∧ _initial self' = _initial self
      ∧ GrowingArray._dtype (_data self') = GrowingArray._dtype (_data self)
      ∧ __len__ self' = Z.max (__len__ self) (push_index + count push_data)
      ∧ (∃ rows, stored self push_data = Ok rows
                 ∧ holds self' push_index rows)
      ∧ (∀ j, 0 <= j < __len__ self →
              ¬ (push_index <= j < push_index + count push_data) →
              row self' j = row self j)
      ∧ (∀ j, __len__ self <= j < push_index →
              row self' j = Ok (fill_row self))
  | (self', effs, Raise _) =>
      effs = []
      ∧ wf self'
      ∧ self_id self' = self_id self
      ∧ _initial self' = _initial self
      ∧ GrowingArray._dtype (_data self') = GrowingArray._dtype (_data self)
      ∧ __len__ self <= __len__ self'
        <= Z.max (__len__ self) (push_index + count push_data)
      ∧ (∀ j, 0 <= j < __len__ self → row self' j = row self j)
  end.
Proof.
  intros [Hwf Hw]. unfold insertion, assign.
  assert (Hz : GrowingArray.zero_row (_data self) = fill_row self).
  { unfold GrowingArray.zero_row, fill_row. by rewrite Hw. }
  assert (Hraises : ∀ item v a e stop,
    GrowingArray.__setitem__ (_data self) item v = (a, Raise e) →
    (∀ i, item = GrowingArray.Index i → i + 1 = stop) →
    (∀ start stop', item = GrowingArray.Slice start stop' → stop' = stop) →
    wf (set_data a self)
    ∧ GrowingArray._dtype a = GrowingArray._dtype (_data self)
    ∧ GrowingArray._length (_data self) <= GrowingArray._length a
      <= Z.max (GrowingArray._length (_data self)) stop
    ∧ (∀ j, 0 <= j < GrowingArray._length (_data self) →
            GrowingArray.get a j = GrowingArray.get (_data self) j)).
  { intros item v a e stop E Hindex Hslice.
    destruct (GrowingArray.__setitem___raises _ _ _ _ _ Hwf E)
      as (stop0 & Hi0 & Hs0 & Hwf' & W & D & L & O).
    assert (stop0 = stop) as ->.
    { destruct item as [i|a0 b0].
      - rewrite (Hi0 i eq_refl). by apply Hindex.
      - rewrite (Hs0 a0 b0 eq_refl). by eapply Hslice. }
    unfold wf. simpl. split_and!; try done; try lia; congruence. }
  destruct push_data as [d|m].
  - destruct (GrowingArray.set (_data self) push_index [d])
      as [a [[]|e]] eqn:E; simpl.
    2:{ destruct (Hraises _ _ _ _ (push_index + 1) E) as (? & ? & ? & ?);
          [by intros i [= ->]|done|].
        unfold __len__, row, count, GrowingArray.__len__. simpl.
        split_and!; try done; lia. }
    destruct (GrowingArray.set_inv _ _ _ _ E) as (Hi & Hr & st & Hst).
    destruct (GrowingArray.set_spec (_data self) push_index [d] st
                Hwf Hi Hr Hst)
      as (a' & E' & Hwf' & L & C & W & D & R & O & N).
    rewrite E in E'. injection E' as <-.
    unfold wf, __len__, row, count, GrowingArray.__len__. simpl.
    split_and!; try done; try congruence.
    + exists [st]. split.
      * unfold stored, dtype_of. simpl. simpl in Hst.
        unfold mbind, result_bind in *.
        destruct (store_as _ d); [|done]. by injection Hst as <-.
      * intros [|k] r Hk; [|done]. injection Hk as <-. unfold row.
        by replace (push_index + Z.of_nat 0) with push_index by lia.
    + intros j Hj Hout. apply O; [done|lia].
    + intros j Hj. rewrite <- Hz. by apply N.
  - destruct (GrowingArray.set_slice _ _ _ _) as [a [[]|e]] eqn:E; simpl.
    2:{ destruct (Hraises _ _ _ _ (push_index + Z.of_nat (List.length m)) E)
          as (? & ? & ? & ?); [done|by intros ? ? [= _ ->]|].
        unfold __len__, row, count, GrowingArray.__len__. simpl.
        split_and!; try done; lia. }
    destruct (GrowingArray.set_slice_inv _ _ _ _ _ E)
      as (Hi & Hl & Hr & st & Hst).
    destruct (GrowingArray.set_slice_spec (_data self) push_index
                (push_index + Z.of_nat (List.length m)) m st
                Hwf Hi Hl Hr Hst)
      as (a' & E' & Hwf' & L & C & W & D & R & O & N).
    rewrite E in E'. injection E' as <-.
    unfold wf, __len__, row, count, GrowingArray.__len__. simpl.
    split_and!; try done; try congruence; try lia.
    + exists st. split; [done|]. exact R.
    + intros j Hj. rewrite <- Hz. by apply N.
Qed.

(** Rows of one cell each: what an array of width 1 accepts. *)
Definition well_shaped (data : push_data) : Prop :=
  Forall (λ r, List.length r = 1%nat) (data_rows data).

Lemma insertion_ok push_index push_data self rows :
  wf self → 0 <= push_index → well_shaped push_data →
  stored self push_data = Ok rows →
  ∃ self', insertion push_index push_data self = (self', [], Ok ()).
Proof.
  intros [Hwf Hw] Hi Hshape Hst. unfold insertion, assign.
  unfold stored, dtype_of in Hst.
  destruct push_data as [d|m].
  - simpl in Hst. unfold mbind, result_bind in Hst.
    destruct (store_as _ d) as [d'|] eqn:Ed; [|done].
    destruct (GrowingArray.set_spec (_data self) push_index [d] [d'] Hwf Hi)
      as (a & E & _); [by rewrite Hw| |].
    { simpl. unfold mbind, result_bind. by rewrite Ed. }
    rewrite E. eauto.
  - destruct (GrowingArray.set_slice_spec (_data self) push_index
                (push_index + Z.of_nat (List.length m)) m rows Hwf)
      as (a & E & _); [lia|lia| |exact Hst|].
    + unfold well_shaped in Hshape. simpl in Hshape.
      eapply Forall_impl; [exact Hshape|]. intros r Hr. simpl in Hr.
      rewrite Hw. lia.
    + rewrite E. eauto.
Qed.

(** What [_put_and_interpolate] may touch, whatever its outcome: the rows
    it is given, and rows past the old length. *)
Lemma _put_and_interpolate_spec push_index push_data self :
  wf self →
  post (_put_and_interpolate push_index push_data) self
    (λ self' effs r,
      wf self'
      ∧ self_id self' = self_id self
      ∧ _initial self' = _initial self
      ∧ GrowingArray._dtype (_data self') = GrowingArray._dtype (_data self)
      ∧ __len__ self <= __len__ self'
      ∧ __len__ self' <= Z.max (__len__ self) (push_index + count push_data)
      ∧ (∀ j, 0 <= j < __len__ self →
              ¬ (push_index <= j < push_index + count push_data) →
              row self' j = row self j)
      ∧ (effs = []
         ∨ effs = [Warn InterpolationWarning]
           ∧ __len__ self < push_index - 1)
      ∧ (r = Ok () →
         0 <= push_index
         ∧ __len__ self'
           = Z.max (__len__ self) (push_index + count push_data)
         ∧ (__len__ self = 0 ∨ __len__ self < __len__ self')
         ∧ ∃ rows, stored self push_data = Ok rows
                   ∧ holds self' push_index rows)
      ∧ (0 <= push_index → well_shaped push_data →
         ∀ rows, stored self push_data = Ok rows →
                 holds self' push_index rows)).
Proof.
  intros Hwf.
  assert (Hl0 : 0 <= __len__ self).
  { destruct Hwf as [[]]. unfold __len__, GrowingArray.__len__. lia. }
  match goal with |- post _ _ ?Q => set (P := Q) end.
  unfold _put_and_interpolate.
  apply post_bind, post_gets. apply post_bind.
  change (match push_data with
          | Scalar d => assign _data set_data
              (λ data, GrowingArray.set data push_index [d])
          | NdArray m => assign _data set_data
              (λ data, GrowingArray.set_slice data push_index
                 (push_index + Z.of_nat (List.length m)) m)
          end) with (insertion push_index push_data).
  pose proof (insertion_spec push_index push_data self Hwf) as Hins.
  pose proof (λ rows, insertion_ok push_index push_data self rows Hwf)
    as Hok.
  unfold post at 1.
  destruct (insertion push_index push_data self) as [[s1 effs1] [[]|e]].
  2:{ destruct Hins as (-> & Hwf1 & I1 & N1 & D1 & L1 & O1). unfold P.
      split_and!; try done; try lia; [by intros j Hj _; apply O1|by left|].
      intros Hi Hs rows Hst. destruct (Hok rows Hi Hs Hst) as [? [=]]. }
  destruct Hins
    as (-> & Hi & Hwf1 & I1 & N1 & D1 & L1 & (rows1 & Hst1 & R1) & O1 & Z1).
  clear Hok. simpl.
  (* whatever happens next only rewrites rows of the gap *)
  assert (Hgap : ∀ s3 effs r,
    same_outside (__len__ self) push_index s1 s3 →
    effs = [] ∨ effs = [Warn InterpolationWarning]
                ∧ __len__ self < push_index - 1 →
    (r = Ok () → __len__ self = 0 ∨ __len__ self < __len__ s1) →
    P s3 effs r).
  { intros s3 effs r Hsame Heffs Hext. unfold P.
    destruct (Hsame Hwf1) as (Hwf3 & I3 & N3 & D3 & L3 & O3).
    assert (Hdata : holds s3 push_index rows1).
    { intros k r' Hk. rewrite O3 by lia. by apply R1. }
    split_and!; try congruence; try lia; try exact Heffs.
    - intros j Hj Hout. rewrite O3 by lia. by apply O1.
    - intros Hr. split_and!; [done|congruence| |eauto].
      rewrite L3. by apply Hext.
    - intros _ _ rows Hst. rewrite Hst1 in Hst. by injection Hst as <-. }
  apply post_bind.
  apply (post_mono _ _ (λ s effs r,
           s = s1 ∧ effs = []
           ∧ (is_ok r → __len__ self = 0 ∨ __len__ self < __len__ s1))).
  { destruct (__len__ self =? 0) eqn:E0.
    - apply Z.eqb_eq in E0. apply post_gets. auto.
    - unfold post, read, GrowingArray.get_cell, mbind, result_bind.
      destruct (GrowingArray.get (_data s1) (__len__ self)) as [row0|] eqn:Eg;
        [|done].
      apply GrowingArray.get_bounds in Eg.
      assert (__len__ self < __len__ s1) by apply Eg.
      destruct (decide _); [|done]. destruct (row0 !! _); auto. }
  intros ? ? [left_side|e] (-> & -> & Hext).
  2:{ apply Hgap; [apply same_outside_refl|by left|done]. }
  specialize (Hext I).
  destruct (__len__ self <? push_index - 1) eqn:Eneeds;
    [apply Z.ltb_lt in Eneeds|apply Z.ltb_ge in Eneeds].
  2:{ apply post_ret. apply Hgap; [apply same_outside_refl|by left|done]. }
  apply post_bind, post_emit.
  assert (Hrest : ∀ left_side,
    post (right_side ←
            match push_data with
            | Scalar d => mret d
            | NdArray _ =>
                read (λ self0, GrowingArray.get_cell (_data self0)
                                 push_index 0)
            end;
          _interpolate left_side (__len__ self) push_index right_side)
      s1
      (λ s2 effs2 r2, P s2 (([] ++ []) ++ [Warn InterpolationWarning]
                            ++ effs2) r2)).
  { intros l. apply post_bind.
    apply (post_mono _ _ (λ s effs r, s = s1 ∧ effs = [])).
    { destruct push_data; [done|]. by apply post_read. }
    intros ? ? [right_side|e] [-> ->].
    2:{ apply Hgap; [apply same_outside_refl|by right|done]. }
    pose proof (_interpolate_frame l (__len__ self) push_index right_side s1)
      as Hint.
    unfold post. simpl in Hint.
    destruct (_interpolate l (__len__ self) push_index right_side s1)
      as [[s3 effs3] r3].
    simpl in Hint. destruct Hint as [Hsame ->].
    apply Hgap; [done|by right|done]. }
  destruct (__len__ self =? 0), left_side; try apply Hrest.
  apply post_raise. apply Hgap; [apply same_outside_refl|by right|done].
Qed.

(** What [_check_input_matching_types] lets through. *)
Definition accepted (self : t) (data : push_data) : Prop :=
  match data with
  | Scalar (CandleV _) => dtype_of self = Candle
  | Scalar (Int _) | Scalar (UInt64 _) => dtype_of self = StandardizedPrice
  | Scalar NoneV => False
  | NdArray _ => True
  end.

Lemma _check_input_matching_types_spec data self :
  post (_check_input_matching_types data) self
    (λ self' effs r,
       self' = self ∧ effs = []
       ∧ (accepted self data → r = Ok ())
       ∧ (r = Ok () ∨ r = Raise TypeError)).
Proof.
  unfold _check_input_matching_types. apply post_bind, post_gets.
  unfold accepted.
  destruct data as [[p|p|c|]|m]; try destruct (dtype_of self);
    unfold post; simpl; split_and!; try done; auto.
Qed.

Definition index_or_end (self : t) (index : option Z) : Z :=
  match index with
  | None => __len__ self
  | Some index => index
  end.

Definition is_trigger (e : effect) : Prop :=
  match e with
  | Trigger _ _ _ _ => True
  | _ => False
  end.

(** [push]: what it may touch, what it emits and in which order. *)
Lemma push_spec data index self :
  wf self →
  let push_index := index_or_end self index in
  let end_ := push_index + count data in
  post (push data index) self
    (λ self' effs r,
      wf self'
      ∧ self_id self' = self_id self
      ∧ _initial self' = _initial self
      ∧ GrowingArray._dtype (_data self') = GrowingArray._dtype (_data self)
      ∧ __len__ self <= __len__ self'
      ∧ __len__ self' <= Z.max (__len__ self) end_
      ∧ (∀ j, 0 <= j < __len__ self → ¬ (push_index <= j < end_) →
              row self' j = row self j)
      ∧ (accepted self data → 0 <= push_index → well_shaped data →
         ∀ rows, stored self data = Ok rows → holds self' push_index rows)
      ∧ (∃ warnings,
           (warnings = []
            ∨ warnings = [Warn InterpolationWarning]
              ∧ __len__ self < push_index - 1)
           ∧ match r with
             | Ok _ =>
                 effs = warnings ++
                   [Trigger on_refresh_linked_sources (self_id self)
                      push_index end_;
                    Trigger on_refresh_indicators (self_id self)
                      push_index end_]
                 ∧ 0 <= push_index
                 ∧ __len__ self' = Z.max (__len__ self) end_
                 ∧ (__len__ self = 0 ∨ __len__ self < __len__ self')
                 ∧ ∃ rows, stored self data = Ok rows
                           ∧ holds self' push_index rows
             | Raise _ => effs = warnings
             end)).
Proof.
  intros Hwf push_index end_. unfold push.
  apply post_bind.
  apply (post_mono _ _ (λ s effs r,
           s = self ∧ effs = [] ∧ r = Ok push_index)).
  { destruct index; done. }
  intros ? ? ? (-> & -> & ->).
  apply post_bind.
  eapply post_mono; [apply _check_input_matching_types_spec|].
  intros ? ? r (-> & -> & Hacc & Hr). simpl.
  destruct r as [[]|e].
  2:{ split_and!; try done; try lia.
      - intros Ha. specialize (Hacc Ha). done.
      - exists []. split; [by left|done]. }
  apply post_bind.
  eapply post_mono; [by apply _put_and_interpolate_spec|].
  intros s1 effs1 r1 (Hwf1 & I1 & N1 & D1 & L1 & U1 & O1 & W1 & K1 & R1).
  fold push_index end_ in U1, O1, K1.
  destruct r1 as [[]|e].
  2:{ split_and!; try done.
      exists effs1. split; [|done].
      destruct W1 as [->|[-> ?]]; [by left|by right]. }
  destruct (K1 eq_refl) as (Hi & L1' & X1 & R1').
  apply post_bind, post_gets. apply post_bind, post_emit. apply post_emit.
  split_and!; try done.
  exists effs1. split.
  - destruct W1 as [->|[-> ?]]; [by left|by right].
  - rewrite I1. simpl. split_and!; try done.
    unfold end_, count. by destruct data.
Qed.

(** *** Sources to run examples on *)

(** What [__init__] builds. *)
Definition fresh (id : oid) (dt : dtype) (initial : datum) : t :=
  Build id (GrowingArray.Build [] dt 3600 1 0) initial.

Lemma __init___fresh id dt initial self :
  __init__ id dt initial = Ok self → self = fresh id dt initial.
Proof.
  unfold __init__, fresh.
  destruct dt, initial; simpl; intros [= <-]; done.
Qed.

Lemma wf_fresh id dt initial : wf (fresh id dt initial).
Proof.
  split; [|done].
  apply (GrowingArray.wf___init__ dt 3600 1). done.
Qed.

Lemma push_wf data index self : wf self → wf (push data index self).1.1.
Proof.
  intros Hwf. pose proof (push_spec data index self Hwf) as H.
  unfold post in H. destruct (push data index self) as [[s' effs] r].
  apply H.
Qed.

(** *** Pushing inside the data already written *)

(** C10. A push of [k] rows with [1 <= index] and [index + k <= len(self)]
    emits no InterpolationWarning, leaves [len(self)] as it was and leaves
    every row outside [index, index + k) with the value it had; the rows
    of the range hold the pushed data, as the array stores it. *)
Theorem push_inside_frame data index self :
  wf self → 1 <= index → index + count data <= __len__ self →
  post (push data (Some index)) self
    (λ self' effs r,
       (Warn InterpolationWarning ∉ effs)
       ∧ __len__ self' = __len__ self
       ∧ (∀ j, ¬ (index <= j < index + count data) →
               row self' j = row self j)
       ∧ (accepted self data → well_shaped data →
          ∀ rows, stored self data = Ok rows → holds self' index rows)).
Proof.
  intros Hwf Hi Hk.
  eapply post_mono; [by apply push_spec|]. simpl.
  intros self' effs r
    (Hwf' & I & N & D & L & U & O & R & warnings & W & Heffs).
  unfold index_or_end in *.
  assert (Hcount : 0 <= count data) by (unfold count; lia).
  assert (Hlen : __len__ self' = __len__ self) by lia.
  split_and!; try done.
  - destruct W as [->|[-> ?]]; [|lia].
    destruct r; [destruct Heffs as (-> & _)|subst effs];
      rewrite ?app_nil_l; intros Hin;
      repeat (apply elem_of_cons in Hin as [[=]|Hin]);
      by apply elem_of_nil in Hin.
  - intros j Hj. destruct (decide (0 <= j < __len__ self)).
    + by apply O.
    + unfold row. rewrite !GrowingArray.get_out_of_range; try done.
      unfold __len__, GrowingArray.__len__ in Hlen. by rewrite Hlen.
  - intros Ha Hs rows Hst. apply (R Ha ltac:(lia) Hs rows Hst).
Qed.

(** With the bound check of [fix_slicing], such a push does not return:
    after the rows are written, the left side is read at [self._data[length]],
    one past the last row, and no refresh event is fired. *)
Lemma push_inside_raises data index self rows :
  wf self → 0 <= index → index + count data <= __len__ self →
  0 < __len__ self → accepted self data → well_shaped data →
  stored self data = Ok rows →
  post (push data (Some index)) self
    (λ self' effs r, r = Raise IndexError ∧ effs = []).
Proof.
  intros Hwf Hi Hk Hlen Hacc Hshape Hst. unfold push.
  apply post_bind, post_ret. apply post_bind.
  eapply post_mono; [apply _check_input_matching_types_spec|].
  intros ? ? r (-> & -> & Hr & _). rewrite (Hr Hacc). simpl.
  apply post_bind.
  unfold _put_and_interpolate.
  apply post_bind, post_gets. apply post_bind.
  change (match data with
          | Scalar d => assign _data set_data
              (λ data, GrowingArray.set data index [d])
          | NdArray m => assign _data set_data
              (λ data, GrowingArray.set_slice data index
                 (index + Z.of_nat (List.length m)) m)
          end) with (insertion index data).
  pose proof (insertion_spec index data self Hwf) as Hins.
  destruct (insertion_ok index data self rows Hwf Hi Hshape Hst) as [s1 E].
  unfold post at 1. rewrite E in *.
  destruct Hins as (_ & _ & Hwf1 & I1 & N1 & D1 & L1 & R1 & O1 & Z1).
  apply post_bind.
  destruct (__len__ self =? 0) eqn:E0; [apply Z.eqb_eq in E0; lia|].
  unfold post, read, GrowingArray.get_cell, mbind, result_bind.
  rewrite GrowingArray.get_out_of_range; [done|].
  unfold __len__, GrowingArray.__len__ in *. lia.
Qed.

(** Three rows of prices, pushed into a new source. *)
Definition three_prices : t :=
  (push (NdArray [[UInt64 100]; [UInt64 101]; [UInt64 102]]) None
        (fresh 1%nat StandardizedPrice NoneV)).1.1.

Lemma push_inside_frame_witness :
  wf three_prices
  ∧ 1 <= 1
  ∧ 1 + count (Scalar (Int 7)) <= __len__ three_prices
  ∧ post (push (Scalar (Int 7)) (Some 1)) three_prices
      (λ self' effs r,
         (Warn InterpolationWarning ∉ effs)
         ∧ __len__ self' = __len__ three_prices
         ∧ (∀ j, ¬ (1 <= j < 1 + count (Scalar (Int 7))) →
                 row self' j = row three_prices j)
         ∧ (accepted three_prices (Scalar (Int 7)) →
            well_shaped (Scalar (Int 7)) →
            ∀ rows, stored three_prices (Scalar (Int 7)) = Ok rows →
                    holds self' 1 rows)).
Proof.
  assert (Hwf : wf three_prices) by apply push_wf, wf_fresh.
  assert (Hlen : 1 + count (Scalar (Int 7)) <= __len__ three_prices)
    by (vm_compute; discriminate).
  split_and!; [exact Hwf|lia|exact Hlen|].
  apply (push_inside_frame (Scalar (Int 7)) 1 three_prices Hwf);
    [lia|exact Hlen].
Defined.

(** *** Pushing past the end with no initial value *)

(** The reading of the spec: a push that needs interpolation on an empty
    source with no initial value fails and changes nothing. *)
Definition failed_push_leaves_state_unchanged
    (self : t) (data : push_data) (index : Z) : Prop :=
  post (push data (Some index)) self
    (λ self' effs r,
       r = Raise MissingInitial
       ∧ __len__ self' = __len__ self
       ∧ (∀ j, row self' j = row self j)
       ∧ Forall (λ e, ¬ is_trigger e) effs).

(** On an empty price source with no initial value, [push([200], 4)]
    fails, but only after row 4 has been written: the length is 5. *)
Lemma failed_push_changes_state :
  ¬ failed_push_leaves_state_unchanged
      (fresh 1%nat StandardizedPrice NoneV) (NdArray [[UInt64 200]]) 4.
Proof.
  unfold failed_push_leaves_state_unchanged, post.
  set (out := push _ _ _).
  assert (E : __len__ out.1.1 = 5) by (vm_compute; reflexivity).
  destruct out as [[self' effs] r]. simpl in E.
  intros (_ & HL & _). rewrite E in HL. discriminate HL.
Qed.

(** C5, as the code has it. On a source with [len == 0] and no initial
    value, a push at an index the code interpolates for
    ([index - 1 > len], so [index >= 2]) emits the InterpolationWarning,
    fails with the MissingInitial error and fires no refresh event; the
    pushed rows have been written by then: the length is [index + k], rows
    [index, index + k) hold the data, as the array stores it, and the rows
    below read as the fill. *)
Theorem push_missing_initial self data index rows :
  wf self → __len__ self = 0 → _initial self = NoneV →
  accepted self data → well_shaped data → stored self data = Ok rows →
  2 <= index →
  post (push data (Some index)) self
    (λ self' effs r,
       r = Raise MissingInitial
       ∧ effs = [Warn InterpolationWarning]
       ∧ __len__ self' = index + count data
       ∧ holds self' index rows
       ∧ (∀ j, 0 <= j < index → row self' j = Ok (fill_row self))).
Proof.
  intros Hwf Hlen Hinit Hacc Hshape Hst Hi. unfold push.
  apply post_bind, post_ret. apply post_bind.
  eapply post_mono; [apply _check_input_matching_types_spec|].
  intros ? ? r (-> & -> & Hr & _). rewrite (Hr Hacc). simpl.
  apply post_bind.
  unfold _put_and_interpolate.
  apply post_bind, post_gets. apply post_bind.
  change (match data with
          | Scalar d => assign _data set_data
              (λ data, GrowingArray.set data index [d])
          | NdArray m => assign _data set_data
              (λ data, GrowingArray.set_slice data index
                 (index + Z.of_nat (List.length m)) m)
          end) with (insertion index data).
  pose proof (insertion_spec index data self Hwf) as Hins.
  destruct (insertion_ok index data self rows Hwf) as [s1 E];
    [lia|done|done|].
  unfold post at 1. rewrite E in *.
  destruct Hins as (_ & _ & Hwf1 & I1 & N1 & D1 & L1 & R1 & O1 & Z1).
  assert (Hcount : 0 <= count data) by (unfold count; lia).
  rewrite Hlen. simpl.
  apply post_bind, post_gets. rewrite N1, Hinit.
  destruct (0 <? index - 1) eqn:En; [|apply Z.ltb_ge in En; lia].
  apply post_bind, post_emit. apply post_raise.
  destruct R1 as (rows1 & Hst1 & R1).
  rewrite Hst in Hst1. injection Hst1 as <-.
  split_and!; try done.
  - lia.
  - intros j Hj. apply Z1. lia.
Qed.

Lemma push_missing_initial_witness :
  let self := fresh 1%nat StandardizedPrice NoneV in
  let data := NdArray [[UInt64 200]] in
  wf self ∧ __len__ self = 0 ∧ _initial self = NoneV
  ∧ accepted self data ∧ well_shaped data
  ∧ stored self data = Ok [[UInt64 200]] ∧ 2 <= 4
  ∧ post (push data (Some 4)) self
      (λ self' effs r,
         r = Raise MissingInitial
         ∧ effs = [Warn InterpolationWarning]
         ∧ __len__ self' = 4 + count data
         ∧ holds self' 4 [[UInt64 200]]
         ∧ (∀ j, 0 <= j < 4 → row self' j = Ok (fill_row self))).
Proof.
  intros self data.
  assert (Hshape : well_shaped data) by (repeat constructor).
  split_and!; [apply wf_fresh|reflexivity|reflexivity|exact I|exact Hshape
              |reflexivity|lia|].
  apply (push_missing_initial self data 4 [[UInt64 200]]);
    [apply wf_fresh|reflexivity|reflexivity|exact I|exact Hshape
    |reflexivity|lia].
Defined.

(** *** Pushing past the end with an initial value *)

(** S2 of the spec: four interpolated rows between the initial value 100
    and the pushed 200. *)
Example push_interpolation_S2 :
  let '(self', effs, r) :=
    push (NdArray [[UInt64 200]]) (Some 4)
         (fresh 1%nat StandardizedPrice (Int 100))
  in
  r = Ok ()
  ∧ effs = [Warn InterpolationWarning;
            Trigger on_refresh_linked_sources 1%nat 4 5;
            Trigger on_refresh_indicators 1%nat 4 5]
  ∧ rows self' 0 5
    = Ok [[UInt64 120]; [UInt64 140]; [UInt64 160]; [UInt64 180];
          [UInt64 200]].
Proof. vm_compute. done. Qed.

(** C4, where the code departs from it. With [index = len(self) + 1] the
    test [push_index - 1 > length] is false: [push([200], 1)] on an empty
    source with initial value 100 emits no warning and row 0 keeps the
    fill 0 instead of the interpolated 150. With rows already present the
    left boundary is read at [self._data[length]], the first row of the
    gap, not at row [len - 1], and what is read from a price array is a
    [uint64], which [_interpolate] takes for neither an [int] nor a
    candle: after [100], [push([200], 3)] warns and leaves rows 1 and 2 at
    the fill 0 instead of 133 and 166. *)
Theorem push_gap_not_interpolated :
  (let '(self', effs, r) :=
     push (NdArray [[UInt64 200]]) (Some 1)
          (fresh 1%nat StandardizedPrice (Int 100)) in
   r = Ok ()
   ∧ effs = [Trigger on_refresh_linked_sources 1%nat 1 2;
             Trigger on_refresh_indicators 1%nat 1 2]
   ∧ rows self' 0 2 = Ok [[UInt64 0]; [UInt64 200]])
  ∧ (let '(self', effs, r) :=
       (push (Scalar (Int 100)) None ;;
        push (NdArray [[UInt64 200]]) (Some 3))
         (fresh 1%nat StandardizedPrice NoneV) in
     r = Ok ()
     ∧ effs = [Trigger on_refresh_linked_sources 1%nat 0 1;
               Trigger on_refresh_indicators 1%nat 0 1;
               Warn InterpolationWarning;
               Trigger on_refresh_linked_sources 1%nat 3 4;
               Trigger on_refresh_indicators 1%nat 3 4]
     ∧ rows self' 0 4
       = Ok [[UInt64 100]; [UInt64 0]; [UInt64 0]; [UInt64 200]]).
Proof. vm_compute. done. Qed.

End Sources.



(** ** Digests (mistra/core/digests.py) *)

Definition modify {S} (f : S → S) : M S unit := λ s, (f s, [], Ok ()).

Lemma post_modify {S} (f : S → S) (s : S) Q :
  Q (f s) [] (Ok ()) → post (modify f) s Q.
Proof. done. Qed.

Module Digests.

(** The source is a separate object the digest holds a reference to; the
    methods below are given the source as it is when they run. *)
Record t := Build {
  self_id : oid;
  _data : GrowingArray.t Sources.dtype datum;
  _attached : bool;
  _relative_bin_size : Z;
  _last_read_ubound : Z
}.

Definition set_data (data : GrowingArray.t Sources.dtype datum) (self : t)
  : t :=
  Build (self_id self) data (_attached self) (_relative_bin_size self)
        (_last_read_ubound self).

Definition set_last_read_ubound (ubound : Z) (self : t) : t :=
  Build (self_id self) (_data self) (_attached self)
        (_relative_bin_size self) ubound.

Definition __len__ (self : t) : Z := GrowingArray.__len__ (_data self).

Definition row (self : t) (i : Z) : result (list datum) :=
  GrowingArray.get (_data self) i.

(** Modelled from the spec: [Interval] is not part of the tree. An interval
    is its number of seconds; it is allowed as a digest of a finer one iff it
    is larger and a multiple of it. *)
Definition allowed_as_digest (interval finer : Z) : bool :=
  (finer <? interval) && (interval mod finer =? 0).

(** The time stamps play no part in what follows; the check that the source
    starts on a multiple of the interval is left out with them. *)
Definition __init__ (id : oid) (source_interval interval : Z) : result t :=
  if negb (allowed_as_digest interval source_interval) then Raise ValueError
  else
    data ← GrowingArray.__init__ Sources.Candle 240 1;
    Ok (Build id data true (interval / source_interval) 0).

(** The loop of [_make_candle]. While [candle] is [None], an element seeds
    it if it is a [uint64] or a candle and is passed over otherwise. *)
Fixpoint make_candle_loop (candle : option Candle.t)
    (source_elements : list datum) : result (option Candle.t) :=
  match source_elements with
  | [] => Ok candle
  | source_element :: rest =>
      match candle with
      | None =>
          match source_element with
          | UInt64 p => make_candle_loop (Some (Candle.Build p p p p)) rest
          | CandleV c => make_candle_loop (Some c) rest
          | Int _ | NoneV => make_candle_loop None rest
          end
      | Some candle =>
          candle ← Pricing.merge candle source_element;
          make_candle_loop (Some candle) rest
      end
  end.

Definition _make_candle (source_elements : list datum)
  : result (option Candle.t) :=
  make_candle_loop None source_elements.

(** [matrix[:, 0]] *)
Fixpoint column0 (matrix : list (list datum)) : result (list datum) :=
  match matrix with
  | [] => Ok []
  | r :: rest =>
      match r with
      | [] => Raise IndexError
      | x :: _ => xs ← column0 rest; Ok (x :: xs)
      end
  end.

(** What is stored for a candle, or for [None]. *)
Definition cell (candle : option Candle.t) : datum :=
  match candle with
  | Some c => CandleV c
  | None => NoneV
  end.

Definition _on_refresh (source : Sources.t) (start end_ : Z) : M t unit :=
  last_read_ubound ← gets _last_read_ubound;
  relative_bin_size ← gets _relative_bin_size;
  let start := Z.min start last_read_ubound in
  let min_index := start / relative_bin_size in
  let max_index := (end_ + relative_bin_size - 1) / relative_bin_size in
  for_each (range min_index max_index) (λ digest_index,
    let source_index := digest_index * relative_bin_size in
    matrix ← read (λ _, Sources.rows source source_index
                          (source_index + relative_bin_size));
    elements ← read (λ _, column0 matrix);
    candle ← read (λ _, _make_candle elements);
    assign _data set_data (λ data,
      GrowingArray.set data digest_index [cell candle])) ;;
  modify (set_last_read_ubound (Z.max last_read_ubound end_)) ;;
  self ← gets self_id;
  emit (Trigger on_refresh_linked_sources self min_index max_index).

(** *** The fold as the spec words it

    Seed with [Candle(p, p, p, p)] if the first element is a price integer
    [p], with the first candle otherwise, and merge each remaining element
    in order. A price integer is an integer whatever holds it, an [int] or
    the [uint64] of a price array: merging one is merging the integer. *)

Definition merged (element : datum) : datum :=
  match element with
  | UInt64 p => Int p
  | _ => element
  end.

Fixpoint merge_each (candle : Candle.t) (rest : list datum)
  : result Candle.t :=
  match rest with
  | [] => Ok candle
  | element :: rest =>
      candle ← Pricing.merge candle (merged element);
      merge_each candle rest
  end.

Definition fold (elements : list datum) : result Candle.t :=
  match elements with
  | Int p :: rest | UInt64 p :: rest =>
      merge_each (Candle.Build p p p p) rest
  | CandleV c :: rest => merge_each c rest
  | _ => Raise ValueError
  end.

(** What seeds the candle in [_make_candle]. *)
Definition seeds (element : datum) : Prop :=
  match element with
  | UInt64 _ | CandleV _ => True
  | Int _ | NoneV => False
  end.

(** When [_make_candle] returns on elements the first of which seeds it, it
    returns the spec's fold. *)
Lemma make_candle_loop_merge_each rest : ∀ candle candle',
  make_candle_loop (Some candle) rest = Ok candle' →
  ∃ c, candle' = Some c ∧ merge_each candle rest = Ok c.
Proof.
  induction rest as [|element rest IH]; intros candle candle'; simpl.
  - intros [= <-]. by eexists.
  - destruct element; simpl; try done; apply IH.
Qed.

Lemma _make_candle_fold element rest candle :
  seeds element →
  _make_candle (element :: rest) = Ok candle →
  ∃ c, candle = Some c ∧ fold (element :: rest) = Ok c.
Proof.
  unfold _make_candle. destruct element; try done; simpl; intros _;
    apply make_candle_loop_merge_each.
Qed.

Lemma column0_spec matrix :
  Forall (λ r, List.length r = 1%nat) matrix →
  ∃ elements,
    column0 matrix = Ok elements
    ∧ List.length elements = List.length matrix
    ∧ ∀ k x, elements !! k = Some x ↔ matrix !! k = Some [x].
Proof.
  induction matrix as [|r rest IH]; intros Hall.
  - exists []. split_and!; try done.
  - apply Forall_cons in Hall as [Hr Hall].
    destruct (IH Hall) as (elements & E & L & K).
    destruct r as [|x [|? ?]]; try done.
    exists (x :: elements). simpl. rewrite E. simpl.
    split_and!; [done|by rewrite L|].
    intros [|k] y; simpl; [|apply K].
    split; intros [= ->]; done.
Qed.

(** *** A source and its digest *)

(** The elements of bin [i]: column 0 of the source rows
    [i * r, i * r + r). *)
Definition bin_elements (source : Sources.t) (r i : Z)
  : result (list datum) :=
  matrix ← Sources.rows source (i * r) (i * r + r);
  column0 matrix.

Lemma bin_elements_spec source r i :
  Sources.wf source → 1 <= r → 0 <= i →
  i * r + r <= Sources.__len__ source →
  ∃ elements,
    bin_elements source r i = Ok elements
    ∧ Z.of_nat (List.length elements) = r
    ∧ ∀ j x, elements !! j = Some x
             ↔ Z.of_nat j < r
               ∧ Sources.row source (i * r + Z.of_nat j) = Ok [x].
Proof.
  intros [Hwf Hw] Hr Hi Hlen. unfold bin_elements, Sources.rows.
  destruct (GrowingArray.get_slice_spec (Sources._data source)
              (i * r) (i * r + r) Hwf) as (matrix & E & L & K);
    [nia|exact Hlen|].
  rewrite E. simpl.
  assert (Hrows : ∀ k row0, matrix !! k = Some row0 →
            Sources.row source (i * r + Z.of_nat k) = Ok row0).
  { intros k row0 Hk. specialize (K k (lookup_lt_Some _ _ _ Hk)).
    rewrite Hk in K. simpl in K. unfold Sources.row. by injection K as <-. }
  destruct (column0_spec matrix) as (elements & Ec & Lc & Kc).
  { apply Forall_lookup. intros k row0 Hk.
    pose proof (GrowingArray.get_width _ _ _ Hwf (Hrows k row0 Hk)). lia. }
  exists elements. split_and!; [done|lia|].
  intros j x. rewrite Kc. split.
  - intros Hj. pose proof (lookup_lt_Some _ _ _ Hj). split; [lia|].
    by apply Hrows.
  - intros [Hj Hrow].
    destruct (lookup_lt_is_Some_2 matrix j) as [row0 Hrow0]; [lia|].
    rewrite Hrow0. f_equal. specialize (Hrows j row0 Hrow0). congruence.
Qed.

Lemma bin_elements_ext a b r i :
  Sources.__len__ a <= Sources.__len__ b →
  i * r + r <= Sources.__len__ a →
  (∀ j, i * r <= j < i * r + r → Sources.row a j = Sources.row b j) →
  bin_elements a r i = bin_elements b r i.
Proof.
  intros Hl Hstop H. unfold bin_elements, Sources.rows.
  by rewrite (GrowingArray.get_slice_ext (Sources._data a) (Sources._data b)).
Qed.

Lemma bin_elements_bound source r i elements :
  bin_elements source r i = Ok elements →
  i * r + r <= Sources.__len__ source.
Proof.
  unfold bin_elements, Sources.rows. rewrite GrowingArray.get_slice_unfold.
  destruct (decide _) as [H|]; [|done]. intros _. apply H.
Qed.

Record system := System { source : Sources.t; digest : t }.

(** Row [i] of the digest is what [_make_candle] gives for bin [i] of the
    source. *)
Definition bin_ok (s : Sources.t) (d : t) (i : Z) : Prop :=
  ∃ elements candle,
    bin_elements s (_relative_bin_size d) i = Ok elements
    ∧ _make_candle elements = Ok candle
    ∧ row d i = Ok [cell candle].

Record inv (sys : system) : Prop := Inv {
  inv_source : Sources.wf (source sys);
  inv_data : GrowingArray.wf (_data (digest sys));
  inv_width : GrowingArray._width (_data (digest sys)) = 1;
  inv_dtype : GrowingArray._dtype (_data (digest sys)) = Sources.Candle;
  inv_bin_size : 1 <= _relative_bin_size (digest sys);
  inv_ubound :
    0 <= _last_read_ubound (digest sys)
    <= __len__ (digest sys) * _relative_bin_size (digest sys);
  inv_cover :
    __len__ (digest sys) * _relative_bin_size (digest sys)
    <= Sources.__len__ (source sys);
  inv_bins :
    ∀ i, 0 <= i < __len__ (digest sys) →
         bin_ok (source sys) (digest sys) i
}.

(** What a push that returned has done to the source, as far as the digest
    is concerned: [a] and [b] are the bounds it notifies. *)
Record pushed (s s' : Sources.t) (a b : Z) : Prop := Pushed {
  pushed_wf : Sources.wf s';
  pushed_index : 0 <= a;
  pushed_len : Sources.__len__ s' = Z.max (Sources.__len__ s) b;
  pushed_frame :
    ∀ j, 0 <= j < Sources.__len__ s → ¬ (a <= j < b) →
         Sources.row s' j = Sources.row s j
}.

(** A refresh that returns after a push keeps the invariant. *)
Lemma _on_refresh_inv s s' d a b :
  inv (System s d) → pushed s s' a b →
  post (_on_refresh s' a b) d (λ d' effs r,
    r = Ok () →
    inv (System s' d')
    ∧ _relative_bin_size d' = _relative_bin_size d
    ∧ __len__ d'
      = Z.max (__len__ d)
              ((b + _relative_bin_size d - 1) / _relative_bin_size d)).
Proof.
  intros Hinv Hpushed.
  pose proof Hinv as [Hs Hd Hw Hdt Hr Hu Hc Hb].
  pose proof Hpushed as [Hs' Ha Hl Hf]. simpl in *.
  unfold _on_refresh.
  apply post_bind, post_gets. apply post_bind, post_gets.
  set (r := _relative_bin_size d) in *.
  set (u := _last_read_ubound d) in *.
  set (lo := Z.min a u / r). set (hi := (b + r - 1) / r).
  assert (Hlo : 0 <= lo ∧ lo * r <= Z.min a u).
  { unfold lo. split; [apply Z.div_pos; lia|].
    rewrite Z.mul_comm. apply Z.mul_div_le. lia. }
  assert (Hhi : b <= hi * r).
  { unfold hi. Z.div_mod_to_equations. nia. }
  assert (Hlod : lo <= __len__ d) by nia.
  set (J := λ (k : Z) (dk : t),
         GrowingArray.wf (_data dk)
         ∧ GrowingArray._width (_data dk) = 1
         ∧ GrowingArray._dtype (_data dk) = Sources.Candle
         ∧ _relative_bin_size dk = r
         ∧ _last_read_ubound dk = u
         ∧ __len__ dk = Z.max (__len__ d) k
         ∧ __len__ dk * r <= Sources.__len__ s'
         ∧ ∀ i, 0 <= i < __len__ dk → (i < k ∨ hi <= i) → bin_ok s' dk i).
  apply post_bind.
  eapply post_mono.
  { apply (for_each_range J (λ _, True) _ hi
             (Z.to_nat (hi - lo)) lo d); [done| |].
    - (* before the loop: the bins it will not visit read unchanged rows *)
      unfold J. split_and!; try done; try lia.
      intros i Hi Hcase. destruct (Hb i Hi) as (els & c & E & M & R).
      exists els, c. split_and!; try done. rewrite <- E. symmetry.
      apply bin_elements_ext; [lia|fold r; nia|].
      fold r. intros j Hj. symmetry. apply Hf; [nia|].
      destruct Hcase; nia.
    - (* one bin *)
      intros k dk Hk (Hdk & Hwk & Hdtk & Hrk & Huk & Hlk & Hck & Hbk).
      apply post_bind. unfold post at 1, read.
      destruct (Sources.rows s' (k * r) (k * r + r)) as [m|e] eqn:Em;
        [|done].
      apply post_bind. unfold post at 1, read.
      destruct (column0 m) as [els|e] eqn:Ec; [|done].
      apply post_bind. unfold post at 1, read.
      destruct (_make_candle els) as [c|e] eqn:Emk; [|done].
      assert (Ebin : bin_elements s' r k = Ok els).
      { unfold bin_elements. rewrite Em. done. }
      pose proof (bin_elements_bound _ _ _ _ Ebin) as Hbound.
      destruct (GrowingArray.set_spec (_data dk) k [cell c] [cell c] Hdk)
        as (a' & E & Hwf' & L & C & W & D & R & O & N);
        [lia|by rewrite Hwk|by rewrite Hdtk|].
      unfold post, assign. rewrite E. split; [done|].
      unfold J, __len__, GrowingArray.__len__ in *. simpl.
      split_and!; try done; try congruence; try lia.
      intros i Hi Hcase. destruct (decide (i = k)) as [->|Hne].
      + exists els, c. split_and!; try done. simpl. by rewrite Hrk.
      + destruct (Hbk i) as (els_i & c_i & Ei & Mi & Ri); [lia|lia|].
        exists els_i, c_i. split_and!; try done.
        unfold row. simpl. rewrite O; [done|lia|done]. }
  intros dk effs [[]|e] [-> H]; [|done].
  destruct H as (Hdk & Hwk & Hdtk & Hrk & Huk & Hlk & Hck & Hbk).
  apply post_bind, post_modify. apply post_bind, post_gets. apply post_emit.
  intros _.
  split_and!; [|done|unfold __len__ in *; simpl; fold hi; lia].
  split; simpl; try done.
  - by rewrite Hrk.
  - rewrite Hrk. unfold __len__ in *. simpl. nia.
  - rewrite Hrk. exact Hck.
  - intros i Hi.
    destruct (Hbk i) as (els_i & c_i & Ei & Mi & Ri); [done|lia|].
    exists els_i, c_i. done.
Qed.

(** *** Runs *)

(** One push that returns, followed by a refresh of the digest, with the
    bounds the push notifies, that returns. [Source] has no
    [on_refresh_digests] event in this tree; the digest is handed the
    [(start, end)] of the notification the push fires. *)
Inductive step (sys : system) : system → Prop :=
  | push_and_refresh data index source' effs ev start end_ digest' effs' :
      Sources.push data index (source sys) = (source', effs, Ok ()) →
      Trigger ev (Sources.self_id (source sys)) start end_ ∈ effs →
      _on_refresh source' start end_ (digest sys)
      = (digest', effs', Ok ()) →
      step sys (System source' digest').

Lemma __init___inv s id source_interval interval d :
  Sources.wf s → 0 < source_interval →
  __init__ id source_interval interval = Ok d →
  inv (System s d) ∧ _relative_bin_size d = interval / source_interval.
Proof.
  intros Hs Hpos. unfold __init__, allowed_as_digest.
  destruct (source_interval <? interval) eqn:E1; [|done].
  destruct (interval mod source_interval =? 0) eqn:E2; [|done].
  apply Z.ltb_lt in E1. simpl. intros [= <-]. split; [|done].
  pose proof (GrowingArray.wf_length _ (proj1 Hs)) as Hlen.
  assert (1 <= interval / source_interval)
    by (apply Z.div_le_lower_bound; lia).
  split; unfold __len__, Sources.__len__, GrowingArray.__len__ in *; simpl;
    try done; try lia.
  by apply (GrowingArray.wf___init__ Sources.Candle 240 1).
Qed.

Lemma step_pushed sys data index source' effs ev start end_ :
  Sources.wf (source sys) →
  Sources.push data index (source sys) = (source', effs, Ok ()) →
  Trigger ev (Sources.self_id (source sys)) start end_ ∈ effs →
  pushed (source sys) source' start end_.
Proof.
  intros Hs Hpush Hin.
  pose proof (Sources.push_spec data index (source sys) Hs) as H.
  unfold post in H. rewrite Hpush in H. simpl in H.
  destruct H as (Hs' & _ & _ & _ & Hle & _ & Hf & _ & warnings & Hw
                 & -> & Hi & Hl & Hg & Hrows).
  assert (Hse : start = Sources.index_or_end (source sys) index
                ∧ end_ = Sources.index_or_end (source sys) index
                         + Sources.count data).
  { apply elem_of_app in Hin as [Hin|Hin].
    - destruct Hw as [->|[-> _]].
      + by apply elem_of_nil in Hin.
      + apply elem_of_cons in Hin as [[=]|Hin]. by apply elem_of_nil in Hin.
    - apply elem_of_cons in Hin as [[= -> -> ->]|Hin]; [done|].
      apply elem_of_cons in Hin as [[= -> -> ->]|Hin]; [done|].
      by apply elem_of_nil in Hin. }
  destruct Hse as [-> ->]. split; done.
Qed.

Lemma step_inv sys sys' :
  inv sys → step sys sys' →
  inv sys'
  ∧ _relative_bin_size (digest sys') = _relative_bin_size (digest sys).
Proof.
  intros Hinv Hstep.
  destruct Hstep
    as [data index source' effs ev start end_ digest' effs' Hpush Hin Href].
  pose proof (step_pushed sys data index source' effs ev start end_
                (inv_source _ Hinv) Hpush Hin) as Hpushed.
  destruct sys as [s d]. simpl in *.
  pose proof (_on_refresh_inv s source' d start end_ Hinv Hpushed) as H.
  unfold post in H. rewrite Href in H.
  destruct (H eq_refl) as (? & ? & _). done.
Qed.

Lemma run_inv sys0 sys :
  inv sys0 → rtc step sys0 sys →
  inv sys
  ∧ _relative_bin_size (digest sys) = _relative_bin_size (digest sys0).
Proof.
  intros Hinv Hrun. induction Hrun as [sys|sys1 sys2 sys3 Hstep Hrun IH].
  - done.
  - destruct (step_inv _ _ Hinv Hstep) as [Hinv2 Hr2].
    destruct (IH Hinv2) as [Hinv3 Hr3]. split; [done|congruence].
Qed.

(** What the code does keep. A digest is created over a source with
    relative bin size [r = interval / source_interval]. After any sequence
    of pushes, each followed by a refresh of the digest that returns, every
    row [i] the digest holds is what [_make_candle] gives for the source
    rows [i * r, (i + 1) * r); where the first of them is a candle or a
    [uint64], that is the spec's fold. *)
Lemma digest_rows_are_made s0 id source_interval interval d0 sys i :
  Sources.wf s0 → 0 < source_interval →
  __init__ id source_interval interval = Ok d0 →
  rtc step (System s0 d0) sys →
  0 <= i < __len__ (digest sys) →
  let r := interval / source_interval in
  ∃ elements candle,
    Z.of_nat (List.length elements) = r
    ∧ (∀ j x, elements !! j = Some x
              ↔ Z.of_nat j < r
                ∧ Sources.row (source sys) (i * r + Z.of_nat j) = Ok [x])
    ∧ _make_candle elements = Ok candle
    ∧ row (digest sys) i = Ok [cell candle]
    ∧ (∀ x, head elements = Some x → seeds x →
            ∃ c, candle = Some c ∧ fold elements = Ok c).
Proof.
  intros Hs0 Hpos Hinit Hrun Hi r.
  destruct (__init___inv s0 id source_interval interval d0 Hs0 Hpos Hinit)
    as [Hinv0 Hr0].
  destruct (run_inv _ _ Hinv0 Hrun) as [Hinv Hr]. simpl in Hr.
  rewrite Hr0 in Hr. fold r in Hr.
  destruct Hinv as [Hs Hd Hw Hdt Hr1 Hu Hc Hb]. rewrite Hr in *.
  destruct (Hb i Hi) as (elements & c & E & M & R). rewrite Hr in E.
  destruct (bin_elements_spec (source sys) r i Hs Hr1) as (els & E' & L & K);
    [lia|nia|].
  rewrite E in E'. injection E' as <-.
  exists elements, c. split_and!; try done.
  intros x Hx Hseed. destruct elements as [|x' rest]; [done|].
  injection Hx as ->. by apply _make_candle_fold.
Qed.

(** S3 of the spec, in small: a two-minute digest over a one-minute candle
    source, after a push of four candles. *)
Definition two_minutes : t :=
  Build 2%nat (GrowingArray.Build [] Sources.Candle 240 1 0) true 2 0.

Definition four_candles : Sources.push_data :=
  Sources.NdArray [[CandleV (Candle.Build 10 12 9 13)];
                   [CandleV (Candle.Build 12 11 8 12)];
                   [CandleV (Candle.Build 11 15 11 16)];
                   [CandleV (Candle.Build 15 14 13 15)]].

Example digest_aggregation_S3 :
  let s0 := Sources.fresh 1%nat Sources.Candle NoneV in
  let s1 := (Sources.push four_candles None s0).1.1 in
  let '(d1, effs, r) := _on_refresh s1 0 4 two_minutes in
  r = Ok ()
  ∧ effs = [Trigger on_refresh_linked_sources 2%nat 0 2]
  ∧ GrowingArray.get_slice (_data d1) 0 2
    = Ok [[CandleV (Candle.Build 10 12 8 13)];
          [CandleV (Candle.Build 11 15 11 16)]].
Proof. vm_compute. done. Qed.

(** That refresh is a step of a run, and row 1 of the digest it leaves is
    the fold of rows 2 and 3 of the source. *)
Example digest_run_S3 :
  let s0 := Sources.fresh 1%nat Sources.Candle NoneV in
  let s1 := (Sources.push four_candles None s0).1.1 in
  let d1 := (_on_refresh s1 0 4 two_minutes).1.1 in
  rtc step (System s0 two_minutes) (System s1 d1)
  ∧ ∃ candle,
      fold [CandleV (Candle.Build 11 15 11 16);
            CandleV (Candle.Build 15 14 13 15)] = Ok candle
      ∧ row d1 1 = Ok [CandleV candle].
Proof.
  intros s0 s1 d1. split.
  - apply rtc_once.
    apply (push_and_refresh (System s0 two_minutes) four_candles None s1
             [Trigger on_refresh_linked_sources 1%nat 0 4;
              Trigger on_refresh_indicators 1%nat 0 4]
             on_refresh_linked_sources 0 4 d1
             [Trigger on_refresh_linked_sources 2%nat 0 2]).
    + vm_compute. reflexivity.
    + left.
    + vm_compute. reflexivity.
  - eexists. split; [reflexivity|]. vm_compute. reflexivity.
Qed.

(** Four prices, as a price source takes them. *)
Definition four_prices : Sources.push_data :=
  Sources.NdArray [[UInt64 10]; [UInt64 20]; [UInt64 30]; [UInt64 5]].

(** C1, where the code departs from it. Over a price source the elements of
    a bin are [uint64]: the first seeds [Candle(p, p, p, p)], and
    [Candle.merge] refuses the second, which is neither an [int] nor a
    candle. With prices 10, 20, 30, 5 in the source and a digest of
    relative bin size 2, the refresh the push asks for raises TypeError at
    bin 0 and the digest holds no row, where the fold of the claim gives
    [Candle(10, 20, 10, 20)] for row 0. *)
Theorem digest_of_prices_raises :
  let s0 := Sources.fresh 1%nat Sources.StandardizedPrice NoneV in
  let '(s1, effs, r) := Sources.push four_prices None s0 in
  r = Ok ()
  ∧ effs = [Trigger on_refresh_linked_sources 1%nat 0 4;
            Trigger on_refresh_indicators 1%nat 0 4]
  ∧ __init__ 2%nat 60 120 = Ok two_minutes
  ∧ bin_elements s1 2 0 = Ok [UInt64 10; UInt64 20]
  ∧ fold [UInt64 10; UInt64 20] = Ok (Candle.Build 10 20 10 20)
  ∧ _make_candle [UInt64 10; UInt64 20] = Raise TypeError
  ∧ let '(d1, effs1, r1) := _on_refresh s1 0 4 two_minutes in
    r1 = Raise TypeError
    ∧ effs1 = []
    ∧ __len__ d1 = 0
    ∧ row d1 0 = Raise IndexError.
Proof. vm_compute. done. Qed.

End Digests.


(** ** Indicators (mistra/core/indicators/__init__.py) *)

Module Indicators.

(** A broadcaster as the constructor sees it: who it is, its interval (in
    seconds) and its length at that moment. *)
Record broadcaster := Broadcaster {
  b_id : oid;
  b_interval : Z;
  b_len : Z
}.

(** [_data] is [None] once the indicator is disposed. [_broadcasters_read]
    is an attribute only [dispose] touches. *)
Record t := Build {
  self_id : oid;
  _data : option (GrowingArray.t float_dtype fval);
  _max_requested_start : gmap oid Z;
  _max_requested_end : gmap oid Z;
  _disposed : bool;
  _broadcasters_read : option (gmap oid Z)
}.

Definition set_data (data : option (GrowingArray.t float_dtype fval)) (self : t) : t :=
  Build (self_id self) data (_max_requested_start self)
        (_max_requested_end self) (_disposed self) (_broadcasters_read self).

Definition set_max_requested_start (m : gmap oid Z) (self : t) : t :=
  Build (self_id self) (_data self) m (_max_requested_end self)
        (_disposed self) (_broadcasters_read self).

Definition set_max_requested_end (m : gmap oid Z) (self : t) : t :=
  Build (self_id self) (_data self) (_max_requested_start self) m
        (_disposed self) (_broadcasters_read self).

Definition set_disposed (b : bool) (self : t) : t :=
  Build (self_id self) (_data self) (_max_requested_start self)
        (_max_requested_end self) b (_broadcasters_read self).

Definition set_broadcasters_read (m : option (gmap oid Z)) (self : t) : t :=
  Build (self_id self) (_data self) (_max_requested_start self)
        (_max_requested_end self) (_disposed self) m.

(** [d[key]] *)
Definition getitem (d : gmap oid Z) (key : oid) : result Z :=
  match d !! key with
  | Some v => Ok v
  | None => Raise KeyError
  end.

(** [min(r for r in d.values())] *)
Definition min_values (d : gmap oid Z) : result Z :=
  match (map_to_list d).*2 with
  | [] => Raise ValueError
  | v :: vs => Ok (foldr Z.min v vs)
  end.

(** [_update] is the method each indicator class supplies. *)
Definition _on_dependency_update (_update : Z → Z → M t unit)
    (dependency : oid) (start end_ : Z) : M t unit :=
  requested ← read (λ self, getitem (_max_requested_end self) dependency);
  modify (λ self, set_max_requested_end
            (<[dependency := Z.max end_ requested]> (_max_requested_end self))
            self) ;;
  minimum_requested_end ← read (λ self, min_values (_max_requested_end self));
  let current_end := Z.min minimum_requested_end end_ in
  requested ← read (λ self, getitem (_max_requested_start self) dependency);
  modify (λ self, set_max_requested_start
            (<[dependency := Z.max start requested]>
               (_max_requested_start self))
            self) ;;
  minimum_requested_start ←
    read (λ self, min_values (_max_requested_start self));
  let current_start := Z.min minimum_requested_start start in
  _update current_start current_end ;;
  self ← gets self_id;
  emit (Trigger on_refresh_indicators self current_start current_end).

(** The part of [__init__] that comes before the first refresh: the checks
    and the fields. The time stamp is left out. The broadcasters are listed
    in the order in which the set is iterated, each once. *)
Definition checked (id : oid) (initial_width : Z)
    (broadcasters : list broadcaster) (chunk_size : Z) : result t :=
  match remove_dups (b_interval <$> broadcasters) with
  | [_] =>
      if chunk_size <? 0 then Raise ValueError
      else
        data ← GrowingArray.__init__ float64 chunk_size initial_width;
        let zeros : gmap oid Z :=
          list_to_map ((λ b, (b_id b, 0)) <$> broadcasters) in
        Ok (Build id (Some data) zeros zeros false None)
  | _ => Raise ValueError
  end.

Definition __init__ (_update : Z → Z → M t unit) (id : oid)
    (initial_width : Z) (broadcasters : list broadcaster) (chunk_size : Z)
  : result (t * list effect * result unit) :=
  self ← checked id initial_width broadcasters chunk_size;
  Ok ((
    (if chunk_size <? 60 then emit (Warn SmallChunkSize) else mret ()) ;;
    for_each broadcasters (λ b,
      emit (Register on_refresh_indicators (b_id b) id)) ;;
    for_each broadcasters (λ b,
      _on_dependency_update _update (b_id b) 0 (b_len b))) self).

Definition disposed (self : t) : bool := _disposed self.

Definition __getitem__ (self : t) (item : GrowingArray.key)
  : result (GrowingArray.value fval) :=
  if _disposed self then Raise Disposed
  else
    match _data self with
    | Some data => GrowingArray.__getitem__ data item
    | None => Raise TypeError
    end.

(** *** The refresh window *)





(** An indicator over the broadcasters 1 and 2, which have announced
    [0, 3) and [0, 5). *)
Definition over_two : t :=
  Build 10%nat None
        (<[1%nat := 0]> (<[2%nat := 0]> ∅))
        (<[1%nat := 3]> (<[2%nat := 5]> ∅))
        false None.

(** Broadcaster 1 announces [3, 7): the window is [0, 5). *)
Example over_two_window :
  let '(self', effs, r) :=
    _on_dependency_update (λ _ _, mret ()) 1%nat 3 7 over_two in
  r = Ok ()
  ∧ effs = [Trigger on_refresh_indicators 10%nat 0 5]
  ∧ _max_requested_start self' !! 1%nat = Some 3
  ∧ _max_requested_end self' !! 1%nat = Some 7.
Proof. vm_compute. done. Qed.


(** *** Disposal *)

(** The objects of a graph: the indicators, and for every broadcaster the
    receivers whose callback is registered on its [on_refresh_indicators]
    event ([Event._callbacks], a set). *)
Record world := World {
  indicators : gmap oid t;
  receivers : gmap oid (gset oid)
}.

Definition receivers_of (w : world) (b : oid) : gset oid :=
  default ∅ (receivers w !! b).

(** [broadcaster.on_refresh_indicators.unregister(callback)] *)
Definition unregister (b receiver : oid) (w : world) : world :=
  World (indicators w) (<[b := receivers_of w b ∖ {[receiver]}]> (receivers w)).

(** [depth] bounds the nesting of the calls, like the interpreter's
    recursion limit. *)
Fixpoint dispose (depth : nat) (self : oid) (w : world)
  : world * result unit :=
  match depth with
  | O => (w, Raise RecursionError)
  | S depth =>
      match indicators w !! self with
      | None => (w, Raise KeyError)
      | Some ind =>
          if _disposed ind then (w, Ok ())
          else
            let ind := set_disposed true ind in
            let ind := set_data None ind in
            let ind := set_broadcasters_read None ind in
            let w := World (<[self := ind]> (indicators w)) (receivers w) in
            match _broadcasters_read ind with
            | None => (w, Raise AttributeError)
            | Some broadcasters_read =>
                let w :=
                  foldr (λ b w, unregister b self w) w
                        (elements (dom broadcasters_read)) in
                (fix each (rs : list oid) (w : world) : world * result unit :=
                   match rs with
                   | [] => (w, Ok ())
                   | receiver :: rs =>
                       match dispose depth receiver w with
                       | (w, Ok _) => each rs w
                       | (w, Raise e) => (w, Raise e)
                       end
                   end) (elements (receivers_of w self)) w
            end
      end
  end.

(** The first [dispose] of an indicator marks it and drops its buffer, then
    stops at [self._broadcasters_read.keys()], the attribute having just
    been set to [None]: nothing is unregistered and no other indicator is
    touched. *)
Lemma dispose_stops depth self w ind :
  indicators w !! self = Some ind → _disposed ind = false →
  dispose (S depth) self w
  = (World (<[self := set_broadcasters_read None
                        (set_data None (set_disposed true ind))]>
              (indicators w))
           (receivers w),
     Raise AttributeError).
Proof. intros Hind Hd. simpl. by rewrite Hind, Hd. Qed.

Lemma dispose_again depth self w ind :
  indicators w !! self = Some ind → _disposed ind = true →
  dispose (S depth) self w = (w, Ok ()).
Proof. intros Hind Hd. simpl. by rewrite Hind, Hd. Qed.

(** S6 of the spec: source 1, a moving mean 10 over it, a moving variance 11
    over the mean. *)
Definition empty_buffer : GrowingArray.t float_dtype fval :=
  GrowingArray.Build [] float64 3600 1 0.

Definition cascade : world :=
  World
    (<[10%nat := Build 10%nat (Some empty_buffer)
                   (<[1%nat := 0]> ∅) (<[1%nat := 0]> ∅) false None]>
       (<[11%nat := Build 11%nat (Some empty_buffer)
                      (<[10%nat := 0]> ∅) (<[10%nat := 0]> ∅) false None]>
          ∅))
    (<[1%nat := {[10%nat]}]> (<[10%nat := {[11%nat]}]> ∅)).

(** C6, where the code departs from it. [M.dispose()] raises AttributeError
    after marking [M] disposed and dropping its buffer: [M] stays registered
    with the source, [V] is not disposed and a read on [V] does not fail with
    the Disposed error. A second [M.dispose()] returns at once. Reads on [M]
    fail with the Disposed error. *)
Theorem dispose_does_not_cascade :
  let '(w, r) := dispose 3 10%nat cascade in
  r = Raise AttributeError
  ∧ receivers w = receivers cascade
  ∧ (disposed <$> indicators w !! 10%nat) = Some true
  ∧ (_data <$> indicators w !! 10%nat) = Some None
  ∧ ((λ m, __getitem__ m (GrowingArray.Index 0)) <$> indicators w !! 10%nat)
    = Some (Raise Disposed)
  ∧ (disposed <$> indicators w !! 11%nat) = Some false
  ∧ ((λ v, __getitem__ v (GrowingArray.Index 0)) <$> indicators w !! 11%nat)
    = Some (Raise IndexError)
  ∧ dispose 3 10%nat w = (w, Ok ()).
Proof. vm_compute. done. Qed.

End Indicators.


(** ** Float arithmetic *)

Definition fadd (a b : fval) : fval :=
  match a, b with
  | Fin x, Fin y => Fin (Qred (x + y))
  | _, _ => NaN
  end.

Definition fsub (a b : fval) : fval :=
  match a, b with
  | Fin x, Fin y => Fin (Qred (x - y))
  | _, _ => NaN
  end.

Definition fmul (a b : fval) : fval :=
  match a, b with
  | Fin x, Fin y => Fin (Qred (x * y))
  | _, _ => NaN
  end.

(** Division by zero does not occur below; it is given the value NaN. *)
Definition fdiv (a b : fval) : fval :=
  match a, b with
  | Fin x, Fin y => if Qeq_bool y 0 then NaN else Fin (Qred (x / y))
  | _, _ => NaN
  end.

(** [array.sum()] *)
Definition fsum (xs : list fval) : fval := foldr fadd (Fin 0) xs.

(** [array[start:stop]] on a numpy array, for [0 <= start]: the bounds are
    clipped to the length. *)
Definition slice {A} (xs : list A) (start stop : Z) : list A :=
  take (Z.to_nat (stop - start)) (drop (Z.to_nat start) xs).

(** ** Moving statistics (mistra/core/indicators/moving.py) *)

Module Moving.

(** The attributes of a candle, as [component] names them. *)
Inductive component :=
  | start
  | end_
  | min
  | max.

Global Instance component_eq_dec : EqDecision component.
Proof. solve_decision. Defined.

Definition getattr (c : Candle.t) (name : component) : Z :=
  match name with
  | start => Candle.start c
  | end_ => Candle.end_ c
  | min => Candle.min c
  | max => Candle.max c
  end.

(** What an indicator reads from: a source, or another indicator together
    with what its [width()] answers. The object is passed as it is when the
    method runs. *)
Inductive timelapse :=
  | OfSource (s : Sources.t)
  | OfIndicator (i : Indicators.t) (width : Z).

Definition timelapse_id (parent : timelapse) : oid :=
  match parent with
  | OfSource s => Sources.self_id s
  | OfIndicator i _ => Indicators.self_id i
  end.

Definition timelapse_len (parent : timelapse) : Z :=
  match parent with
  | OfSource s => Sources.__len__ s
  | OfIndicator i _ =>
      match Indicators._data i with
      | Some data => GrowingArray.__len__ data
      | None => 0
      end
  end.

(** A cell of either kind of array. *)
Inductive cell :=
  | OfDatum (d : datum)
  | OfFloat (x : fval).

(** [parent[start:stop]] *)
Definition getslice (parent : timelapse) (start stop : Z)
  : result (list (list cell)) :=
  match parent with
  | OfSource s =>
      m ← Sources.rows s start stop;
      Ok (List.map (List.map OfDatum) m)
  | OfIndicator i _ =>
      v ← Indicators.__getitem__ i (GrowingArray.Slice start stop);
      match v with
      | GrowingArray.Matrix m => Ok (List.map (List.map OfFloat) m)
      | GrowingArray.Row _ => Raise TypeError
      end
  end.

(** Modelled from the spec: [Timelapse._map] is not part of the tree. With a
    candle component, every row is replaced by that attribute of its first
    cell, as a float. *)
Definition _map (name : component) (data : list (list cell))
  : result (list (list fval)) :=
  (fix each (rows : list (list cell)) : result (list (list fval)) :=
     match rows with
     | [] => Ok []
     | (OfDatum (CandleV c) :: _) :: rows =>
         rest ← each rows;
         Ok ([Fin (float (getattr c name))] :: rest)
     | _ => Raise AttributeError
     end) data.

(** Without a component the cells are used as the numbers they are. A
    [uint64] is read as the integer it holds and summed exactly: the sums
    are those of numpy as long as they stay below [2^53], past which a
    double rounds (and below [2^64], past which the sum of a [uint64]
    array wraps). *)
Definition number (c : cell) : result fval :=
  match c with
  | OfDatum (Int p) | OfDatum (UInt64 p) => Ok (Fin (float p))
  | OfFloat x => Ok x
  | OfDatum _ => Raise TypeError
  end.

Definition numbers (data : list (list cell)) : result (list (list fval)) :=
  (fix each (rows : list (list cell)) : result (list (list fval)) :=
     match rows with
     | [] => Ok []
     | r :: rows =>
         r ← (fix cells (cs : list cell) : result (list fval) :=
                match cs with
                | [] => Ok []
                | c :: cs => x ← number c; xs ← cells cs; Ok (x :: xs)
                end) r;
         rest ← each rows;
         Ok (r :: rest)
     end) data.

(** The rows of the parent an update works on. *)
Definition normalized (parent : timelapse) (candle_component : option component)
    (start stop : Z) : result (list (list fval)) :=
  data ← getslice parent start stop;
  match candle_component with
  | Some name => _map name data
  | None => numbers data
  end.

(** [self._data[i] = x] on the buffer of an indicator of width 1. *)
Definition store (i : Z) (row : list fval) : M Indicators.t unit :=
  assign Indicators._data Indicators.set_data (λ data,
    match data with
    | Some data =>
        let out := GrowingArray.set data i row in (Some out.1, out.2)
    | None => (None, Raise TypeError)
    end).

Module MovingMean.

Record t := Build {
  _parent : oid;
  _candle_component : option component;
  _tail_size : Z;
  _nan_on_short_tail : bool
}.

(** The calls to [print] are left out. *)
Definition _update (self : t) (parent : timelapse) (start end_ : Z)
  : M Indicators.t unit :=
  data ← read (λ _, normalized parent (_candle_component self)
                      (Z.max 0 (start + 1 - _tail_size self)) end_);
  for_each (range 0 (end_ - start)) (λ idx,
    let tail_start := idx + 1 - _tail_size self in
    let tail_end := idx + 1 in
    if (start + tail_start <? 0) && _nan_on_short_tail self then
      store (start + idx) [NaN]
    else
      store (start + idx)
            [fdiv (fsum (concat (slice data (Z.max 0 tail_start) tail_end)))
                  (Fin (float (_tail_size self)))]).

(** The value of [Candle.__slots__] is a parameter. *)
Definition __init__ (slots : list component) (id : oid) (parent : timelapse)
    (interval : Z) (tail_size : Z) (component : component)
    (nan_on_short_tail : bool)
  : result (t * (Indicators.t * list effect * result unit)) :=
  candle_component ←
    match parent with
    | OfSource s =>
        match Sources.dtype_of s with
        | Sources.Candle =>
            if decide (component ∈ slots) then Ok (Some component)
            else Raise ValueError
        | _ => Ok None
        end
    | OfIndicator _ width =>
        if width =? 1 then Ok None else Raise ValueError
    end;
  if tail_size <=? 1 then Raise ValueError
  else
    let self := Build (timelapse_id parent) candle_component tail_size
                      nan_on_short_tail in
    base ← Indicators.__init__ (_update self parent) id 1
             [Indicators.Broadcaster (timelapse_id parent) interval
                (timelapse_len parent)]
             3600;
    Ok (self, base).

(** S4 of the spec, and the same five prices arriving as four and one. *)
Definition prices (ps : list Z) : Sources.push_data :=
  Sources.NdArray ((λ p, [UInt64 p]) <$> ps).

Definition pushed (ps : list Z) (s : Sources.t) : Sources.t :=
  (Sources.push (prices ps) None s).1.1.

Definition no_prices : Sources.t :=
  Sources.fresh 1%nat Sources.StandardizedPrice NoneV.

(** The rows of the buffer of an indicator. *)
Definition buffer (i : Indicators.t) : result (list (list fval)) :=
  match Indicators._data i with
  | Some data => GrowingArray.get_slice data 0 (GrowingArray.__len__ data)
  | None => Raise TypeError
  end.

Example moving_mean_S4 :
  match __init__ [] 10%nat (OfSource (pushed [10; 20; 30; 40; 50] no_prices))
                 60 3 end_ true with
  | Ok (_, (mean, effs, r)) =>
      r = Ok ()
      ∧ buffer mean = Ok [[NaN]; [NaN]; [Fin 20]; [Fin 30]; [Fin 40]]
  | Raise _ => False
  end.
Proof. vm_compute. done. Qed.

(** C3, where the code departs from it. A moving mean with [tail_size = 3]
    is created over [10, 20, 30, 40] and holds [NaN, NaN, 20, 30]. The
    source is pushed 50 and notifies [(4, 5)]; [_update(4, 5)] reads
    [parent[2:5]] and, as for a window that starts at 0, sums its first
    [idx + 1] rows only: it stores [30 / 3 = 10] at index 4, where the mean
    of the parent values at [2, 5) is 40. *)
Theorem moving_mean_incremental :
  let four := pushed [10; 20; 30; 40] no_prices in
  let five := pushed [50] four in
  match __init__ [] 10%nat (OfSource four) 60 3 end_ true with
  | Ok (self, (mean, _, r)) =>
      r = Ok ()
      ∧ buffer mean = Ok [[NaN]; [NaN]; [Fin 20]; [Fin 30]]
      ∧ let '(mean', effs, r') :=
          Indicators._on_dependency_update (_update self (OfSource five))
            1%nat 4 5 mean in
        r' = Ok ()
        ∧ effs = [Trigger on_refresh_indicators 10%nat 4 5]
        ∧ buffer mean'
          = Ok [[NaN]; [NaN]; [Fin 20]; [Fin 30]; [Fin 10]]
        ∧ fdiv (fsum [Fin 30; Fin 40; Fin 50]) (Fin 3) = Fin 40
  | Raise _ => False
  end.
Proof. vm_compute. done. Qed.

End MovingMean.

Module MovingVariance.

Record t := Build {
  _use_var : bool;
  _use_stderr : bool;
  _with_unbiased_correction : bool;
  _moving_mean : oid
}.

Definition width (self : t) : Z :=
  if _use_var self && _use_stderr self then 2 else 1.

(** [Indicator._initial_width], which this class does not override. *)
Definition _initial_width (self : t) : Z := 1.

Section Sqrt.

(** The floating-point square root is a parameter. *)
Variable sqrt : Q → Q.

(** [x ** 0.5] *)
Definition fsqrt (x : fval) : fval :=
  match x with
  | Fin q => Fin (sqrt q)
  | NaN => NaN
  end.

(** [means[idx]], a row of one cell. *)
Definition mean_at (means : list (list fval)) (idx : Z) : result fval :=
  match means !! Z.to_nat idx with
  | Some (mean :: _) => Ok mean
  | _ => Raise IndexError
  end.

(** What [_update] computes before it assigns it: the matrix of the
    variances, of the standard errors, or of both side by side. *)
Definition computed (self : t) (mean : MovingMean.t)
    (moving_mean : Indicators.t) (parent : timelapse) (start end_ : Z)
  : result (list (list fval)) :=
  means ← Indicators.__getitem__ moving_mean
            (GrowingArray.Slice start end_);
  means ← match means with
          | GrowingArray.Matrix m => Ok m
          | GrowingArray.Row _ => Raise TypeError
          end;
  let tail_size := MovingMean._tail_size mean in
  values ← normalized parent (MovingMean._candle_component mean)
             (Z.max 0 (start + 1 - tail_size)) end_;
  let n := if _with_unbiased_correction self then tail_size - 1
           else tail_size in
  variance ←
    (fix each (idxs : list Z) : result (list fval) :=
       match idxs with
       | [] => Ok []
       | idx :: idxs =>
           let tail_start := idx + 1 - tail_size in
           let tail_end := idx + 1 in
           mean ← mean_at means idx;
           let squares :=
             (λ v, fmul (fsub v mean) (fsub v mean))
               <$> concat (slice values (Z.max 0 tail_start) tail_end) in
           rest ← each idxs;
           Ok (fdiv (fsum squares) (Fin (float n)) :: rest)
       end) (range 0 (end_ - start));
  let stderr := fsqrt <$> variance in
  if _use_var self && _use_stderr self then
    Ok (zip_with (λ v s, [v; s]) variance stderr)
  else if _use_var self then Ok ((λ v, [v]) <$> variance)
  else Ok ((λ s, [s]) <$> stderr).

(** [self._data[start:end] = matrix] *)
Definition store_slice (start end_ : Z) (m : list (list fval))
  : M Indicators.t unit :=
  assign Indicators._data Indicators.set_data (λ data,
    match data with
    | Some data =>
        let out := GrowingArray.set_slice data start end_ m in
        (Some out.1, out.2)
    | None => (None, Raise TypeError)
    end).

Definition _update (self : t) (mean : MovingMean.t)
    (moving_mean : Indicators.t) (parent : timelapse) (start end_ : Z)
  : M Indicators.t unit :=
  m ← read (λ _, computed self mean moving_mean parent start end_);
  if _use_var self || _use_stderr self then store_slice start end_ m
  else mret ().

(** The argument is a [MovingMean] by its type. *)
Definition __init__ (id : oid) (mean : MovingMean.t)
    (moving_mean : Indicators.t) (parent : timelapse) (interval : Z)
    (var stderr unbiased : bool)
  : result (t * (Indicators.t * list effect * result unit)) :=
  if negb (var || stderr) then Raise ValueError
  else
    let self := Build var stderr unbiased (Indicators.self_id moving_mean) in
    base ← Indicators.__init__
             (_update self mean moving_mean parent) id
             (_initial_width self)
             [Indicators.Broadcaster (Indicators.self_id moving_mean) interval
                (timelapse_len (OfIndicator moving_mean 1))]
             3600;
    Ok (self, base).

(** C8, where the code departs from it. S5 of the spec: a moving variance
    with [var], [stderr] and [unbiased] over the moving mean of tail size 3
    of [10, 20, 30, 40, 50]. [width()] answers 2 and the matrix computed for
    [0, 5) has the row [100, sqrt(100)] at index 2, but the buffer was
    created with [_initial_width()], which is 1: the assignment of the
    two-column matrix is refused, the constructor raises and the buffer
    stays empty. *)
Theorem moving_variance_S5 :
  let source := MovingMean.pushed [10; 20; 30; 40; 50] MovingMean.no_prices in
  match MovingMean.__init__ [] 10%nat (OfSource source) 60 3 end_ true with
  | Ok (mean, (moving_mean, _, _)) =>
      match __init__ 11%nat mean moving_mean (OfSource source) 60
                     true true true with
      | Ok (self, (variance, effs, r)) =>
          width self = 2
          ∧ (GrowingArray._width <$> Indicators._data variance) = Some 1
          ∧ (m ← computed self mean moving_mean (OfSource source) 0 5;
             Ok (m !! 2%nat))
            = Ok (Some [Fin 100; Fin (sqrt 100)])
          ∧ r = Raise ValueError
          ∧ MovingMean.buffer variance = Ok []
          ∧ Indicators.__getitem__ variance (GrowingArray.Index 2)
            = Raise IndexError
      | Raise _ => False
      end
  | Raise _ => False
  end.
Proof. vm_compute. done. Qed.

End Sqrt.

End MovingVariance.

End Moving.


(** ** Predictors (mistra/core/indicators/predictor.py) *)

Module Predictors.

(** What a strict subclass of [PredictorAlgorithm] supplies. *)
Record PredictorAlgorithm := {
  tail_size : Z;
  step : Z;
  predict : list (list fval) → fval * fval
}.

Module Columns.
Definition PREDICTION : Z := 0.
Definition STRUCTURAL_ERROR_AT_PREDICTION_TIME : Z := 1.
Definition STRUCTURAL_ERROR_AT_PREDICTED_TIME : Z := 2.
Definition PREDICTION_DIFFERENCE : Z := 3.
Definition STANDARD_ERROR : Z := 4.
End Columns.

(** The attributes [__init__] sets after the base class has been
    initialised; an attribute not set yet is [None] here. *)
Record t := Build {
  _input_data : option Moving.timelapse;
  _algorithm : option PredictorAlgorithm;
  _moving_stderr_tail_size : option Z
}.

Definition _initial_width : Z := 5.

Definition attribute {A} (a : option A) : result A :=
  match a with
  | Some a => Ok a
  | None => Raise AttributeError
  end.

(** Modelled from the spec: [SidePlucker] is not part of the tree; the input
    is read as the scalar column of the time lapse. *)
Definition input_slice (input : Moving.timelapse) (start stop : Z)
  : result (list (list fval)) :=
  Moving.normalized input None start stop.

(** The body ends after [step = self.step]: the numbered steps that follow
    are comments. *)
Definition _update_index (self : t) (index : Z) : M Indicators.t unit :=
  algorithm ← read (λ _, attribute (_algorithm self));
  if index <? tail_size algorithm then mret ()
  else
    input ← read (λ _, attribute (_input_data self));
    tail ← read (λ _, input_slice input (index + 1 - tail_size algorithm)
                        (index + 1));
    let '(prediction, structural_error) := predict algorithm tail in
    let step := step algorithm in
    mret ().

Definition _update (self : t) (start end_ : Z) : M Indicators.t unit :=
  for_each (range start end_) (λ index, _update_index self index).

(** An update leaves the indicator as it finds it and emits nothing. *)
Lemma _update_index_unchanged self index base :
  post (_update_index self index) base
    (λ base' effs r, base' = base ∧ effs = []).
Proof.
  unfold _update_index. apply post_bind, post_read. intros [algorithm|e];
    [|done].
  destruct (index <? tail_size algorithm); [done|].
  apply post_bind, post_read. intros [input|e]; [|done].
  apply post_bind, post_read. intros [tail|e]; [|done].
  by destruct (predict algorithm tail).
Qed.

Lemma _update_unchanged self start end_ base :
  post (_update self start end_) base
    (λ base' effs r, base' = base ∧ effs = []).
Proof.
  unfold _update.
  pose proof (for_each_preserves (λ a b : Indicators.t, b = a)
                (range start end_) (λ index, _update_index self index)) as H.
  unfold post.
  destruct (H ltac:(done) ltac:(intros; congruence)
              ltac:(intros index s _;
                    pose proof (_update_index_unchanged self index s) as Hi;
                    unfold post in Hi;
                    by destruct (_update_index self index s) as [[? ?] ?])
              base) as [Hs He].
  by destruct (for_each _ _ base) as [[? ?] ?].
Qed.

(** A predictor whose algorithm needs two values and always answers
    [(7, 1)], over the prices [10, 20, 30]. *)
Definition constant : PredictorAlgorithm :=
  {| tail_size := 2; step := 1; predict := λ _, (Fin 7, Fin 1) |}.

Definition over_three_prices : t :=
  Build (Some (Moving.OfSource
                 (Moving.MovingMean.pushed [10; 20; 30]
                    Moving.MovingMean.no_prices)))
        (Some constant) (Some 20).

Definition empty_buffer : Indicators.t :=
  Indicators.Build 12%nat
    (Some (GrowingArray.Build [] float64 3600 _initial_width 0))
    (<[1%nat := 0]> ∅) (<[1%nat := 0]> ∅) false None.

(** C7, where the code departs from it. Index 2 is not below the tail size
    and [predict] is given [input[1:3]], but what it returns is stored
    nowhere: after [_update(0, 3)] the buffer is the empty buffer it was, and
    reading row 2, where the claim has [PREDICTION = 7] and
    [STRUCTURAL_ERROR_AT_PREDICTION_TIME = 1], is out of range. *)
Theorem predictor_writes_nothing :
  let '(base, effs, r) := _update over_three_prices 0 3 empty_buffer in
  r = Ok ()
  ∧ effs = []
  ∧ base = empty_buffer
  ∧ input_slice (Moving.OfSource
                   (Moving.MovingMean.pushed [10; 20; 30]
                      Moving.MovingMean.no_prices)) 1 3
    = Ok [[Fin 20]; [Fin 30]]
  ∧ Indicators.__getitem__ base (GrowingArray.Index 2) = Raise IndexError.
Proof. vm_compute. done. Qed.

End Predictors.

(** * Further properties

    What the code shows beyond the claims above, module by module. *)

(** ** The growing array *)

Module GrowingArrayFacts.

Section Facts.
Context {D A : Type} {dtype_of : Dtype D A}.
Implicit Types self : GrowingArray.t D A.

(** X1. [array[i] = row] followed by [array[i]]: the assignment of a row of
    [width] cells the dtype takes, at any index [i >= 0], returns; the
    array then has length [max(len, i + 1)], reads the row back at [i] as
    it was stored, reads every other row it had as before and reads the
    rows it skipped over, from the old length to [i], as zeros. *)
Theorem set_then_get self i row stored :
  GrowingArray.wf self → 0 <= i →
  Z.of_nat (List.length row) = GrowingArray._width self →
  traverse (astype (GrowingArray._dtype self)) row = Ok stored →
  ∃ self',
    GrowingArray.set self i row = (self', Ok ())
    ∧ GrowingArray.wf self'
    ∧ GrowingArray.__len__ self' = Z.max (GrowingArray.__len__ self) (i + 1)
    ∧ GrowingArray.get self' i = Ok stored
    ∧ (∀ j, 0 <= j < GrowingArray.__len__ self → j ≠ i →
            GrowingArray.get self' j = GrowingArray.get self j)
    ∧ (∀ j, GrowingArray.__len__ self <= j < i →
            GrowingArray.get self' j = Ok (GrowingArray.zero_row self)).
Proof.
  intros Hwf Hi Hrow Hst.
  destruct (GrowingArray.set_spec self i row stored Hwf Hi Hrow Hst)
    as (self' & E & Hwf' & L & _ & _ & _ & R & O & N).
  exists self'. by split_and!.
Qed.

(** X2. [array[start:stop] = matrix] followed by [array[start:stop]]: the
    assignment of [stop - start] rows of [width] cells the dtype takes
    returns, whatever chunks the range meets; the array then has length
    [max(len, stop)], the slice reads back the matrix as it was stored and
    the rows the array had outside the range read as before. *)
Theorem set_slice_then_get_slice self start stop m stored :
  GrowingArray.wf self → 0 <= start <= stop →
  Z.of_nat (List.length m) = stop - start →
  Forall (λ r, Z.of_nat (List.length r) = GrowingArray._width self) m →
  traverse (traverse (astype (GrowingArray._dtype self))) m = Ok stored →
  ∃ self',
    GrowingArray.set_slice self start stop m = (self', Ok ())
    ∧ GrowingArray.wf self'
    ∧ GrowingArray.__len__ self' = Z.max (GrowingArray.__len__ self) stop
    ∧ GrowingArray.get_slice self' start stop = Ok stored
    ∧ (∀ j, 0 <= j < GrowingArray.__len__ self → ¬ (start <= j < stop) →
            GrowingArray.get self' j = GrowingArray.get self j).
Proof.
  intros Hwf Hi Hlen Hrows Hst.
  destruct (GrowingArray.set_slice_spec self start stop m stored
              Hwf Hi Hlen Hrows Hst)
    as (self' & E & Hwf' & L & _ & _ & _ & R & O & N).
  exists self'. split_and!; try done.
  destruct (GrowingArray.get_slice_spec self' start stop Hwf' Hi)
    as (rows & Eg & Lg & Kg); [lia|].
  rewrite Eg. f_equal.
  destruct (traverse_lookup _ _ _ Hst) as [Hsl _].
  apply list_eq. intros k.
  destruct (decide (k < List.length rows)%nat) as [Hk|Hk].
  - specialize (Kg k Hk).
    destruct (lookup_lt_is_Some_2 stored k) as [r Hr]; [lia|].
    rewrite Hr. rewrite (R k r Hr) in Kg.
    destruct (rows !! k); simpl in Kg; congruence.
  - rewrite !lookup_ge_None_2; [done|lia|lia].
Qed.

(** The rows a key names. *)
Definition names (item : GrowingArray.key) (j : Z) : Prop :=
  match item with
  | GrowingArray.Index i => j = i
  | GrowingArray.Slice start stop => start <= j < stop
  end.

(** X3. An assignment never shrinks the array and never touches a row it
    does not name: whatever the key and the value, and whether it returns
    or raises, [__setitem__] leaves a well-formed array of the same width
    and dtype, at least as long as before, in which every row the array
    had outside the key reads as before. *)
Theorem setitem_frame self item v :
  GrowingArray.wf self →
  let self' := (GrowingArray.__setitem__ self item v).1 in
  GrowingArray.wf self'
  ∧ GrowingArray._width self' = GrowingArray._width self
  ∧ GrowingArray._dtype self' = GrowingArray._dtype self
  ∧ GrowingArray.__len__ self <= GrowingArray.__len__ self'
  ∧ (∀ j, 0 <= j < GrowingArray.__len__ self → ¬ names item j →
          GrowingArray.get self' j = GrowingArray.get self j).
Proof.
  intros Hwf. simpl.
  destruct (GrowingArray.__setitem__ self item v) as [self' [[]|e]] eqn:E;
    simpl.
  - destruct item as [i|start stop], v as [row|m].
    + destruct (GrowingArray.set_inv self i row self' E)
        as (Hi & Hrow & stored & Hst).
      destruct (GrowingArray.set_spec self i row stored Hwf Hi Hrow Hst)
        as (s2 & E2 & Hwf' & L & _ & W & Dt & R & O & N).
      unfold GrowingArray.set in E2. rewrite E in E2. injection E2 as <-.
      unfold GrowingArray.__len__.
      split_and!; [done|done|done|lia|intros j Hj Hn; by apply O].
    + exfalso. revert E.
      unfold GrowingArray.__setitem__, GrowingArray.fix_slicing,
        GrowingArray.fix_input.
      by destruct (i <? 0).
    + exfalso. revert E.
      unfold GrowingArray.__setitem__, GrowingArray.fix_slicing,
        GrowingArray.fix_input.
      by destruct (_ || _).
    + destruct (GrowingArray.set_slice_inv self start stop m self' E)
        as (Hi & Hlen & Hrows & stored & Hst).
      destruct (GrowingArray.set_slice_spec self start stop m stored
                  Hwf Hi Hlen Hrows Hst)
        as (s2 & E2 & Hwf' & L & _ & W & Dt & R & O & N).
      unfold GrowingArray.set_slice in E2. rewrite E in E2.
      injection E2 as <-.
      unfold GrowingArray.__len__.
      split_and!; [done|done|done|lia|intros j Hj Hn; by apply O].
  - destruct (GrowingArray.__setitem___raises self item v self' e Hwf E)
      as (stop & _ & _ & Hwf' & W & Dt & L & O).
    unfold GrowingArray.__len__.
    split_and!; [done|done|done|lia|intros j Hj _; by apply O].
Qed.

(** X4. Chunks are allocated whole and only as far as needed: after
    [_allocate(stop)] the array has [max(n, ceil(stop / chunk_size))]
    chunks, where [n] is the number it had. *)
Theorem allocate_whole_chunks self stop :
  GrowingArray.wf self →
  Z.of_nat (List.length
              (GrowingArray._chunks (GrowingArray._allocate self stop)))
  = Z.max (Z.of_nat (List.length (GrowingArray._chunks self)))
          ((stop + GrowingArray._chunk_size self - 1)
           / GrowingArray._chunk_size self).
Proof.
  intros Hwf. pose proof (GrowingArray.wf_chunk_size _ Hwf) as Hcs.
  unfold GrowingArray._allocate. simpl.
  set (n := Z.of_nat (List.length (GrowingArray._chunks self))).
  set (cs := GrowingArray._chunk_size self) in *.
  assert (Hn : 0 <= n) by (unfold n; lia).
  destruct (n * cs <? stop) eqn:E;
    [apply Z.ltb_lt in E|apply Z.ltb_ge in E].
  - rewrite length_app, length_replicate. fold n.
    assert (n < (stop + cs - 1) / cs) by (Z.div_mod_to_equations; nia).
    lia.
  - fold n.
    assert ((stop + cs - 1) / cs <= n) by (Z.div_mod_to_equations; nia).
    lia.
Qed.

(** Modelled from the spec: [support.chunked_slicing] is not part of the
    tree. For each chunk it visits it gives the part of [start, stop) that
    lies in the chunk, as
    [((data_start, data_stop), chunk, (chunk_start, chunk_stop))]: the
    bounds of the part within the buffer of the caller, the chunk, and the
    bounds of the part within the chunk. *)
Definition chunking (start stop chunk_size chunk : Z)
  : (Z * Z) * Z * (Z * Z) :=
  let lower := Z.max start (chunk * chunk_size) in
  let upper := Z.min stop ((chunk + 1) * chunk_size) in
  ((lower - start, upper - start), chunk,
   (lower - chunk * chunk_size, upper - chunk * chunk_size)).

(** Modelled from the spec: the chunks [chunked_slicing] visits, from
    [first_chunk = start / chunk_size] to
    [last_chunk = (stop - 1) / chunk_size]. *)
Definition chunked_slicing (start stop chunk_size : Z)
  : list ((Z * Z) * Z * (Z * Z)) :=
  let first_chunk := start / chunk_size in
  let last_chunk := (stop - 1) / chunk_size in
  chunking start stop chunk_size
  <$> seqZ first_chunk (last_chunk + 1 - first_chunk).

(** [data[data_start:data_stop, :] = rows], for bounds within [data]:
    numpy takes as many rows as the range has, or one row for all of
    them, and refuses any other number. *)
Definition assign_rows (data : list (list A)) (data_start data_stop : Z)
    (rows : list (list A)) : result (list (list A)) :=
  let put rows :=
    Ok (take (Z.to_nat data_start) data ++ rows
        ++ drop (Z.to_nat data_stop) data) in
  if Z.of_nat (List.length rows) =? data_stop - data_start then put rows
  else match rows with
       | [row] => put (replicate (Z.to_nat (data_stop - data_start)) row)
       | _ => Raise ValueError
       end.

(** The loop of [_gather] over the chunkings: each part of the range is
    copied from its chunk into [data]. *)
Fixpoint gather_chunks self (chunkings : list ((Z * Z) * Z * (Z * Z)))
    (data : list (list A)) : result (list (list A)) :=
  match chunkings with
  | [] => Ok data
  | ((data_start, data_stop), chunk, (chunk_start, chunk_stop)) :: rest =>
      match GrowingArray._chunks self !! Z.to_nat chunk with
      | None => Raise IndexError
      | Some rows =>
          data ← assign_rows data data_start data_stop
                             (slice rows chunk_start chunk_stop);
          gather_chunks self rest data
      end
  end.

(** [_gather(start, stop)] as it is written, chunk by chunk, where
    [GrowingArray._gather] reads the range row by row. *)
Definition _gather_chunked self (start stop : Z) : result (list (list A)) :=
  let data :=
    replicate (Z.to_nat (stop - start))
              (replicate (Z.to_nat (GrowingArray._width self))
                         (zero (GrowingArray._dtype self))) in
  gather_chunks self
    (chunked_slicing start stop (GrowingArray._chunk_size self)) data.

Lemma gather_chunks_rows self start stop rows :
  GrowingArray.wf self → 0 <= start <= stop →
  stop <= GrowingArray.__len__ self →
  List.length rows = Z.to_nat (stop - start) →
  (∀ k row, rows !! k = Some row →
            GrowingArray.chunk_row self (start + Z.of_nat k) = Ok row) →
  let cs := GrowingArray._chunk_size self in
  ∀ (n : nat) chunk data,
    start / cs <= chunk <= (stop - 1) / cs + 1 →
    Z.to_nat ((stop - 1) / cs + 1 - chunk) = n →
    List.length data = Z.to_nat (stop - start) →
    (∀ k, start + Z.of_nat k < Z.max start (Z.min stop (chunk * cs)) →
          data !! k = rows !! k) →
    ∃ data',
      gather_chunks self (chunking start stop cs <$> seqZ chunk (Z.of_nat n))
                    data = Ok data'
      ∧ List.length data' = Z.to_nat (stop - start)
      ∧ ∀ k, start + Z.of_nat k
             < Z.max start (Z.min stop (((stop - 1) / cs + 1) * cs)) →
             data' !! k = rows !! k.
Proof.
  intros Hwf Hs Hstop Hrows Hrow cs.
  assert (Hcs : 4 <= cs) by (by destruct Hwf).
  pose proof (GrowingArray.wf_length _ Hwf) as Hlen.
  unfold GrowingArray.allocated, GrowingArray.__len__ in *. fold cs in Hlen.
  induction n as [|n IH]; intros chunk data Hc Hn Hdata Hinv.
  - exists data. split; [done|]. split; [done|].
    replace ((stop - 1) / cs + 1) with chunk by lia. done.
  - rewrite seqZ_cons by lia.
    replace (Z.pred (Z.of_nat (Datatypes.S n))) with (Z.of_nat n) by lia.
    rewrite fmap_cons.
    set (q := chunk * cs).
    assert (Hq : (chunk + 1) * cs = q + cs) by (unfold q; ring).
    assert (Hlast : chunk <= (stop - 1) / cs) by lia.
    assert (Hq1 : q < stop).
    { unfold q. revert Hlast. clear -Hcs. intros.
      Z.div_mod_to_equations. nia. }
    assert (Hq2 : start < q + cs).
    { unfold q. destruct Hc as [Hc _]. revert Hc. clear -Hcs. intros.
      Z.div_mod_to_equations. nia. }
    assert (Hq0 : 0 <= chunk).
    { assert (0 <= start / cs) by (apply Z.div_pos; lia). lia. }
    assert (Hin : (Z.to_nat chunk < List.length (GrowingArray._chunks self))%nat).
    { apply Nat2Z.inj_lt. rewrite Z2Nat.id by done.
      assert (q < Z.of_nat (List.length (GrowingArray._chunks self)) * cs)
        by lia.
      unfold q in *. nia. }
    destruct (lookup_lt_is_Some_2 _ _ Hin) as [c Hchunk].
    assert (Hclen : List.length c = Z.to_nat cs).
    { pose proof (GrowingArray.wf_chunks _ Hwf) as Hall.
      rewrite Forall_lookup in Hall. exact (Hall _ _ Hchunk). }
    unfold chunking at 1. fold q. rewrite Hq.
    cbn [gather_chunks]. rewrite Hchunk.
    set (lower := Z.max start q). set (upper := Z.min stop (q + cs)).
    set (piece := slice c (lower - q) (upper - q)).
    assert (Hpiece : List.length piece = Z.to_nat (upper - lower)).
    { unfold piece, slice. rewrite length_take, length_drop, Hclen.
      unfold lower, upper. lia. }
    unfold assign_rows.
    replace (Z.of_nat (List.length piece) =? upper - start - (lower - start))
      with true by (symmetry; apply Z.eqb_eq; unfold lower, upper in *; lia).
    unfold mbind. simpl.
    apply (IH (chunk + 1)).
    + lia.
    + lia.
    + rewrite !length_app, length_take, length_drop, Hpiece, Hdata.
      unfold lower, upper. lia.
    + intros k Hk. rewrite Hq in Hk.
      destruct (decide (start + Z.of_nat k < lower)) as [Hlow|Hlow].
      * rewrite lookup_app_l
          by (rewrite length_take, Hdata; unfold lower in *; lia).
        rewrite lookup_take_lt by (unfold lower in *; lia).
        apply Hinv. fold q. unfold lower in *. lia.
      * rewrite lookup_app_r
          by (rewrite length_take, Hdata; unfold lower in *; lia).
        rewrite length_take, Hdata.
        rewrite lookup_app_l
          by (rewrite Hpiece; unfold lower, upper in *; lia).
        unfold piece, slice.
        rewrite lookup_take_lt by (unfold lower, upper in *; lia).
        rewrite lookup_drop.
        destruct (lookup_lt_is_Some_2 rows k) as [row Hk'];
          [rewrite Hrows; unfold lower, upper in *; lia|].
        rewrite Hk'. specialize (Hrow _ _ Hk').
        unfold GrowingArray.chunk_row in Hrow. fold cs in Hrow.
        assert (Hdiv : (start + Z.of_nat k) / cs = chunk).
        { symmetry. apply (Z.div_unique _ _ _ (start + Z.of_nat k - q));
            unfold lower, upper, q in *; lia. }
        assert (Hmod : (start + Z.of_nat k) mod cs = start + Z.of_nat k - q).
        { symmetry. apply (Z.mod_unique _ _ chunk);
            unfold lower, upper, q in *; lia. }
        rewrite Hdiv, Hchunk, Hmod in Hrow.
        replace (Z.to_nat (lower - q)
                 + (k - Z.to_nat (lower - start) `min` Z.to_nat (stop - start)))%nat
          with (Z.to_nat (start + Z.of_nat k - q))
          by (unfold lower, upper in *; lia).
        destruct (c !! _); congruence.
Qed.

(** X5. The copy of [_gather], chunk by chunk, gives the rows of the
    range. For [0 <= start <= stop <= len], the loop of [_gather] over the
    parts that [chunked_slicing] cuts [start, stop) into returns
    [stop - start] rows, whatever chunks the range meets and wherever it
    starts and stops in them: they are the rows [array[start:stop]]
    returns, and the row at position [k] is what [array[start + k]]
    returns. *)
Theorem gather_chunk_by_chunk self start stop :
  GrowingArray.wf self → 0 <= start <= stop →
  stop <= GrowingArray.__len__ self →
  ∃ rows,
    _gather_chunked self start stop = Ok rows
    ∧ GrowingArray.get_slice self start stop = Ok rows
    ∧ Z.of_nat (List.length rows) = stop - start
    ∧ ∀ k row, rows !! k = Some row
               ↔ Z.of_nat k < stop - start
                 ∧ GrowingArray.get self (start + Z.of_nat k) = Ok row.
Proof.
  intros Hwf Hi Hstop.
  destruct (GrowingArray.get_slice_spec self start stop Hwf Hi Hstop)
    as (rows & E & L & K).
  assert (Hcs : 4 <= GrowingArray._chunk_size self) by (by destruct Hwf).
  assert (Hrow : ∀ k row, rows !! k = Some row
                 ↔ Z.of_nat k < stop - start
                   ∧ GrowingArray.get self (start + Z.of_nat k) = Ok row).
  { intros k row. split.
    - intros Hk. pose proof (lookup_lt_Some _ _ _ Hk) as Hlt.
      specialize (K k Hlt). rewrite Hk in K. simpl in K.
      split; [lia|congruence].
    - intros [Hlt Hr].
      assert (Hk : (k < List.length rows)%nat) by lia.
      specialize (K k Hk). rewrite Hr in K.
      destruct (rows !! k); simpl in K; congruence. }
  exists rows. split_and!; try done.
  set (cs := GrowingArray._chunk_size self) in *.
  assert (Hfirst : start / cs <= (stop - 1) / cs + 1).
  { destruct Hi as [_ Hi]. revert Hi. clear -Hcs. intros.
    Z.div_mod_to_equations. nia. }
  assert (Hchunk : ∀ (k : nat) row,
            rows !! k = Some row →
            GrowingArray.chunk_row self (start + Z.of_nat k) = Ok row).
  { intros k row Hk. destruct (proj1 (Hrow k row) Hk) as [Hlt Hr].
    rewrite GrowingArray.get_unfold in Hr.
    unfold GrowingArray.__len__ in Hstop.
    destruct (decide _); [done|lia]. }
  destruct (gather_chunks_rows self start stop rows Hwf Hi Hstop
              ltac:(lia) Hchunk
              (Z.to_nat ((stop - 1) / cs + 1 - start / cs)) (start / cs)
              (replicate (Z.to_nat (stop - start))
                 (replicate (Z.to_nat (GrowingArray._width self))
                            (zero (GrowingArray._dtype self)))))
    as (data' & Eg & Ld & Hd).
  - fold cs. lia.
  - done.
  - by rewrite length_replicate.
  - intros k Hk. fold cs in Hk.
    assert (start / cs * cs <= start)
      by (clear -Hcs; Z.div_mod_to_equations; nia).
    lia.
  - unfold _gather_chunked, chunked_slicing. unfold cs in *. clear cs.
    rewrite Z2Nat.id in Eg by lia. rewrite Eg. f_equal.
    assert (Hend : stop - 1 < ((stop - 1) / GrowingArray._chunk_size self + 1)
                              * GrowingArray._chunk_size self)
      by (clear -Hcs; Z.div_mod_to_equations; nia).
    apply list_eq. intros k.
    destruct (decide (Z.of_nat k < stop - start)) as [Hlt|Hge].
    + apply Hd. lia.
    + rewrite !lookup_ge_None_2; [done|lia|lia].
Qed.

End Facts.

(** An array of floats with chunks of four rows, holding [1] at index 5. *)
Definition small : GrowingArray.t float_dtype fval :=
  GrowingArray.Build [] float64 4 1 0.

Lemma wf_small : GrowingArray.wf small.
Proof. by apply (GrowingArray.wf___init__ float64 4 1). Qed.

Definition six : GrowingArray.t float_dtype fval :=
  (GrowingArray.set small 5 [Fin 1]).1.

Lemma wf_six : GrowingArray.wf six.
Proof.
  destruct (GrowingArray.set_spec small 5 [Fin 1] [Fin 1] wf_small)
    as (s & E & Hwf & _); [lia|done|done|].
  unfold six. by rewrite E.
Qed.

Lemma set_then_get_witness :
  GrowingArray.wf small ∧ 0 <= 5
  ∧ Z.of_nat (List.length [Fin 1]) = GrowingArray._width small
  ∧ traverse (astype (GrowingArray._dtype small)) [Fin 1] = Ok [Fin 1]
  ∧ ∃ self',
      GrowingArray.set small 5 [Fin 1] = (self', Ok ())
      ∧ GrowingArray.wf self'
      ∧ GrowingArray.__len__ self'
        = Z.max (GrowingArray.__len__ small) (5 + 1)
      ∧ GrowingArray.get self' 5 = Ok [Fin 1]
      ∧ (∀ j, 0 <= j < GrowingArray.__len__ small → j ≠ 5 →
              GrowingArray.get self' j = GrowingArray.get small j)
      ∧ (∀ j, GrowingArray.__len__ small <= j < 5 →
              GrowingArray.get self' j
              = Ok (GrowingArray.zero_row small)).
Proof.
  split_and!; [exact wf_small|lia|reflexivity|reflexivity|].
  apply (set_then_get small 5 [Fin 1] [Fin 1] wf_small);
    [lia|reflexivity|reflexivity].
Defined.

Lemma set_slice_then_get_slice_witness :
  let m := [[Fin 1]; [Fin 2]; [Fin 3]] in
  GrowingArray.wf small ∧ 0 <= 3 <= 6
  ∧ Z.of_nat (List.length m) = 6 - 3
  ∧ Forall (λ r, Z.of_nat (List.length r) = GrowingArray._width small) m
  ∧ traverse (traverse (astype (GrowingArray._dtype small))) m = Ok m
  ∧ ∃ self',
      GrowingArray.set_slice small 3 6 m = (self', Ok ())
      ∧ GrowingArray.wf self'
      ∧ GrowingArray.__len__ self' = Z.max (GrowingArray.__len__ small) 6
      ∧ GrowingArray.get_slice self' 3 6 = Ok m
      ∧ (∀ j, 0 <= j < GrowingArray.__len__ small → ¬ (3 <= j < 6) →
              GrowingArray.get self' j = GrowingArray.get small j).
Proof.
  intros m.
  assert (Hrows : Forall (λ r, Z.of_nat (List.length r)
                               = GrowingArray._width small) m)
    by (repeat constructor).
  refine (conj wf_small (conj _ (conj _ (conj Hrows (conj _ _)))));
    [lia|reflexivity|reflexivity|].
  apply (set_slice_then_get_slice small 3 6 m m wf_small);
    [lia|reflexivity|exact Hrows|reflexivity].
Defined.

Lemma setitem_frame_witness :
  GrowingArray.wf six
  ∧ let self' := (GrowingArray.__setitem__ six (GrowingArray.Index 7)
                    (GrowingArray.Row [Fin 2; Fin 3])).1 in
    GrowingArray.wf self'
    ∧ GrowingArray._width self' = GrowingArray._width six
    ∧ GrowingArray._dtype self' = GrowingArray._dtype six
    ∧ GrowingArray.__len__ six <= GrowingArray.__len__ self'
    ∧ (∀ j, 0 <= j < GrowingArray.__len__ six →
            ¬ names (GrowingArray.Index 7) j →
            GrowingArray.get self' j = GrowingArray.get six j).
Proof.
  split; [exact wf_six|].
  apply (setitem_frame six (GrowingArray.Index 7)
           (GrowingArray.Row [Fin 2; Fin 3]) wf_six).
Defined.

Lemma allocate_whole_chunks_witness :
  GrowingArray.wf six
  ∧ Z.of_nat (List.length
                (GrowingArray._chunks (GrowingArray._allocate six 13)))
    = Z.max (Z.of_nat (List.length (GrowingArray._chunks six)))
            ((13 + GrowingArray._chunk_size six - 1)
             / GrowingArray._chunk_size six).
Proof.
  split; [exact wf_six|]. apply (allocate_whole_chunks six 13 wf_six).
Defined.

Lemma gather_chunk_by_chunk_witness :
  GrowingArray.wf six ∧ 0 <= 3 <= 6 ∧ 6 <= GrowingArray.__len__ six
  ∧ ∃ rows,
      _gather_chunked six 3 6 = Ok rows
      ∧ GrowingArray.get_slice six 3 6 = Ok rows
      ∧ Z.of_nat (List.length rows) = 6 - 3
      ∧ ∀ k row, rows !! k = Some row
                 ↔ Z.of_nat k < 6 - 3
                   ∧ GrowingArray.get six (3 + Z.of_nat k) = Ok row.
Proof.
  assert (Hlen : 6 <= GrowingArray.__len__ six)
    by (vm_compute; discriminate).
  refine (conj wf_six (conj _ (conj Hlen _))); [lia|].
  apply (gather_chunk_by_chunk six 3 6 wf_six); [lia|exact Hlen].
Defined.

End GrowingArrayFacts.

(** ** Candles *)

Module PricingFacts.
Import Candle.

(** A candle whose start and end lie between its min and its max. *)
Definition bounded (c : Candle.t) : Prop :=
  min c <= start c <= max c ∧ min c <= end_ c <= max c.

(** X6. What [Candle.merge] returns, and for what. Of a candle whose start
    and end lie between its min and its max: merging it with a Python
    [int], or with another such candle, returns a candle of the same kind,
    whose min is not above and whose max is not below those of the candle
    and of what was merged; merging it with a numpy [uint64], the type of
    the prices of this program, or with [None] raises TypeError and
    returns no candle. *)
Theorem merge_bounded (self : Candle.t) :
  bounded self →
  (∀ p, ∃ r, Pricing.merge self (Int p) = Ok r
             ∧ bounded r
             ∧ min r <= min self ∧ max self <= max r
             ∧ min r <= p <= max r)
  ∧ (∀ c, bounded c →
          ∃ r, Pricing.merge self (CandleV c) = Ok r
               ∧ bounded r
               ∧ min r <= min self ∧ max self <= max r
               ∧ min r <= min c ∧ max c <= max r)
  ∧ (∀ p, Pricing.merge self (UInt64 p) = Raise TypeError)
  ∧ Pricing.merge self NoneV = Raise TypeError.
Proof.
  intros [Hs He]. split_and!; [| |done|done].
  - intros p. eexists. split; [reflexivity|].
    unfold bounded. simpl. lia.
  - intros c [Hcs Hce]. eexists. split; [reflexivity|].
    unfold bounded. simpl. lia.
Qed.

Lemma merge_bounded_witness :
  let self := Candle.Build 10 12 9 13 in
  bounded self
  ∧ (∀ p, ∃ r, Pricing.merge self (Int p) = Ok r
               ∧ bounded r
               ∧ min r <= min self ∧ max self <= max r
               ∧ min r <= p <= max r)
  ∧ (∀ c, bounded c →
          ∃ r, Pricing.merge self (CandleV c) = Ok r
               ∧ bounded r
               ∧ min r <= min self ∧ max self <= max r
               ∧ min r <= min c ∧ max c <= max r)
  ∧ (∀ p, Pricing.merge self (UInt64 p) = Raise TypeError)
  ∧ Pricing.merge self NoneV = Raise TypeError.
Proof.
  intros self.
  assert (H : bounded self) by (unfold bounded; simpl; lia).
  split; [exact H|]. apply (merge_bounded self H).
Defined.

End PricingFacts.

(** ** Digests *)

Module DigestFacts.
Import Digests.

Lemma make_candle_loop_snoc xs x : ∀ candle,
  make_candle_loop candle (xs ++ [x])
  = (candle' ← make_candle_loop candle xs; make_candle_loop candle' [x]).
Proof.
  induction xs as [|y xs IH]; intros candle; [done|].
  simpl. destruct candle as [c|].
  - unfold mbind, result_bind at 1 3.
    destruct (Pricing.merge c y); [apply IH|done].
  - destruct y; apply IH.
Qed.

(** X7. The candle a bin of candles is digested to. [_make_candle] on a
    non-empty sequence of candles returns a candle: its start is the least
    of their starts, its min the least of their mins and its max the
    greatest of their maxes. Its end is the end of the candle when it is
    alone; otherwise it is the greater of the least start before the last
    candle and the start of the last candle: no [end] is read. *)
Theorem _make_candle_of_candles (c : Candle.t) (cs : list Candle.t) :
  ∃ r,
    _make_candle (CandleV <$> c :: cs) = Ok (Some r)
    ∧ Candle.start r = foldl Z.min (Candle.start c) (Candle.start <$> cs)
    ∧ Candle.min r = foldl Z.min (Candle.min c) (Candle.min <$> cs)
    ∧ Candle.max r = foldl Z.max (Candle.max c) (Candle.max <$> cs)
    ∧ (cs = [] → Candle.end_ r = Candle.end_ c)
    ∧ (∀ cs' l, cs = cs' ++ [l] →
         Candle.end_ r
         = Z.max (foldl Z.min (Candle.start c) (Candle.start <$> cs'))
                 (Candle.start l)).
Proof.
  change (_make_candle (CandleV <$> c :: cs))
    with (make_candle_loop (Some c) (CandleV <$> cs)).
  induction cs as [|l cs (r & E & Hs & Hmin & Hmax & _ & _)] using rev_ind.
  - exists c. split_and!; try done. by intros [|? ?] ?.
  - rewrite fmap_app. change (CandleV <$> [l]) with [CandleV l].
    rewrite make_candle_loop_snoc, E.
    eexists. split; [reflexivity|].
    rewrite !fmap_app, !foldl_app. simpl.
    rewrite Hs, Hmin, Hmax. split_and!; try done.
    + intros Heq. by destruct cs.
    + intros cs' l' Heq. apply app_inj_tail in Heq as [-> ->]. done.
Qed.

(** X8. A refresh that meets a bin of prices raises. When the first bin a
    refresh visits holds two or more [uint64], [_on_refresh] raises
    TypeError at that bin: the digest is left as it was, the high-water
    mark is not moved and no event is fired. *)
Theorem refresh_of_prices_raises s d a b ps :
  let r := _relative_bin_size d in
  let lo := Z.min a (_last_read_ubound d) / r in
  lo < (b + r - 1) / r →
  bin_elements s r lo = Ok (UInt64 <$> ps) →
  (2 <= List.length ps)%nat →
  _on_refresh s a b d = (d, [], Raise TypeError).
Proof.
  intros r lo Hlo Hbin Hps. unfold _on_refresh.
  unfold mbind at 1 2, M_bind, gets. simpl. fold r. fold lo.
  unfold range. rewrite seqZ_cons by lia. simpl.
  unfold bin_elements, mbind, result_bind in Hbin.
  destruct (Sources.rows s (lo * r) (lo * r + r)) as [m|] eqn:Em; [|done].
  unfold mbind, M_bind, read. simpl. rewrite Hbin.
  destruct ps as [|p [|q ps]]; simpl in Hps; try lia.
  reflexivity.
Qed.

Lemma refresh_of_prices_raises_witness :
  let s := (Sources.push four_prices None
              (Sources.fresh 1%nat Sources.StandardizedPrice NoneV)).1.1 in
  let d := two_minutes in
  let r := _relative_bin_size d in
  let lo := Z.min 0 (_last_read_ubound d) / r in
  lo < (4 + r - 1) / r
  ∧ bin_elements s r lo = Ok (UInt64 <$> [10; 20])
  ∧ (2 <= List.length [10; 20])%nat
  ∧ _on_refresh s 0 4 d = (d, [], Raise TypeError).
Proof.
  intros s d r lo.
  assert (H1 : lo < (4 + r - 1) / r) by (vm_compute; reflexivity).
  assert (H2 : bin_elements s r lo = Ok (UInt64 <$> [10; 20]))
    by (vm_compute; reflexivity).
  assert (H3 : (2 <= List.length [10; 20])%nat) by (simpl; lia).
  refine (conj H1 (conj H2 (conj H3 _))).
  apply (refresh_of_prices_raises s d 0 4 [10; 20] H1 H2 H3).
Defined.

Lemma make_candle_loop_hole rest : ∀ c,
  NoneV ∈ rest → make_candle_loop (Some c) rest = Raise TypeError.
Proof.
  induction rest as [|x rest IH]; intros c Hin.
  - by apply elem_of_nil in Hin.
  - apply elem_of_cons in Hin as [<-|Hin]; [done|].
    destruct x; simpl; try done; by apply IH.
Qed.

(** X9. Holes in a bin. [_make_candle] passes over the [None]s, and the
    Python integers, that come before the first candle or [uint64] of a
    bin; once the candle is seeded, a [None] anywhere after it makes the
    merge raise TypeError. *)
Theorem _make_candle_holes :
  (∀ skipped elements,
     Forall (λ x, ¬ seeds x) skipped →
     _make_candle (skipped ++ elements) = _make_candle elements)
  ∧ (∀ x rest, seeds x → NoneV ∈ rest →
               _make_candle (x :: rest) = Raise TypeError).
Proof.
  split.
  - intros skipped elements Hsk. unfold _make_candle.
    induction Hsk as [|x skipped Hx _ IH]; [done|].
    simpl. destruct x; simpl in Hx; try done; by destruct Hx.
  - intros x rest Hx Hin. unfold _make_candle.
    destruct x; simpl in Hx; try done; simpl;
      by apply make_candle_loop_hole.
Qed.

Lemma _make_candle_holes_witness :
  let c := Candle.Build 10 12 9 13 in
  Forall (λ x, ¬ seeds x) [NoneV; Int 3]
  ∧ _make_candle ([NoneV; Int 3] ++ [CandleV c]) = _make_candle [CandleV c]
  ∧ seeds (CandleV c) ∧ NoneV ∈ [CandleV c; NoneV]
  ∧ _make_candle (CandleV c :: [CandleV c; NoneV]) = Raise TypeError.
Proof.
  intros c.
  assert (H1 : Forall (λ x, ¬ seeds x) [NoneV; Int 3])
    by (repeat constructor; simpl; tauto).
  assert (H2 : NoneV ∈ [CandleV c; NoneV]) by (right; left).
  refine (conj H1 (conj _ (conj I (conj H2 _)))).
  - apply (proj1 _make_candle_holes [NoneV; Int 3] [CandleV c] H1).
  - apply (proj2 _make_candle_holes (CandleV c) [CandleV c; NoneV] I H2).
Defined.

(** X10. A digest never runs ahead of its source. After any sequence of
    pushes, each followed by a refresh that returns, the digest holds rows
    for complete bins only, [len(digest) * r <= len(source)], and its
    high-water mark lies within them; [r] is at least 2. *)
Theorem digest_within_source s0 id source_interval interval d0 sys :
  Sources.wf s0 → 0 < source_interval →
  __init__ id source_interval interval = Ok d0 →
  rtc step (System s0 d0) sys →
  let r := interval / source_interval in
  2 <= r
  ∧ _relative_bin_size (digest sys) = r
  ∧ __len__ (digest sys) * r <= Sources.__len__ (source sys)
  ∧ 0 <= _last_read_ubound (digest sys) <= __len__ (digest sys) * r.
Proof.
  intros Hs0 Hpos Hinit Hrun r.
  destruct (__init___inv s0 id source_interval interval d0 Hs0 Hpos Hinit)
    as [Hinv0 Hr0].
  destruct (run_inv _ _ Hinv0 Hrun) as [Hinv Hr]. simpl in Hr.
  rewrite Hr0 in Hr. fold r in Hr.
  destruct Hinv as [_ _ _ _ _ Hu Hc _]. rewrite Hr in *.
  split; [|done].
  unfold __init__, allowed_as_digest in Hinit.
  destruct (source_interval <? interval) eqn:E1; [|done].
  destruct (interval mod source_interval =? 0) eqn:E2; [|done].
  apply Z.ltb_lt in E1. apply Z.eqb_eq in E2.
  unfold r. Z.div_mod_to_equations. nia.
Qed.

(** The run of [digest_run_S3]. *)
Definition source_S3 : Sources.t :=
  (Sources.push four_candles None
     (Sources.fresh 1%nat Sources.Candle NoneV)).1.1.

Definition digest_S3 : t := (_on_refresh source_S3 0 4 two_minutes).1.1.

Lemma run_S3 :
  rtc step (System (Sources.fresh 1%nat Sources.Candle NoneV) two_minutes)
           (System source_S3 digest_S3).
Proof. exact (proj1 digest_run_S3). Qed.

Lemma digest_within_source_witness :
  let s0 := Sources.fresh 1%nat Sources.Candle NoneV in
  let sys := System source_S3 digest_S3 in
  Sources.wf s0 ∧ 0 < 60
  ∧ __init__ 2%nat 60 120 = Ok two_minutes
  ∧ rtc step (System s0 two_minutes) sys
  ∧ let r := 120 / 60 in
    2 <= r
    ∧ _relative_bin_size (digest sys) = r
    ∧ __len__ (digest sys) * r <= Sources.__len__ (source sys)
    ∧ 0 <= _last_read_ubound (digest sys) <= __len__ (digest sys) * r.
Proof.
  intros s0 sys.
  assert (Hwf : Sources.wf s0) by apply Sources.wf_fresh.
  assert (Hinit : __init__ 2%nat 60 120 = Ok two_minutes) by reflexivity.
  refine (conj Hwf (conj _ (conj Hinit (conj run_S3 _)))); [lia|].
  apply (digest_within_source s0 2%nat 60 120 two_minutes sys
           Hwf ltac:(lia) Hinit run_S3).
Defined.

(** X11. Refreshing again changes nothing. When the source has not changed
    since the digest was last refreshed, a refresh over a range whose bins
    the digest already holds returns, rewrites every bin of the range with
    the candle it held, so that every row reads as before, moves the
    high-water mark to [max(mark, end)] and fires
    [on_refresh_linked_sources] once, with the bins it visited. *)
Theorem refresh_again s0 id source_interval interval d0 s d a b :
  Sources.wf s0 → 0 < source_interval →
  __init__ id source_interval interval = Ok d0 →
  rtc step (System s0 d0) (System s d) →
  let r := _relative_bin_size d in
  0 <= a → (b + r - 1) / r <= __len__ d →
  post (_on_refresh s a b) d (λ d' effs res,
    res = Ok ()
    ∧ effs = [Trigger on_refresh_linked_sources (self_id d)
                (Z.min a (_last_read_ubound d) / r) ((b + r - 1) / r)]
    ∧ __len__ d' = __len__ d
    ∧ (∀ i, row d' i = row d i)
    ∧ _last_read_ubound d' = Z.max (_last_read_ubound d) b).
Proof.
  intros Hs0 Hpos Hinit Hrun r Ha Hhi.
  destruct (__init___inv s0 id source_interval interval d0 Hs0 Hpos Hinit)
    as [Hinv0 _].
  destruct (run_inv _ _ Hinv0 Hrun) as [Hinv _].
  destruct Hinv as [Hs Hd Hw Hdt Hr Hu Hc Hb]. simpl in *. fold r in Hr, Hu.
  unfold _on_refresh.
  apply post_bind, post_gets. apply post_bind, post_gets. fold r.
  set (u := _last_read_ubound d) in *.
  set (lo := Z.min a u / r). set (hi := (b + r - 1) / r) in *.
  assert (Hlo : 0 <= lo) by (unfold lo; apply Z.div_pos; lia).
  set (J := λ (k : Z) (dk : t),
         GrowingArray.wf (_data dk)
         ∧ GrowingArray._width (_data dk) = 1
         ∧ GrowingArray._dtype (_data dk) = Sources.Candle
         ∧ self_id dk = self_id d
         ∧ _last_read_ubound dk = u
         ∧ __len__ dk = __len__ d
         ∧ ∀ i, row dk i = row d i).
  apply post_bind.
  eapply post_mono.
  { apply (for_each_range J (λ _, False) _ hi (Z.to_nat (hi - lo)) lo d);
      [done|by unfold J|].
    intros k dk Hk (Hdk & Hwk & Hdtk & Hik & Huk & Hlk & Hrows).
    destruct (Hb k) as (els & c & E & M & R); [lia|]. fold r in E.
    unfold bin_elements, mbind, result_bind in E.
    apply post_bind. unfold post at 1, read.
    destruct (Sources.rows s (k * r) (k * r + r)) as [m|e]; [|done].
    apply post_bind. unfold post at 1, read. rewrite E.
    apply post_bind. unfold post at 1, read. rewrite M.
    destruct (GrowingArray.set_spec (_data dk) k [cell c] [cell c] Hdk)
      as (a' & E' & Hwf' & L & C & W & D & R' & O & N);
      [lia|by rewrite Hwk|by rewrite Hdtk|].
    unfold post, assign. rewrite E'. split; [done|].
    unfold J, __len__, row, GrowingArray.__len__ in *. simpl.
    split_and!; try done; try congruence; try lia.
    intros i. destruct (decide (i = k)) as [->|Hne]; [congruence|].
    destruct (decide (0 <= i < GrowingArray._length (_data dk))).
    - rewrite O by done. apply Hrows.
    - rewrite <- Hrows. rewrite !GrowingArray.get_out_of_range; [done..|lia]. }
  intros dk effs [[]|e] [-> H]; [|done].
  destruct H as (Hdk & Hwk & Hdtk & Hik & Huk & Hlk & Hrows).
  apply post_bind, post_modify. apply post_bind, post_gets. apply post_emit.
  simpl. rewrite Hik. split_and!; done.
Qed.

Lemma refresh_again_witness :
  let s0 := Sources.fresh 1%nat Sources.Candle NoneV in
  Sources.wf s0 ∧ 0 < 60
  ∧ __init__ 2%nat 60 120 = Ok two_minutes
  ∧ rtc step (System s0 two_minutes) (System source_S3 digest_S3)
  ∧ let r := _relative_bin_size digest_S3 in
    0 <= 1
    ∧ (3 + r - 1) / r <= __len__ digest_S3
    ∧ post (_on_refresh source_S3 1 3) digest_S3 (λ d' effs res,
        res = Ok ()
        ∧ effs = [Trigger on_refresh_linked_sources (self_id digest_S3)
                    (Z.min 1 (_last_read_ubound digest_S3) / r)
                    ((3 + r - 1) / r)]
        ∧ __len__ d' = __len__ digest_S3
        ∧ (∀ i, row d' i = row digest_S3 i)
        ∧ _last_read_ubound d'
          = Z.max (_last_read_ubound digest_S3) 3).
Proof.
  intros s0.
  assert (Hwf : Sources.wf s0) by apply Sources.wf_fresh.
  assert (Hinit : __init__ 2%nat 60 120 = Ok two_minutes) by reflexivity.
  assert (Hhi : (3 + _relative_bin_size digest_S3 - 1)
                / _relative_bin_size digest_S3 <= __len__ digest_S3)
    by (vm_compute; discriminate).
  refine (conj Hwf (conj _ (conj Hinit (conj run_S3 _)))); [lia|].
  refine (conj _ (conj Hhi _)); [lia|].
  apply (refresh_again s0 2%nat 60 120 two_minutes source_S3 digest_S3 1 3
           Hwf ltac:(lia) Hinit run_S3 ltac:(lia) Hhi).
Defined.

End DigestFacts.

(** ** Sources *)

Module SourceFacts.
Import Sources.

(** X12. Appending. A push of [k >= 1] rows with no index, of data the
    source accepts and its array takes, returns; it emits no warning and
    fires [on_refresh_linked_sources] and then [on_refresh_indicators],
    both with [(n, n + k)], [n] being the length before; the length becomes
    [n + k], rows [n, n + k) hold the data as the array stores it and the
    rows below read as before. *)
Theorem push_appends self data rows :
  wf self → accepted self data → well_shaped data →
  stored self data = Ok rows → 1 <= count data →
  post (push data None) self (λ self' effs r,
    let n := __len__ self in
    r = Ok ()
    ∧ effs = [Trigger on_refresh_linked_sources (self_id self)
                n (n + count data);
              Trigger on_refresh_indicators (self_id self)
                n (n + count data)]
    ∧ __len__ self' = n + count data
    ∧ holds self' n rows
    ∧ ∀ j, 0 <= j < n → row self' j = row self j).
Proof.
  intros Hwf Hacc Hshape Hst Hk.
  assert (Hl0 : 0 <= __len__ self).
  { destruct Hwf as [[]]. unfold __len__, GrowingArray.__len__. lia. }
  unfold push. apply post_bind, post_gets. apply post_bind.
  eapply post_mono; [apply _check_input_matching_types_spec|].
  intros ? ? r (-> & -> & Hr & _). rewrite (Hr Hacc). simpl.
  apply post_bind. unfold _put_and_interpolate.
  apply post_bind, post_gets. apply post_bind.
  change (match data with
          | Scalar d => assign _data set_data
              (λ data, GrowingArray.set data (__len__ self) [d])
          | NdArray m => assign _data set_data
              (λ data, GrowingArray.set_slice data (__len__ self)
                 (__len__ self + Z.of_nat (List.length m)) m)
          end) with (insertion (__len__ self) data).
  pose proof (insertion_spec (__len__ self) data self Hwf) as Hins.
  destruct (insertion_ok (__len__ self) data self rows Hwf Hl0 Hshape Hst)
    as [s1 E].
  unfold post at 1. rewrite E in *.
  destruct Hins
    as (_ & _ & Hwf1 & I1 & N1 & D1 & L1 & (rows1 & Hst1 & R1) & O1 & Z1).
  rewrite Hst in Hst1. injection Hst1 as <-.
  apply post_bind.
  apply (post_mono _ _ (λ s effs r,
           s = s1 ∧ effs = [] ∧ ∃ left_side, r = Ok left_side)).
  { destruct (__len__ self =? 0) eqn:E0.
    - apply post_gets. eauto.
    - apply Z.eqb_neq in E0. unfold post, read.
      destruct Hwf1 as [Hwfa Hwa].
      destruct (GrowingArray.get_is_ok (_data s1) (__len__ self) Hwfa)
        as [row0 Hrow0].
      { unfold __len__, GrowingArray.__len__ in *. lia. }
      pose proof (GrowingArray.get_width _ _ _ Hwfa Hrow0) as Hw0.
      rewrite Hwa in Hw0.
      destruct row0 as [|x [|? ?]]; simpl in Hw0; try lia.
      unfold GrowingArray.get_cell, mbind, result_bind. rewrite Hrow0.
      destruct (decide (0 <= 0)); [|lia]. simpl. eauto. }
  intros ? ? ? (-> & -> & left_side & ->).
  destruct (__len__ self <? __len__ self - 1) eqn:En;
    [apply Z.ltb_lt in En; lia|].
  apply post_ret.
  apply post_bind, post_gets. apply post_bind, post_emit. apply post_emit.
  assert (Hend : __len__ self
                 + match data with
                   | Scalar _ => 1
                   | NdArray m => Z.of_nat (List.length m)
                   end = __len__ self + count data).
  { unfold count. by destruct data. }
  rewrite I1, Hend. simpl. split_and!; try done; [lia|].
  intros j Hj. apply O1; lia.
Qed.

Lemma push_appends_witness :
  let data := NdArray [[UInt64 7]; [UInt64 8]] in
  wf three_prices ∧ accepted three_prices data ∧ well_shaped data
  ∧ stored three_prices data = Ok [[UInt64 7]; [UInt64 8]]
  ∧ 1 <= count data
  ∧ post (push data None) three_prices (λ self' effs r,
      let n := __len__ three_prices in
      r = Ok ()
      ∧ effs = [Trigger on_refresh_linked_sources (self_id three_prices)
                  n (n + count data);
                Trigger on_refresh_indicators (self_id three_prices)
                  n (n + count data)]
      ∧ __len__ self' = n + count data
      ∧ holds self' n [[UInt64 7]; [UInt64 8]]
      ∧ ∀ j, 0 <= j < n → row self' j = row three_prices j).
Proof.
  intros data.
  assert (Hwf : wf three_prices) by apply push_wf, wf_fresh.
  assert (Hshape : well_shaped data) by (repeat constructor).
  assert (Hst : stored three_prices data = Ok [[UInt64 7]; [UInt64 8]])
    by (vm_compute; reflexivity).
  assert (Hk : 1 <= count data) by (vm_compute; discriminate).
  refine (conj Hwf (conj I (conj Hshape (conj Hst (conj Hk _))))).
  apply (push_appends three_prices data [[UInt64 7]; [UInt64 8]]
           Hwf I Hshape Hst Hk).
Defined.

(** X13. A scalar of the wrong type is refused before anything happens:
    when [_check_input_matching_types] does not accept the data, a candle
    for a price source, an integer for a candle source or [None], [push]
    raises TypeError at any index, the source is left as it was and no
    warning or event is emitted. *)
Theorem push_rejects self data index :
  ¬ accepted self data →
  push data index self = (self, [], Raise TypeError).
Proof.
  intros Hacc. unfold push, _check_input_matching_types.
  unfold accepted in Hacc.
  destruct index; unfold mbind, M_bind, gets; simpl;
    destruct data as [[p|p|c|]|m]; try done;
    destruct (dtype_of self); simpl; try done; by destruct Hacc.
Qed.

Lemma push_rejects_witness :
  let data := Scalar (CandleV (Candle.Build 1 2 1 2)) in
  ¬ accepted three_prices data
  ∧ push data (Some 1) three_prices = (three_prices, [], Raise TypeError).
Proof.
  intros data.
  assert (H : ¬ accepted three_prices data) by (vm_compute; discriminate).
  split; [exact H|]. apply (push_rejects three_prices data (Some 1) H).
Defined.

Lemma set_slice_nothing (data : GrowingArray.t dtype datum) :
  GrowingArray.wf data →
  let n := GrowingArray._length data in
  GrowingArray.set_slice data n n [] = (data, Ok ()).
Proof.
  intros Hwf n. pose proof (GrowingArray.wf_length _ Hwf) as Hl. fold n in Hl.
  unfold GrowingArray.set_slice, GrowingArray.__setitem__,
    GrowingArray.fix_slicing, GrowingArray.fix_input, GrowingArray._fill,
    GrowingArray._allocate, GrowingArray.allocated in *.
  fold n.
  destruct (n <? 0) eqn:E1; [apply Z.ltb_lt in E1; lia|].
  rewrite Z.ltb_irrefl. simpl. rewrite Z.sub_diag. simpl.
  destruct (Z.of_nat (List.length (GrowingArray._chunks data))
            * GrowingArray._chunk_size data <? n) eqn:E3;
    [apply Z.ltb_lt in E3; lia|].
  rewrite Z.max_id. unfold n. by destruct data.
Qed.

(** X15. Pushing an empty array. With no index, [push] of an array of no
    rows changes nothing in the source. On an empty source it returns and
    fires the two events with the empty range [(0, 0)]; on a source that
    holds rows it raises IndexError, at the read of the left side
    [self._data[length]], and fires nothing. *)
Theorem push_empty_array self :
  wf self →
  post (push (NdArray []) None) self (λ self' effs r,
    self' = self
    ∧ if decide (__len__ self = 0)
      then r = Ok ()
           ∧ effs = [Trigger on_refresh_linked_sources (self_id self) 0 0;
                     Trigger on_refresh_indicators (self_id self) 0 0]
      else r = Raise IndexError ∧ effs = []).
Proof.
  intros [Hwf Hw].
  assert (Hl0 : 0 <= __len__ self).
  { destruct Hwf. unfold __len__, GrowingArray.__len__. lia. }
  unfold push, _check_input_matching_types, _put_and_interpolate, post.
  unfold mbind, M_bind, gets, assign. simpl.
  rewrite Z.add_0_r.
  pose proof (set_slice_nothing (_data self) Hwf) as E. simpl in E.
  unfold __len__, GrowingArray.__len__ in *. rewrite E. simpl.
  assert (Hself : set_data (_data self) self = self) by by destruct self.
  rewrite Hself.
  destruct (decide (GrowingArray._length (_data self) = 0)) as [E0|E0].
  - rewrite E0. simpl. done.
  - destruct (GrowingArray._length (_data self) =? 0) eqn:E1;
      [apply Z.eqb_eq in E1; lia|].
    unfold read, GrowingArray.get_cell, mbind, result_bind.
    rewrite GrowingArray.get_out_of_range by lia. done.
Qed.

Lemma push_empty_array_witness :
  wf three_prices
  ∧ post (push (NdArray []) None) three_prices (λ self' effs r,
      self' = three_prices
      ∧ if decide (__len__ three_prices = 0)
        then r = Ok ()
             ∧ effs = [Trigger on_refresh_linked_sources
                         (self_id three_prices) 0 0;
                       Trigger on_refresh_indicators
                         (self_id three_prices) 0 0]
        else r = Raise IndexError ∧ effs = []).
Proof.
  assert (Hwf : wf three_prices) by apply push_wf, wf_fresh.
  split; [exact Hwf|]. apply (push_empty_array three_prices Hwf).
Defined.

(** X16. Overwriting rows raises after the rows are written. A push of
    data the source accepts and its array takes, at an index [0 <= index]
    with [index + k <= len(self)] on a source that holds rows, writes the
    rows and then raises IndexError at the read of the left side
    [self._data[length]], one past the last row: the rows of the range hold
    the data, the length is as before and neither a warning nor a refresh
    event is emitted. *)
Theorem overwrite_raises self data index rows :
  wf self → 0 <= index → index + count data <= __len__ self →
  0 < __len__ self → accepted self data → well_shaped data →
  stored self data = Ok rows →
  post (push data (Some index)) self (λ self' effs r,
    r = Raise IndexError ∧ effs = []
    ∧ __len__ self' = __len__ self
    ∧ holds self' index rows
    ∧ ∀ j, ¬ (index <= j < index + count data) → row self' j = row self j).
Proof.
  intros Hwf Hi Hk Hlen Hacc Hshape Hst.
  pose proof (push_inside_raises data index self rows
                Hwf Hi Hk Hlen Hacc Hshape Hst) as H1.
  pose proof (push_spec data (Some index) self Hwf) as H2.
  unfold post in *. simpl in H2.
  destruct (push data (Some index) self) as [[self' effs] r].
  destruct H1 as [-> ->].
  destruct H2 as (Hwf' & _ & _ & _ & L1 & L2 & O & R & _).
  assert (Hsame : __len__ self' = __len__ self) by lia.
  split_and!; try done.
  - by apply R.
  - intros j Hj. destruct (decide (0 <= j < __len__ self)).
    + by apply O.
    + unfold row. rewrite !GrowingArray.get_out_of_range; try done.
      unfold __len__, GrowingArray.__len__ in Hsame. by rewrite Hsame.
Qed.

Lemma overwrite_raises_witness :
  let data := Scalar (Int 7) in
  wf three_prices ∧ 0 <= 0 ∧ 0 + count data <= __len__ three_prices
  ∧ 0 < __len__ three_prices ∧ accepted three_prices data
  ∧ well_shaped data ∧ stored three_prices data = Ok [[UInt64 7]]
  ∧ post (push data (Some 0)) three_prices (λ self' effs r,
      r = Raise IndexError ∧ effs = []
      ∧ __len__ self' = __len__ three_prices
      ∧ holds self' 0 [[UInt64 7]]
      ∧ ∀ j, ¬ (0 <= j < 0 + count data) →
             row self' j = row three_prices j).
Proof.
  intros data.
  assert (Hwf : wf three_prices) by apply push_wf, wf_fresh.
  assert (Hk : 0 + count data <= __len__ three_prices)
    by (vm_compute; discriminate).
  assert (Hlen : 0 < __len__ three_prices) by (vm_compute; reflexivity).
  assert (Hshape : well_shaped data) by (repeat constructor).
  assert (Hst : stored three_prices data = Ok [[UInt64 7]])
    by (vm_compute; reflexivity).
  assert (Hacc : accepted three_prices data) by (vm_compute; reflexivity).
  refine (conj Hwf (conj _ (conj Hk (conj Hlen (conj Hacc (conj Hshape
            (conj Hst _))))))); [lia|].
  apply (overwrite_raises three_prices data 0 [[UInt64 7]]
           Hwf ltac:(lia) Hk Hlen Hacc Hshape Hst).
Defined.

End SourceFacts.

(** ** Indicators *)

Module IndicatorFacts.
Import Indicators.


(** An indicator over the broadcaster 1, which has announced [0, 3). *)
Definition over_one : t :=
  Build 10%nat None {[1%nat := 0]} {[1%nat := 3]} false None.


(** X18. A notification from a stranger is refused before anything moves.
    When [dependency] is not a key of [_max_requested_end], that is, not one
    of the broadcasters the indicator was created with,
    [on_dependency_update] raises KeyError: no mark is changed, [_update] is
    not run and no event is fired. *)
Theorem unknown_dependency (_update : Z → Z → M t unit) self dependency
    start end_ :
  _max_requested_end self !! dependency = None →
  _on_dependency_update _update dependency start end_ self
  = (self, [], Raise KeyError).
Proof.
  intros He.
  unfold _on_dependency_update, mbind, M_bind, read, getitem.
  by rewrite He.
Qed.

Lemma unknown_dependency_witness :
  let _update : Z → Z → M t unit := λ _ _, emit (Warn SmallChunkSize) in
  _max_requested_end over_one !! 2%nat = None
  ∧ _on_dependency_update _update 2%nat 0 5 over_one
    = (over_one, [], Raise KeyError).
Proof.
  intros _update. split; [reflexivity|].
  apply (unknown_dependency _update over_one 2%nat 0 5 eq_refl).
Defined.

Lemma remove_dups_singleton (l : list Z) :
  (∃ x, remove_dups l = [x]) ↔ l ≠ [] ∧ ∀ y z, y ∈ l → z ∈ l → y = z.
Proof.
  split.
  - intros [x Hx]. split.
    + intros ->. done.
    + intros y z Hy Hz.
      apply elem_of_remove_dups in Hy, Hz. rewrite Hx in Hy, Hz.
      apply list_elem_of_singleton in Hy, Hz. congruence.
  - intros [Hne Heq].
    pose proof (NoDup_remove_dups l) as Hnd.
    destruct (remove_dups l) as [|a [|b rest]] eqn:E.
    + destruct l as [|y l]; [done|].
      assert (Hy : y ∈ remove_dups (y :: l))
        by (apply elem_of_remove_dups; left).
      rewrite E in Hy. by apply elem_of_nil in Hy.
    + by exists a.
    + assert (Ha : a ∈ l) by (apply elem_of_remove_dups; rewrite E; left).
      assert (Hb : b ∈ l)
        by (apply elem_of_remove_dups; rewrite E; right; left).
      rewrite (Heq a b Ha Hb) in Hnd.
      apply NoDup_cons in Hnd as [Hnotin _].
      destruct Hnotin. left.
Qed.

(** X19. What the constructor checks. The checks of [Indicator.__init__]
    pass, and the indicator starts with an empty buffer, not disposed and
    with every mark at 0, exactly when there is at least one broadcaster,
    all broadcasters have the same interval, the width is at least 1 and
    the chunk size is at least 4; otherwise it raises ValueError. A chunk
    size from 0 to 3 passes the test of the constructor itself and is
    refused by the array. *)
Theorem checked_iff id initial_width broadcasters chunk_size :
  let accepted :=
    broadcasters ≠ []
    ∧ (∀ b b', b ∈ broadcasters → b' ∈ broadcasters →
               b_interval b = b_interval b')
    ∧ 1 <= initial_width ∧ 4 <= chunk_size in
  (accepted →
   ∃ self,
     checked id initial_width broadcasters chunk_size = Ok self
     ∧ self_id self = id
     ∧ _disposed self = false
     ∧ (∃ data, _data self = Some data ∧ GrowingArray.__len__ data = 0
                ∧ GrowingArray._width data = initial_width)
     ∧ ∀ b, b ∈ broadcasters →
            _max_requested_start self !! b_id b = Some 0
            ∧ _max_requested_end self !! b_id b = Some 0)
  ∧ (¬ accepted →
     checked id initial_width broadcasters chunk_size = Raise ValueError).
Proof.
  simpl. unfold checked.
  assert (Hdups : (∃ x, remove_dups (b_interval <$> broadcasters) = [x])
                  ↔ broadcasters ≠ []
                    ∧ ∀ b b', b ∈ broadcasters → b' ∈ broadcasters →
                              b_interval b = b_interval b').
  { rewrite remove_dups_singleton. split.
    - intros [Hne Heq]. split.
      + intros ->. done.
      + intros b b' Hb Hb'. apply Heq; by apply list_elem_of_fmap_2.
    - intros [Hne Heq]. split.
      + by destruct broadcasters.
      + intros y z Hy Hz.
        apply list_elem_of_fmap in Hy as (b & -> & Hb).
        apply list_elem_of_fmap in Hz as (b' & -> & Hb').
        by apply Heq. }
  split.
  - intros (Hne & Heq & Hw & Hcs).
    destruct (proj2 Hdups (conj Hne Heq)) as [x ->].
    destruct (chunk_size <? 0) eqn:E0; [apply Z.ltb_lt in E0; lia|].
    unfold GrowingArray.__init__.
    destruct (chunk_size <? 4) eqn:E1; [apply Z.ltb_lt in E1; lia|].
    destruct (initial_width <? 1) eqn:E2; [apply Z.ltb_lt in E2; lia|].
    simpl. eexists. split; [reflexivity|]. simpl.
    split_and!; try done; [by eexists|].
    intros b Hb.
    assert (Hlookup : ∀ bs : list broadcaster, b ∈ bs →
      (list_to_map ((λ b, (b_id b, 0)) <$> bs) : gmap oid Z) !! b_id b
      = Some 0).
    { clear. intros bs Hb. induction bs as [|b0 bs IH].
      - by apply elem_of_nil in Hb.
      - simpl. destruct (decide (b_id b0 = b_id b)) as [->|Hne].
        + apply lookup_insert_eq.
        + rewrite lookup_insert_ne by done.
          apply elem_of_cons in Hb as [->|Hb]; [done|]. by apply IH. }
    split; by apply Hlookup.
  - intros Hnot.
    destruct (remove_dups (b_interval <$> broadcasters))
      as [|x [|y rest]] eqn:E; [done| |done].
    destruct (proj1 Hdups ltac:(eauto)) as [Hne Heq].
    destruct (chunk_size <? 0) eqn:E0; [done|]. apply Z.ltb_ge in E0.
    unfold GrowingArray.__init__.
    destruct (chunk_size <? 4) eqn:E1; [done|]. apply Z.ltb_ge in E1.
    destruct (initial_width <? 1) eqn:E2; [done|]. apply Z.ltb_ge in E2.
    destruct Hnot. split_and!; try done; lia.
Qed.

Lemma checked_iff_witness :
  let broadcasters := [Broadcaster 1%nat 60 3; Broadcaster 2%nat 60 5] in
  (broadcasters ≠ []
   ∧ (∀ b b', b ∈ broadcasters → b' ∈ broadcasters →
              b_interval b = b_interval b')
   ∧ 1 <= 1 ∧ 4 <= 3600)
  ∧ ∃ self,
      checked 10%nat 1 broadcasters 3600 = Ok self
      ∧ self_id self = 10%nat
      ∧ _disposed self = false
      ∧ (∃ data, _data self = Some data ∧ GrowingArray.__len__ data = 0
                 ∧ GrowingArray._width data = 1)
      ∧ ∀ b, b ∈ broadcasters →
             _max_requested_start self !! b_id b = Some 0
             ∧ _max_requested_end self !! b_id b = Some 0.
Proof.
  intros broadcasters.
  assert (H : broadcasters ≠ []
              ∧ (∀ b b', b ∈ broadcasters → b' ∈ broadcasters →
                         b_interval b = b_interval b')
              ∧ 1 <= 1 ∧ 4 <= 3600).
  { split; [done|]. split; [|lia].
    intros b b' Hb Hb'.
    repeat (apply elem_of_cons in Hb as [->|Hb]);
      repeat (apply elem_of_cons in Hb' as [->|Hb']);
      try done; exfalso;
      (by apply elem_of_nil in Hb) || (by apply elem_of_nil in Hb'). }
  split; [exact H|].
  apply (proj1 (checked_iff 10%nat 1 broadcasters 3600) H).
Defined.

End IndicatorFacts.

(** ** Moving statistics *)

Module MovingFacts.
Import Moving.

(** What [MovingMean._update] stores at index [i] of a refresh from 0 over
    the rows [data] of the parent. *)
Definition stored_mean (self : MovingMean.t) (data : list (list fval))
    (i : Z) : fval :=
  let T := MovingMean._tail_size self in
  if (i + 1 - T <? 0) && MovingMean._nan_on_short_tail self then NaN
  else fdiv (fsum (concat (slice data (Z.max 0 (i + 1 - T)) (i + 1))))
            (Fin (float T)).

(** The sum of a list of integers. *)
Definition total (ps : list Z) : Z := foldr Z.add 0 ps.

Lemma Qred_float (z : Z) : Qred (float z) = float z.
Proof.
  unfold float, Qred, inject_Z.
  pose proof (Z.ggcd_gcd z 1) as Hg.
  pose proof (Z.ggcd_correct_divisors z 1) as Hd.
  destruct (Z.ggcd z 1) as [g [aa bb]]. simpl in *.
  rewrite Z.gcd_1_r in Hg. subst g. destruct Hd as [Ha Hb].
  replace aa with z by lia. by replace bb with 1 by lia.
Qed.

Lemma fsum_integers (ps : list Z) :
  fsum ((λ p, Fin (float p)) <$> ps) = Fin (float (total ps)).
Proof.
  induction ps as [|p ps IH]; [done|].
  change (fsum ((λ p, Fin (float p)) <$> p :: ps))
    with (fadd (Fin (float p)) (fsum ((λ p, Fin (float p)) <$> ps))).
  rewrite IH. simpl. f_equal.
  rewrite <- (Qred_float (p + total ps)). apply Qred_complete.
  unfold float. by rewrite inject_Z_plus.
Qed.

Lemma fdiv_exact (s t : Z) :
  1 <= t → (t | s) →
  fdiv (Fin (float s)) (Fin (float t)) = Fin (float (s / t)).
Proof.
  intros Ht [q ->]. rewrite Z.div_mul by lia.
  assert (Hne : ¬ (float t == 0)%Q).
  { unfold float, inject_Z, Qeq. simpl. lia. }
  unfold fdiv. destruct (Qeq_bool (float t) 0) eqn:E;
    [by apply Qeq_bool_eq in E|].
  f_equal. rewrite <- (Qred_float q). apply Qred_complete.
  unfold float in *. rewrite inject_Z_mult. by field.
Qed.

(** X20. A refresh of a moving mean from index 0. With tail size [T >= 1],
    [_update(0, n)] over the rows [data = parent[0:n]] returns and emits
    nothing; the buffer then has length [max(len, n)], the rows from [n] on
    read as before, and each row [0 <= i < n] holds one cell. The cell is
    NaN when [i < T - 1] and [nan_on_short_tail] is set. Otherwise it is
    computed from the window [data[max(0, i + 1 - T) : i + 1]]: where the
    cells of the window are integers that are not negative, with a sum
    below [2^53] that is a multiple of [T], so that the sum and the
    division of the code are exact, the cell is that sum divided by [T];
    by [T], not by the number of rows summed, also where the window is
    shorter than [T]. *)
Theorem moving_mean_from_zero self parent base buf data n :
  1 <= MovingMean._tail_size self → 0 <= n →
  normalized parent (MovingMean._candle_component self) 0 n = Ok data →
  Indicators._data base = Some buf →
  GrowingArray.wf buf → GrowingArray._width buf = 1 →
  post (MovingMean._update self parent 0 n) base (λ base' effs r,
    r = Ok () ∧ effs = []
    ∧ ∃ buf',
        Indicators._data base' = Some buf'
        ∧ GrowingArray.__len__ buf' = Z.max (GrowingArray.__len__ buf) n
        ∧ (∀ i, n <= i < GrowingArray.__len__ buf →
                GrowingArray.get buf' i = GrowingArray.get buf i)
        ∧ let T := MovingMean._tail_size self in
          (∀ i, 0 <= i < n → ∃ x, GrowingArray.get buf' i = Ok [x])
          ∧ (∀ i, 0 <= i < n → i < T - 1 →
                  MovingMean._nan_on_short_tail self = true →
                  GrowingArray.get buf' i = Ok [NaN])
          ∧ (∀ i ps, 0 <= i < n →
                     T - 1 <= i ∨ MovingMean._nan_on_short_tail self = false →
                     concat (slice data (Z.max 0 (i + 1 - T)) (i + 1))
                     = (λ p, Fin (float p)) <$> ps →
                     Forall (λ p, 0 <= p) ps → total ps < 2 ^ 53 →
                     (T | total ps) →
                     GrowingArray.get buf' i
                     = Ok [Fin (float (total ps / T))])).
Proof.
  intros HT Hn Hdata Hbuf Hwf Hw.
  unfold MovingMean._update. apply post_bind. unfold post at 1, read.
  replace (Z.max 0 (0 + 1 - MovingMean._tail_size self)) with 0 by lia.
  rewrite Hdata. rewrite Z.sub_0_r.
  set (J := λ (k : Z) (b : Indicators.t),
         ∃ bufk,
           Indicators._data b = Some bufk
           ∧ GrowingArray.wf bufk
           ∧ GrowingArray._width bufk = 1
           ∧ GrowingArray.__len__ bufk = Z.max (GrowingArray.__len__ buf) k
           ∧ (∀ i, k <= i < GrowingArray.__len__ buf →
                   GrowingArray.get bufk i = GrowingArray.get buf i)
           ∧ ∀ i, 0 <= i < k →
                  GrowingArray.get bufk i = Ok [stored_mean self data i]).
  eapply post_mono.
  { apply (for_each_range J (λ _, False) _ n (Z.to_nat (n - 0)) 0 base);
      [done| |].
    - exists buf. pose proof (GrowingArray.wf_length _ Hwf).
      unfold GrowingArray.__len__. split_and!; try done; [lia|lia].
    - intros k b Hk (bufk & Hb & Hwfk & Hwk & Hlk & Hrest & Hdone).
      assert (Hstore :
        post (store (0 + k) [stored_mean self data k]) b
          (λ s' effs r, effs = [] ∧ match r with
                                     | Ok _ => J (k + 1) s'
                                     | Raise _ => False
                                     end)).
      { destruct (GrowingArray.set_spec bufk k [stored_mean self data k]
                    [stored_mean self data k] Hwfk)
          as (buf' & E & Hwf' & L & C & W & D & R & O & N);
          [lia|by rewrite Hwk|done|].
        unfold post, store, assign. rewrite Hb, Z.add_0_l, E. simpl.
        split; [done|]. exists buf'.
        unfold GrowingArray.__len__ in *.
        split_and!; try done; try congruence; try lia.
        - intros i Hi. rewrite O by lia. apply Hrest. lia.
        - intros i Hi. destruct (decide (i = k)) as [->|Hne]; [done|].
          rewrite O by lia. apply Hdone. lia. }
      unfold stored_mean in Hstore. rewrite !Z.add_0_l.
      rewrite Z.add_0_l in Hstore.
      destruct ((k + 1 - MovingMean._tail_size self <? 0)
                && MovingMean._nan_on_short_tail self); exact Hstore. }
  intros b effs [[]|e] [-> H]; [|done].
  destruct H as (bufk & Hb & Hwfk & Hwk & Hlk & Hrest & Hdone).
  replace (Z.max 0 n) with n in * by lia.
  split_and!; try done. exists bufk. split_and!; try done.
  - intros i Hi. rewrite (Hdone i Hi). by eexists.
  - intros i Hi HT' Hnan. rewrite (Hdone i Hi). unfold stored_mean.
    destruct (i + 1 - MovingMean._tail_size self <? 0) eqn:E;
      [|apply Z.ltb_ge in E; lia].
    by rewrite Hnan.
  - intros i ps Hi Hcase Hwindow _ _ Hdiv. rewrite (Hdone i Hi).
    unfold stored_mean.
    assert (Hcond : (i + 1 - MovingMean._tail_size self <? 0)
                    && MovingMean._nan_on_short_tail self = false).
    { destruct Hcase as [Hle| ->]; [|by rewrite andb_false_r].
      destruct (i + 1 - MovingMean._tail_size self <? 0) eqn:E;
        [apply Z.ltb_lt in E; lia|done]. }
    rewrite Hcond, Hwindow, fsum_integers. by rewrite fdiv_exact.
Qed.

(** A moving mean of tail size 3 over five prices, and an empty buffer. *)
Definition five_prices : Sources.t :=
  MovingMean.pushed [10; 20; 30; 40; 50] MovingMean.no_prices.

Definition mean_of_three : MovingMean.t :=
  MovingMean.Build 1%nat None 3 true.

Definition no_rows : GrowingArray.t float_dtype fval :=
  GrowingArray.Build [] float64 3600 1 0.

Definition fresh_indicator : Indicators.t :=
  Indicators.Build 10%nat (Some no_rows) {[1%nat := 0]} {[1%nat := 0]}
                   false None.

Lemma wf_no_rows : GrowingArray.wf no_rows.
Proof. by apply (GrowingArray.wf___init__ float64 3600 1). Qed.

Lemma moving_mean_from_zero_witness :
  let data := [[Fin 10]; [Fin 20]; [Fin 30]; [Fin 40]; [Fin 50]] in
  1 <= MovingMean._tail_size mean_of_three ∧ 0 <= 5
  ∧ normalized (OfSource five_prices)
               (MovingMean._candle_component mean_of_three) 0 5 = Ok data
  ∧ Indicators._data fresh_indicator = Some no_rows
  ∧ GrowingArray.wf no_rows ∧ GrowingArray._width no_rows = 1
  ∧ post (MovingMean._update mean_of_three (OfSource five_prices) 0 5)
      fresh_indicator (λ base' effs r,
        r = Ok () ∧ effs = []
        ∧ ∃ buf',
            Indicators._data base' = Some buf'
            ∧ GrowingArray.__len__ buf'
              = Z.max (GrowingArray.__len__ no_rows) 5
            ∧ (∀ i, 5 <= i < GrowingArray.__len__ no_rows →
                    GrowingArray.get buf' i = GrowingArray.get no_rows i)
            ∧ let T := MovingMean._tail_size mean_of_three in
              (∀ i, 0 <= i < 5 → ∃ x, GrowingArray.get buf' i = Ok [x])
              ∧ (∀ i, 0 <= i < 5 → i < T - 1 →
                      MovingMean._nan_on_short_tail mean_of_three = true →
                      GrowingArray.get buf' i = Ok [NaN])
              ∧ (∀ i ps, 0 <= i < 5 →
                         T - 1 <= i
                         ∨ MovingMean._nan_on_short_tail mean_of_three
                           = false →
                         concat (slice data (Z.max 0 (i + 1 - T)) (i + 1))
                         = (λ p, Fin (float p)) <$> ps →
                         Forall (λ p, 0 <= p) ps → total ps < 2 ^ 53 →
                         (T | total ps) →
                         GrowingArray.get buf' i
                         = Ok [Fin (float (total ps / T))])).
Proof.
  intros data.
  assert (Hdata : normalized (OfSource five_prices)
                    (MovingMean._candle_component mean_of_three) 0 5
                  = Ok data) by (vm_compute; reflexivity).
  refine (conj _ (conj _ (conj Hdata (conj eq_refl
            (conj wf_no_rows (conj eq_refl _))))));
    [simpl; lia|lia|].
  apply (moving_mean_from_zero mean_of_three (OfSource five_prices)
           fresh_indicator no_rows data 5);
    [simpl; lia|lia|exact Hdata|reflexivity|exact wf_no_rows|reflexivity].
Defined.

Section Sqrt.
Variable sqrt : Q → Q.

(** X21. A moving variance with both columns never stores a row. With
    [var] and [stderr] set, [_update] over a non-empty range, whenever the
    matrix is computed, raises ValueError at the assignment to the buffer
    of width 1 that [_initial_width] gave it: the indicator is left as it
    was and emits nothing. *)
Theorem both_columns_refused (self : MovingVariance.t) mean moving_mean
    parent start end_ base buf m :
  MovingVariance._use_var self = true →
  MovingVariance._use_stderr self = true →
  0 <= start < end_ →
  MovingVariance.computed sqrt self mean moving_mean parent start end_
  = Ok m →
  Indicators._data base = Some buf → GrowingArray._width buf = 1 →
  MovingVariance._update sqrt self mean moving_mean parent start end_ base
  = (base, [], Raise ValueError).
Proof.
  intros Hvar Hstderr Hrange Hm Hbuf Hw.
  assert (Hrows : Forall (λ r, List.length r = 2%nat) m).
  { revert Hm. unfold MovingVariance.computed, mbind, result_bind.
    destruct (Indicators.__getitem__ _ _) as [[?|means]|]; try done.
    destruct (normalized _ _ _ _) as [values|]; [|done].
    match goal with
    | |- context [match ?e with Ok _ => _ | Raise _ => _ end] =>
        destruct e as [variance|]; [|done]
    end.
    rewrite Hvar, Hstderr. simpl. intros [= <-].
    apply Forall_forall. intros r Hr.
    apply elem_of_lookup_zip_with in Hr as (i & v & s & -> & _). done. }
  unfold MovingVariance._update, mbind, M_bind, read. rewrite Hm.
  rewrite Hvar. simpl.
  unfold MovingVariance.store_slice, assign. rewrite Hbuf.
  assert (Hset : GrowingArray.set_slice buf start end_ m
                 = (buf, Raise ValueError)).
  { unfold GrowingArray.set_slice, GrowingArray.__setitem__,
      GrowingArray.fix_slicing, GrowingArray.fix_input.
    destruct (start <? 0) eqn:E1; [apply Z.ltb_lt in E1; lia|].
    destruct (end_ <? 0) eqn:E2; [apply Z.ltb_lt in E2; lia|].
    destruct (end_ <? start) eqn:E3; [apply Z.ltb_lt in E3; lia|].
    simpl. rewrite Hw.
    assert (Hcond : (Z.of_nat (List.length m) =? end_ - start)
                    && forallb (λ r, Z.of_nat (List.length r) =? 1) m
                    = false).
    { destruct m as [|r m].
      - rewrite andb_true_r. apply Z.eqb_neq. simpl. lia.
      - apply Forall_cons in Hrows as [Hr _].
        apply andb_false_iff. right. cbn [forallb]. by rewrite Hr. }
    by rewrite Hcond. }
  rewrite Hset. simpl.
  assert (Hbase : Indicators.set_data (Some buf) base = base).
  { destruct base. simpl in Hbuf. by subst. }
  by rewrite Hbase.
Qed.

End Sqrt.

(** What makes [MovingMean.__init__] refuse its arguments. *)
Definition refused (slots : list component) (parent : timelapse)
    (tail_size : Z) (component : component) : Prop :=
  tail_size <= 1
  ∨ match parent with
    | OfSource s =>
        Sources.dtype_of s = Sources.Candle ∧ component ∉ slots
    | OfIndicator _ width => width ≠ 1
    end.

(** X22. What the constructor of a moving mean checks. [MovingMean.__init__]
    raises ValueError exactly when the tail size is at most 1, or the
    parent is an indicator whose width is not 1, or the parent is a candle
    source and the component is not among [Candle.__slots__]; otherwise it
    builds the indicator, reading the component for a candle source and no
    component for the others, and goes on to the first refresh. With no
    slots, every candle source is refused, whatever the component. *)
Theorem moving_mean_init slots id parent interval tail_size component
    nan_on_short_tail :
  (refused slots parent tail_size component →
   MovingMean.__init__ slots id parent interval tail_size component
                       nan_on_short_tail = Raise ValueError)
  ∧ (¬ refused slots parent tail_size component →
     ∃ self base,
       MovingMean.__init__ slots id parent interval tail_size component
                           nan_on_short_tail = Ok (self, base)
       ∧ MovingMean._tail_size self = tail_size
       ∧ MovingMean._nan_on_short_tail self = nan_on_short_tail
       ∧ MovingMean._candle_component self
         = match parent with
           | OfSource s =>
               match Sources.dtype_of s with
               | Sources.Candle => Some component
               | Sources.StandardizedPrice => None
               end
           | OfIndicator _ _ => None
           end)
  ∧ (∀ s, parent = OfSource s → Sources.dtype_of s = Sources.Candle →
          MovingMean.__init__ [] id parent interval tail_size component
                              nan_on_short_tail = Raise ValueError).
Proof.
  assert (Hrefused : ∀ slots,
    refused slots parent tail_size component →
    MovingMean.__init__ slots id parent interval tail_size component
                        nan_on_short_tail = Raise ValueError).
  { intros slots0 Href. unfold MovingMean.__init__, mbind, result_bind.
    destruct parent as [s|i width].
    - destruct (Sources.dtype_of s) eqn:Edt.
      + destruct Href as [Ht|[? _]]; [|congruence].
        destruct (tail_size <=? 1) eqn:E; [done|]. apply Z.leb_gt in E. lia.
      + destruct (decide (component ∈ slots0)) as [Hin|Hnotin]; [|done].
        destruct Href as [Ht|[_ ?]]; [|done].
        destruct (tail_size <=? 1) eqn:E; [done|]. apply Z.leb_gt in E. lia.
    - destruct (width =? 1) eqn:Ew; [|done]. apply Z.eqb_eq in Ew.
      destruct Href as [Ht|?]; [|done].
      destruct (tail_size <=? 1) eqn:E; [done|]. apply Z.leb_gt in E. lia. }
  split_and!.
  - apply Hrefused.
  - intros Hnot. unfold MovingMean.__init__, mbind, result_bind.
    assert (Htail : (tail_size <=? 1) = false).
    { apply Z.leb_gt. destruct (decide (tail_size <= 1)); [|lia].
      destruct Hnot. by left. }
    unfold Indicators.__init__, Indicators.checked, mbind, result_bind.
    destruct parent as [s|i width].
    + destruct (Sources.dtype_of s) eqn:Edt.
      * rewrite Htail. simpl. by eexists _, _.
      * destruct (decide (component ∈ slots)) as [Hin|Hnotin].
        -- rewrite Htail. simpl. by eexists _, _.
        -- destruct Hnot. right. done.
    + destruct (width =? 1) eqn:Ew.
      * rewrite Htail. simpl. by eexists _, _.
      * apply Z.eqb_neq in Ew. destruct Hnot. by right.
  - intros s -> Hdt. apply Hrefused. right. split; [done|].
    apply not_elem_of_nil.
Qed.

Lemma moving_mean_init_witness :
  let parent := OfSource five_prices in
  ¬ refused [] parent 3 end_
  ∧ ∃ self base,
      MovingMean.__init__ [] 10%nat parent 60 3 end_ true = Ok (self, base)
      ∧ MovingMean._tail_size self = 3
      ∧ MovingMean._nan_on_short_tail self = true
      ∧ MovingMean._candle_component self
        = match parent with
          | OfSource s =>
              match Sources.dtype_of s with
              | Sources.Candle => Some end_
              | Sources.StandardizedPrice => None
              end
          | OfIndicator _ _ => None
          end.
Proof.
  intros parent.
  assert (H : ¬ refused [] parent 3 end_).
  { intros [Ht|[Hdt _]]; [lia|]. vm_compute in Hdt. discriminate. }
  split; [exact H|].
  apply (proj1 (proj2 (moving_mean_init [] 10%nat parent 60 3 end_ true)) H).
Defined.

(** S5 of the spec: the moving mean of tail size 3 of the five prices, and
    a moving variance with both columns over it. The square root is taken
    to be any function, here the identity. *)
Definition mean_S5 : Indicators.t :=
  match MovingMean.__init__ [] 10%nat (OfSource five_prices) 60 3 end_ true
  with
  | Ok (_, (moving_mean, _, _)) => moving_mean
  | Raise _ => fresh_indicator
  end.

Definition variance_S5 : MovingVariance.t :=
  MovingVariance.Build true true true 10%nat.

Definition matrix_S5 : list (list fval) :=
  match MovingVariance.computed (λ q, q) variance_S5 mean_of_three mean_S5
          (OfSource five_prices) 0 5 with
  | Ok m => m
  | Raise _ => []
  end.

Definition fresh_variance : Indicators.t :=
  Indicators.Build 11%nat (Some no_rows) {[10%nat := 0]} {[10%nat := 0]}
                   false None.

Lemma both_columns_refused_witness :
  MovingVariance._use_var variance_S5 = true
  ∧ MovingVariance._use_stderr variance_S5 = true
  ∧ 0 <= 0 < 5
  ∧ MovingVariance.computed (λ q, q) variance_S5 mean_of_three mean_S5
      (OfSource five_prices) 0 5 = Ok matrix_S5
  ∧ Indicators._data fresh_variance = Some no_rows
  ∧ GrowingArray._width no_rows = 1
  ∧ MovingVariance._update (λ q, q) variance_S5 mean_of_three mean_S5
      (OfSource five_prices) 0 5 fresh_variance
    = (fresh_variance, [], Raise ValueError).
Proof.
  assert (Hm : MovingVariance.computed (λ q, q) variance_S5 mean_of_three
                 mean_S5 (OfSource five_prices) 0 5 = Ok matrix_S5)
    by (vm_compute; reflexivity).
  refine (conj eq_refl (conj eq_refl (conj _ (conj Hm (conj eq_refl
            (conj eq_refl _)))))); [lia|].
  apply (both_columns_refused (λ q, q) variance_S5 mean_of_three mean_S5
           (OfSource five_prices) 0 5 fresh_variance no_rows matrix_S5
           eq_refl eq_refl ltac:(lia) Hm eq_refl eq_refl).
Defined.

End MovingFacts.

(** ** Predictors *)

Module PredictorFacts.
Import Predictors.

(** X23. A predictor never writes. For every predictor, algorithm and range,
    [_update(start, end)] leaves the indicator, its buffer included, as it found
    it and emits nothing, whether it returns or raises. *)
Theorem update_never_writes self start end_ base :
  post (_update self start end_) base
    (λ base' effs r, base' = base ∧ effs = []).
Proof. apply _update_unchanged. Qed.

End PredictorFacts.

(** ** Events (events.py) *)

Module Events.

Section Event.
(** The callbacks, bound methods in the code, are the elements of a set:
    all that is used of them is that they can be told apart. *)
Context {C : Type} {eq_dec : EqDecision C} {countable : Countable C}.

Definition t : Type := gset C.

Definition __init__ : t := ∅.

(** [self._callbacks.add(callback)] *)
Definition register (callback : C) (self : t) : t := {[callback]} ∪ self.

(** [self._callbacks.discard(callback)] *)
Definition unregister (callback : C) (self : t) : t := self ∖ {[callback]}.

(** [for callback in self._callbacks: callback(...)], in the order in which
    the set is iterated; [call] runs a callback on the arguments of
    [trigger]. *)
Definition trigger {S} (call : C → M S unit) (self : t) : M S unit :=
  for_each (elements self) call.

(** A callback that records that it was called. *)
Definition record_call (callback : C) : M (list C) unit :=
  modify (λ calls, calls ++ [callback]).

Lemma trigger_record_call (l : list C) : ∀ calls,
  for_each l record_call calls = (calls ++ l, [], Ok ()).
Proof.
  induction l as [|c l IH]; intros calls.
  - simpl. by rewrite app_nil_r.
  - simpl. unfold mbind, M_bind. unfold record_call at 1, modify.
    rewrite IH. simpl. by rewrite <- app_assoc.
Qed.

(** X24. An event keeps a set of callbacks. However often a callback was
    registered, one [trigger] calls it once, together with every other
    registered callback, and one [unregister] removes it: the next
    [trigger] does not call it and still calls the others. Unregistering a
    callback that is not registered leaves the event as it is, without
    raising. *)
Theorem register_trigger_unregister (callback : C) (self : t) :
  (∃ calls,
     trigger record_call (register callback (register callback self)) []
     = (calls, [], Ok ())
     ∧ NoDup calls
     ∧ ∀ c, c ∈ calls ↔ c = callback ∨ c ∈ self)
  ∧ (∃ calls,
       trigger record_call
         (unregister callback (register callback (register callback self)))
         []
       = (calls, [], Ok ())
       ∧ NoDup calls
       ∧ ∀ c, c ∈ calls ↔ c ≠ callback ∧ c ∈ self)
  ∧ (callback ∉ self → unregister callback self = self).
Proof.
  unfold trigger, register, unregister. split_and!.
  - eexists. split; [apply trigger_record_call|].
    rewrite app_nil_l. split; [apply NoDup_elements|].
    intros c. rewrite elem_of_elements, !elem_of_union, elem_of_singleton.
    tauto.
  - eexists. split; [apply trigger_record_call|].
    rewrite app_nil_l. split; [apply NoDup_elements|].
    intros c.
    rewrite elem_of_elements, elem_of_difference, !elem_of_union,
      elem_of_singleton.
    tauto.
  - intros Hnot. apply set_eq. intros c.
    rewrite elem_of_difference, elem_of_singleton. split; [tauto|].
    intros Hc. split; [done|]. by intros ->.
Qed.

End Event.

Lemma register_trigger_unregister_witness :
  let self : t := register 1%nat __init__ in
  (3%nat ∉ self) ∧ unregister 3%nat self = self.
Proof.
  intros self.
  assert (H : 3%nat ∉ self).
  { unfold self, register, __init__.
    rewrite elem_of_union, elem_of_singleton, elem_of_empty. lia. }
  split; [exact H|].
  apply (proj2 (proj2 (register_trigger_unregister 3%nat self)) H).
Defined.

End Events.
